(** * vrsc-arb: a shallow embedding of the arbitrage pipeline

    The development embeds, function by function, the parts of the
    JavaScript sources that the specification's testable properties talk
    about:

    - [Decimal]             the operations of decimal.js the sources use;
    - [Js]                  the values handed to [new Decimal], string helpers;
    - [CircuitBreaker]      unnamed/part_002 (imported as utils/circuit-breaker.js);
    - [BalanceManager]      unnamed/part_007, first class;
    - [PriceValidator]      src/utils/price-validator.js, first class;
    - [ArbitrageDetector]   src/arbitrage/opportunityValidator.js, second class;
    - [MarketDepthAnalyzer] src/arbitrage/marketDepthAnalyzer.js;
    - [ExchangeHealthMonitor] src/utils/price-validator.js, second class;
    - [OpportunityValidator]  src/arbitrage/opportunityValidator.js, first class;
    - [OrderManager]        unnamed/part_005;
    - [TradeExecutor]       src/trading/tradeExecutor.js;
    - [BaseExchange]        src/exchanges/baseConnector.js, the price fetch.

    Part I is the embedding, Part II the vocabulary of the properties with
    the sample inputs, Parts III and IV the properties and their proofs.

    Conventions.  A JavaScript [Map] keyed by strings is a [gmap string _];
    an object that the source mutates in place is written back into the map
    that holds it.  [Date.now()] is an explicit argument [now] (milliseconds,
    in [Z]).  Log lines are kept only for the executor, where they are the
    one trace of some decisions.  A method that can throw returns an
    [option] ([None] is the exception) and the [try]/[catch] of the caller
    is the [match] on it. *)

From Stdlib Require Import ZArith QArith Qabs Lqa Lia Bool String Ascii List DecimalString.
From stdpp Require Import gmap strings list fin_maps sorting.

Local Open Scope Z_scope.

(* ===================================================================== *)
(** * Part I: the embedding                                               *)
(* ===================================================================== *)

(** ** decimal.js

    A [Decimal] is a finite number, an infinity or NaN.  Finite values are
    exact rationals: the library rounds to 20 significant digits, which this
    model idealises away, and negative zero is identified with zero.  The
    same type stands for the IEEE doubles of plain JavaScript arithmetic. *)

Module Decimal.

Inductive t : Type :=
| NaN
| Inf (negative : bool)
| Fin (q : Q).

Definition zero : t := Fin 0.
Definition of_Z (z : Z) : t := Fin (inject_Z z).

Definition Qneg_b (q : Q) : bool :=
  match (q ?= 0)%Q with Lt => true | _ => false end.

Definition Qzero_b (q : Q) : bool :=
  match (q ?= 0)%Q with Eq => true | _ => false end.

(** [x.cmp(y)]: NaN when either side is NaN. *)
Definition cmp (x y : t) : option comparison :=
  match x, y with
  | NaN, _ | _, NaN => None
  | Inf nx, Inf ny =>
      Some (if nx then (if ny then Eq else Lt) else (if ny then Gt else Eq))
  | Inf nx, Fin _ => Some (if nx then Lt else Gt)
  | Fin _, Inf ny => Some (if ny then Gt else Lt)
  | Fin a, Fin b => Some (a ?= b)%Q
  end.

Definition lessThan (x y : t) : bool :=
  match cmp x y with Some Lt => true | _ => false end.

Definition greaterThan (x y : t) : bool :=
  match cmp x y with Some Gt => true | _ => false end.

Definition gte (x y : t) : bool :=
  match cmp x y with Some Gt | Some Eq => true | _ => false end.

Definition lte (x y : t) : bool :=
  match cmp x y with Some Lt | Some Eq => true | _ => false end.

Definition equals (x y : t) : bool :=
  match cmp x y with Some Eq => true | _ => false end.

Definition neg (x : t) : t :=
  match x with
  | NaN => NaN
  | Inf n => Inf (negb n)
  | Fin q => Fin (- q)
  end.

Definition plus (x y : t) : t :=
  match x, y with
  | NaN, _ | _, NaN => NaN
  | Inf a, Inf b => if Bool.eqb a b then Inf a else NaN
  | Inf a, Fin _ => Inf a
  | Fin _, Inf b => Inf b
  | Fin a, Fin b => Fin (a + b)
  end.

Definition minus (x y : t) : t := plus x (neg y).

Definition mul (x y : t) : t :=
  match x, y with
  | NaN, _ | _, NaN => NaN
  | Inf a, Inf b => Inf (xorb a b)
  | Inf a, Fin q | Fin q, Inf a =>
      if Qzero_b q then NaN else Inf (xorb a (Qneg_b q))
  | Fin a, Fin b => Fin (a * b)
  end.

Definition div (x y : t) : t :=
  match x, y with
  | NaN, _ | _, NaN => NaN
  | Inf _, Inf _ => NaN
  | Inf a, Fin q => Inf (xorb a (Qneg_b q))
  | Fin _, Inf _ => Fin 0
  | Fin a, Fin b =>
      if Qzero_b b then (if Qzero_b a then NaN else Inf (Qneg_b a))
      else Fin (a / b)
  end.

Definition abs (x : t) : t :=
  match x with
  | NaN => NaN
  | Inf _ => Inf false
  | Fin q => Fin (Qabs q)
  end.

Definition isFinite (x : t) : bool :=
  match x with Fin _ => true | _ => false end.

Definition isZero (x : t) : bool :=
  match x with Fin q => Qzero_b q | _ => false end.

(** [isPositive] reads the sign field: it holds of zero and of +Infinity
    and fails for NaN. *)
Definition isPositive (x : t) : bool :=
  match x with
  | NaN => false
  | Inf n => negb n
  | Fin q => negb (Qneg_b q)
  end.

Definition isNaN (x : t) : bool :=
  match x with NaN => true | _ => false end.

(** [Decimal.max(x, y)] and [Decimal.min(x, y)]: NaN when an argument is. *)
Definition max (x y : t) : t :=
  if isNaN y then y else if lessThan x y then y else x.

Definition min (x y : t) : t :=
  if isNaN y then y else if greaterThan x y then y else x.

(** Truthiness of a JavaScript number, as in [v || 0] and [!v]. *)
Definition truthy (x : t) : bool :=
  match x with
  | NaN => false
  | Inf _ => true
  | Fin q => negb (Qzero_b q)
  end.

End Decimal.

(** ** [CircuitBreaker] (unnamed/part_002, utils/circuit-breaker.js) *)

Module CircuitBreaker.

Inductive State : Type := Closed | Open | HalfOpen.

Definition State_eqb (a b : State) : bool :=
  match a, b with
  | Closed, Closed | Open, Open | HalfOpen, HalfOpen => true
  | _, _ => false
  end.

Record Monitor : Type := mkMonitor {
  failures : Z;
  state : State;
  lastFailure : Z;
  consecutiveSuccesses : Z
}.

(** The payloads of [this.emit('open' | 'half-open' | 'closed', ...)]. *)
Inductive Event : Type :=
| EvOpen (name : string) (previousState : State) (failures : Z) (timestamp : Z)
| EvHalfOpen (name : string) (previousState : State) (timestamp : Z)
| EvClosed (name : string) (previousState : State) (timestamp : Z).

Record Options : Type := mkOptions {
  opt_failureThreshold : option Z;
  opt_resetTimeout : option Z;
  opt_halfOpenTimeout : option Z
}.

Record t : Type := mkBreaker {
  failureThreshold : Z;
  resetTimeout : Z;
  halfOpenTimeout : Z;
  monitors : gmap string Monitor;
  lastStateChange : gmap string Z;
  emitted : list Event
}.

(** [o || d] for an optional number. *)
Definition or_default (o : option Z) (d : Z) : Z :=
  match o with
  | Some v => if v =? 0 then d else v
  | None => d
  end.

Definition new (options : Options) : t :=
  {| failureThreshold := or_default (opt_failureThreshold options) 5;
     resetTimeout := or_default (opt_resetTimeout options) 60000;
     halfOpenTimeout := or_default (opt_halfOpenTimeout options) 30000;
     monitors := ∅;
     lastStateChange := ∅;
     emitted := [] |}.

Definition no_options : Options := mkOptions None None None.

Definition with_monitors (ms : gmap string Monitor) (cb : t) : t :=
  {| failureThreshold := failureThreshold cb;
     resetTimeout := resetTimeout cb;
     halfOpenTimeout := halfOpenTimeout cb;
     monitors := ms;
     lastStateChange := lastStateChange cb;
     emitted := emitted cb |}.

Definition with_lastStateChange (l : gmap string Z) (cb : t) : t :=
  {| failureThreshold := failureThreshold cb;
     resetTimeout := resetTimeout cb;
     halfOpenTimeout := halfOpenTimeout cb;
     monitors := monitors cb;
     lastStateChange := l;
     emitted := emitted cb |}.

Definition emit (e : Event) (cb : t) : t :=
  {| failureThreshold := failureThreshold cb;
     resetTimeout := resetTimeout cb;
     halfOpenTimeout := halfOpenTimeout cb;
     monitors := monitors cb;
     lastStateChange := lastStateChange cb;
     emitted := emitted cb ++ [e] |}.

Definition fresh_monitor : Monitor :=
  {| failures := 0; state := Closed; lastFailure := 0; consecutiveSuccesses := 0 |}.

(** [_getMonitor] creates the monitor on first use.  The caller mutates the
    returned object; [put] is that write through the shared reference. *)
Definition _getMonitor (name : string) (cb : t) : Monitor * t :=
  match monitors cb !! name with
  | Some m => (m, cb)
  | None => (fresh_monitor, with_monitors (<[name := fresh_monitor]> (monitors cb)) cb)
  end.

Definition put (name : string) (m : Monitor) (cb : t) : t :=
  with_monitors (<[name := m]> (monitors cb)) cb.

Definition _transitionToOpen (name : string) (now : Z) (cb : t) : t :=
  let '(monitor, cb) := _getMonitor name cb in
  let previousState := state monitor in
  let monitor := mkMonitor (failures monitor) Open (lastFailure monitor)
                           (consecutiveSuccesses monitor) in
  let cb := put name monitor cb in
  let cb := with_lastStateChange (<[name := now]> (lastStateChange cb)) cb in
  emit (EvOpen name previousState (failures monitor) now) cb.

Definition _transitionToHalfOpen (name : string) (now : Z) (cb : t) : t :=
  let '(monitor, cb) := _getMonitor name cb in
  let previousState := state monitor in
  let monitor := mkMonitor (failures monitor) HalfOpen (lastFailure monitor) 0 in
  let cb := put name monitor cb in
  let cb := with_lastStateChange (<[name := now]> (lastStateChange cb)) cb in
  emit (EvHalfOpen name previousState now) cb.

Definition _transitionToClosed (name : string) (now : Z) (cb : t) : t :=
  let '(monitor, cb) := _getMonitor name cb in
  let previousState := state monitor in
  let monitor := mkMonitor 0 Closed (lastFailure monitor) 0 in
  let cb := put name monitor cb in
  let cb := with_lastStateChange (<[name := now]> (lastStateChange cb)) cb in
  emit (EvClosed name previousState now) cb.

Definition isOpen (name : string) (now : Z) (cb : t) : bool * t :=
  let '(monitor, cb) := _getMonitor name cb in
  let timeSinceLastFailure := now - lastFailure monitor in
  if State_eqb (state monitor) Open && (timeSinceLastFailure <=? resetTimeout cb)
  then (true, cb)
  else if State_eqb (state monitor) Open && (resetTimeout cb <? timeSinceLastFailure)
  then (false, _transitionToHalfOpen name now cb)
  else (false, cb).

Definition onSuccess (name : string) (now : Z) (cb : t) : t :=
  let '(monitor, cb) := _getMonitor name cb in
  let monitor := mkMonitor 0 (state monitor) (lastFailure monitor)
                           (consecutiveSuccesses monitor) in
  let cb := put name monitor cb in
  if State_eqb (state monitor) HalfOpen
  then _transitionToClosed name now cb
  else cb.

Definition onError (name : string) (now : Z) (cb : t) : t :=
  let '(monitor, cb) := _getMonitor name cb in
  let monitor := mkMonitor (failures monitor + 1) (state monitor) now
                           (consecutiveSuccesses monitor) in
  let cb := put name monitor cb in
  if failureThreshold cb <=? failures monitor
  then _transitionToOpen name now cb
  else cb.

Definition reset (name : string) (now : Z) (cb : t) : t :=
  match monitors cb !! name with
  | Some _ => _transitionToClosed name now cb
  | None => cb
  end.

(** [resetAll] visits the keys of [monitors]; the keys are taken before the
    loop, in the order of the map's listing. *)
Definition resetAll (now : Z) (cb : t) : t :=
  fold_left (fun acc name => reset name now acc)
            (map fst (map_to_list (monitors cb))) cb.

(** The state [getStatus(name)] reports, without creating the monitor. *)
Definition stateOf (name : string) (cb : t) : State :=
  match monitors cb !! name with
  | Some m => state m
  | None => Closed
  end.

(** The public calls, and the breaker after a sequence of them. *)
Inductive Call : Type :=
| CallIsOpen (name : string) (now : Z)
| CallOnSuccess (name : string) (now : Z)
| CallOnError (name : string) (now : Z)
| CallReset (name : string) (now : Z)
| CallResetAll (now : Z).

Definition perform (c : Call) (cb : t) : t :=
  match c with
  | CallIsOpen name now => snd (isOpen name now cb)
  | CallOnSuccess name now => onSuccess name now cb
  | CallOnError name now => onError name now cb
  | CallReset name now => reset name now cb
  | CallResetAll now => resetAll now cb
  end.

(** The states one venue goes through: before the first call and after each. *)
Fixpoint history (name : string) (cb : t) (calls : list Call) : list State :=
  match calls with
  | [] => [stateOf name cb]
  | c :: rest => stateOf name cb :: history name (perform c cb) rest
  end.

(** The state changes of a history: runs of one state count once. *)
Fixpoint changes (h : list State) : list State :=
  match h with
  | [] => []
  | a :: rest =>
      match rest with
      | [] => [a]
      | b :: _ => if State_eqb a b then changes rest else a :: changes rest
      end
  end.

End CircuitBreaker.

(** ** JavaScript values that reach [new Decimal(v)]

    [new Decimal(v)] accepts a number or a numeric string and throws on
    anything else.  Which strings are numeric is decimal.js's business: the
    reader of strings is a parameter [parse] of every definition that builds
    a Decimal from an input. *)

Module Js.

Inductive value : Type :=
| Undefined
| Null
| Boolean (b : bool)
| Number (d : Decimal.t)
| String (s : string)
| Object.

Definition toDecimal (parse : string -> option Decimal.t) (v : value)
  : option Decimal.t :=
  match v with
  | Number d => Some d
  | String s => parse s
  | _ => None
  end.

(** [toLowerCase] and [toUpperCase], on ASCII letters. *)
Definition lower_ascii (c : ascii) : ascii :=
  let n := nat_of_ascii c in
  if ((65 <=? n) && (n <=? 90))%nat then ascii_of_nat (n + 32) else c.

Definition upper_ascii (c : ascii) : ascii :=
  let n := nat_of_ascii c in
  if ((97 <=? n) && (n <=? 122))%nat then ascii_of_nat (n - 32) else c.

Fixpoint map_string (f : ascii -> ascii) (s : string) : string :=
  match s with
  | EmptyString => EmptyString
  | String.String c rest => String.String (f c) (map_string f rest)
  end.

Definition toLowerCase : string -> string := map_string lower_ascii.
Definition toUpperCase : string -> string := map_string upper_ascii.

(** [s.split('_')]. *)
Fixpoint split_underscore_aux (s : string) (current : string) : list string :=
  match s with
  | EmptyString => [current]
  | String.String c rest =>
      if Ascii.eqb c "_"
      then current :: split_underscore_aux rest EmptyString
      else split_underscore_aux rest (current ++ String.String c EmptyString)
  end.

Definition split_underscore (s : string) : list string :=
  split_underscore_aux s EmptyString.

End Js.

(** ** [BalanceManager] (unnamed/part_007) *)

Module BalanceManager.

(** The value of a [reservedBalances] entry: [{ amount, timestamp }]. *)
Record Reserve : Type := mkReserve {
  amount : Decimal.t;
  timestamp : Z
}.

Inductive Event : Type :=
| BalanceUpdated (exchange currency : string) (amount available : Decimal.t)
| BalanceReserved (exchange currency : string) (amount : Decimal.t)
                  (orderId : string) (remainingAvailable : Decimal.t)
| BalanceReleased (exchange currency : string) (amount : Decimal.t)
                  (orderId : string) (availableAfterRelease : Decimal.t)
| ReserveTimeout (exchange currency orderId : string) (amount : Decimal.t).

(** A pending [setTimeout] of [_setReserveTimeout]: when it is due and the
    arguments its callback closes over. *)
Record Timer : Type := mkTimer {
  due : Z;
  timer_exchange : string;
  timer_currency : string;
  timer_orderId : string
}.

(** Balances are kept as the strings [toString()] prints and read back with
    [new Decimal]; the model keeps the Decimal itself. *)
Record t : Type := mkManager {
  balances : gmap string Decimal.t;
  reservedBalances : gmap string Reserve;
  reserveTimeoutMs : Z;
  timers : list Timer;
  emitted : list Event
}.

Definition new (reserveTimeoutMs_opt : option Z) : t :=
  {| balances := ∅;
     reservedBalances := ∅;
     reserveTimeoutMs :=
       match reserveTimeoutMs_opt with
       | Some v => if v =? 0 then 30000 else v
       | None => 30000
       end;
     timers := [];
     emitted := [] |}.

Definition with_balances (b : gmap string Decimal.t) (st : t) : t :=
  mkManager b (reservedBalances st) (reserveTimeoutMs st) (timers st) (emitted st).

Definition with_reserved (r : gmap string Reserve) (st : t) : t :=
  mkManager (balances st) r (reserveTimeoutMs st) (timers st) (emitted st).

Definition with_timers (ts : list Timer) (st : t) : t :=
  mkManager (balances st) (reservedBalances st) (reserveTimeoutMs st) ts (emitted st).

Definition emit (e : Event) (st : t) : t :=
  mkManager (balances st) (reservedBalances st) (reserveTimeoutMs st) (timers st)
            (emitted st ++ [e]).

Definition _getKey (exchange currency : string) : string :=
  (Js.toLowerCase exchange ++ "_" ++ Js.toUpperCase currency)%string.

Definition reserveKeyOf (exchange currency orderId : string) : string :=
  (_getKey exchange currency ++ "_" ++ orderId)%string.

Definition getBalance (st : t) (exchange currency : string) : Decimal.t :=
  match balances st !! _getKey exchange currency with
  | Some b => b
  | None => Decimal.zero
  end.

Definition getReservedBalance (st : t) (exchange currency : string) : Decimal.t :=
  let key := _getKey exchange currency in
  map_fold (fun reserveKey r total =>
              if String.prefix key reserveKey
              then Decimal.plus total (amount r)
              else total)
           Decimal.zero (reservedBalances st).

Definition getAvailableBalance (st : t) (exchange currency : string) : Decimal.t :=
  let totalBalance := getBalance st exchange currency in
  let reserved := getReservedBalance st exchange currency in
  Decimal.max (Decimal.minus totalBalance reserved) Decimal.zero.

(** An entry of [getReservedBalances()]: the reserve key split at the
    underscores, with the amount. *)
Record ReserveInfo : Type := mkReserveInfo {
  info_exchange : option string;
  info_currency : option string;
  info_orderId : option string;
  info_amount : Decimal.t;
  info_timestamp : Z
}.

Definition getReservedBalances (st : t) (exchange : option string)
  : list ReserveInfo :=
  omap (fun '(key, r) =>
          let parts := Js.split_underscore key in
          let reserveExchange := parts !! 0%nat in
          let keep :=
            match exchange with
            | None => true
            | Some e => if decide (e = ""%string) then true
                        else bool_decide (reserveExchange = Some e)
            end in
          if keep
          then Some (mkReserveInfo reserveExchange (parts !! 1%nat) (parts !! 2%nat)
                                   (amount r) (timestamp r))
          else None)
       (map_to_list (reservedBalances st)).

Section WithParser.

Variable parse : string -> option Decimal.t.

Definition updateBalance (exchange currency : string) (amount : Js.value) (st : t)
  : bool * t :=
  let key := _getKey exchange currency in
  match Js.toDecimal parse amount with
  | None => (false, st)
  | Some newBalance =>
      if Decimal.lessThan newBalance Decimal.zero then (false, st)
      else
        let st := with_balances (<[key := newBalance]> (balances st)) st in
        let st := emit (BalanceUpdated exchange currency newBalance
                          (getAvailableBalance st exchange currency)) st in
        (true, st)
  end.

Definition _setReserveTimeout (exchange currency orderId : string) (now : Z) (st : t)
  : t :=
  with_timers (timers st ++ [mkTimer (now + reserveTimeoutMs st) exchange currency orderId]) st.

Definition reserveBalance (exchange currency : string) (amount : Js.value)
  (orderId : string) (now : Z) (st : t) : bool * t :=
  let reserveKey := reserveKeyOf exchange currency orderId in
  match Js.toDecimal parse amount with
  | None => (false, st)
  | Some reserveAmount =>
      let available := getAvailableBalance st exchange currency in
      if Decimal.lessThan available reserveAmount then (false, st)
      else
        let st := with_reserved
                    (<[reserveKey := mkReserve reserveAmount now]> (reservedBalances st))
                    st in
        let st := _setReserveTimeout exchange currency orderId now st in
        let st := emit (BalanceReserved exchange currency reserveAmount orderId
                          (getAvailableBalance st exchange currency)) st in
        (true, st)
  end.

End WithParser.

Definition releaseBalance (exchange currency orderId : string) (st : t) : bool * t :=
  let reserveKey := reserveKeyOf exchange currency orderId in
  match reservedBalances st !! reserveKey with
  | None => (false, st)
  | Some r =>
      let st := with_reserved (delete reserveKey (reservedBalances st)) st in
      let st := emit (BalanceReleased exchange currency (amount r) orderId
                        (getAvailableBalance st exchange currency)) st in
      (true, st)
  end.

(** The callback of [_setReserveTimeout]. *)
Definition reserveTimeoutElapsed (exchange currency orderId : string) (st : t) : t :=
  let reserveKey := reserveKeyOf exchange currency orderId in
  match reservedBalances st !! reserveKey with
  | None => st
  | Some r =>
      let st := with_reserved (delete reserveKey (reservedBalances st)) st in
      emit (ReserveTimeout exchange currency orderId (amount r)) st
  end.

(** The event loop at time [now]: every timer that is due runs its callback,
    in the order the timers were set. *)
Definition runTimers (now : Z) (st : t) : t :=
  let '(ready, waiting) := List.partition (fun tm => due tm <=? now) (timers st) in
  fold_left (fun acc tm =>
               reserveTimeoutElapsed (timer_exchange tm) (timer_currency tm)
                                     (timer_orderId tm) acc)
            ready (with_timers waiting st).

End BalanceManager.

(** ** [PriceValidator] (src/utils/price-validator.js) *)

Module PriceValidator.

(** The effective [this.config].  The constructor writes
    [{ minPrice: config.minPrice || 0.00001, ..., ...config }]: the spread
    comes last, so a property the caller's object has wins whatever its
    value, and the default is used for a property it lacks.  Durations are
    whole milliseconds. *)
Record Config : Type := mkConfig {
  maxPriceDeviation : Decimal.t;
  minValidSources : Z;
  priceValidityMs : Z;
  maxStalePrice : Z;
  minPrice : Decimal.t;
  maxPrice : Decimal.t
}.

(** The caller's [config] argument: [None] is a property it lacks. *)
Record UserConfig : Type := mkUserConfig {
  user_maxPriceDeviation : option Decimal.t;
  user_minValidSources : option Z;
  user_priceValidityMs : option Z;
  user_maxStalePrice : option Z;
  user_minPrice : option Decimal.t;
  user_maxPrice : option Decimal.t
}.

Definition no_config : UserConfig := mkUserConfig None None None None None None.

Definition makeConfig (config : UserConfig) : Config :=
  {| maxPriceDeviation := default (Decimal.Fin (1 # 10)) (user_maxPriceDeviation config);
     minValidSources := default 2 (user_minValidSources config);
     priceValidityMs := default 30000 (user_priceValidityMs config);
     maxStalePrice := default 300000 (user_maxStalePrice config);
     minPrice := default (Decimal.Fin (1 # 100000)) (user_minPrice config);
     maxPrice := default (Decimal.Fin 1000000) (user_maxPrice config) |}.

(** An entry of a venue's price history: [{ price, timestamp }]. *)
Record Entry : Type := mkEntry {
  entry_price : Js.value;
  entry_timestamp : Z
}.

(** The second argument of [validatePrice], an object whose properties may
    be missing.  The argument itself is [Some] object; [None] stands for a
    [null] argument (an omitted one defaults to the empty object). *)
Record Context : Type := mkContext {
  recentPrices : option (list Js.value);
  timestamp : option Z;
  exchange : option string
}.

Definition empty_context : Context := mkContext None None None.

Section WithParser.

Variable parse : string -> option Decimal.t.
Variable config : Config.

Definition _isValidNumber (price : Js.value) : bool :=
  match Js.toDecimal parse price with
  | Some decimal => Decimal.isPositive decimal && Decimal.isFinite decimal
  | None => false
  end.

Definition _isWithinRange (price : Js.value) : option bool :=
  match Js.toDecimal parse price with
  | Some priceDecimal =>
      Some (Decimal.gte priceDecimal (minPrice config) &&
            Decimal.lte priceDecimal (maxPrice config))
  | None => None
  end.

Definition _calculateAverage (prices : list Js.value) : option Decimal.t :=
  match prices with
  | [] => Some Decimal.zero
  | _ =>
      match
        fold_left (fun sum price =>
                     match sum, Js.toDecimal parse price with
                     | Some s, Some d => Some (Decimal.plus s d)
                     | _, _ => None
                     end)
                  prices (Some Decimal.zero)
      with
      | Some sum => Some (Decimal.div sum (Decimal.of_Z (Z.of_nat (length prices))))
      | None => None
      end
  end.

Definition _isWithinDeviation (price : Js.value) (recent : option (list Js.value))
  : option bool :=
  let recentPrices := default [] recent in
  match recentPrices with
  | [] => Some true
  | _ =>
      match Js.toDecimal parse price, _calculateAverage recentPrices with
      | Some priceDecimal, Some average =>
          let deviation :=
            Decimal.div (Decimal.abs (Decimal.minus priceDecimal average)) average in
          Some (Decimal.lte deviation (maxPriceDeviation config))
      | _, _ => None
      end
  end.

Definition _isPriceFresh (now : Z) (timestamp : Z) : bool :=
  now - timestamp <? maxStalePrice config.

Definition _updatePriceHistory (now : Z) (exchange : option string) (price : Js.value)
  (priceHistory : gmap string (list Entry)) : gmap string (list Entry) :=
  match exchange with
  | None => priceHistory
  | Some ""%string => priceHistory
  | Some exchange =>
      let history := default [] (priceHistory !! exchange) in
      let history := history ++ [mkEntry price now] in
      let cutoff := now - priceValidityMs config in
      <[exchange := filter (fun entry => cutoff < entry_timestamp entry) history]>
        priceHistory
  end.

(** The body of the [try] block: [None] when a statement throws. *)
Definition validatePrice_try (now : Z) (price : Js.value) (context : option Context)
  (priceHistory : gmap string (list Entry))
  : option (bool * gmap string (list Entry)) :=
  if negb (_isValidNumber price) then Some (false, priceHistory)
  else
    match _isWithinRange price with
    | None => None
    | Some false => Some (false, priceHistory)
    | Some true =>
        match context with
        | None => None
        | Some context =>
            match _isWithinDeviation price (recentPrices context) with
            | None => None
            | Some false => Some (false, priceHistory)
            | Some true =>
                match timestamp context with
                | Some ts =>
                    if negb (ts =? 0) && negb (_isPriceFresh now ts)
                    then Some (false, priceHistory)
                    else Some (true, _updatePriceHistory now (exchange context) price
                                       priceHistory)
                | None =>
                    Some (true, _updatePriceHistory now (exchange context) price
                                  priceHistory)
                end
            end
        end
    end.

(** [validatePrice]: the [catch] turns every exception into [false]. *)
Definition validatePrice (now : Z) (price : Js.value) (context : option Context)
  (priceHistory : gmap string (list Entry))
  : bool * gmap string (list Entry) :=
  match validatePrice_try now price context priceHistory with
  | Some result => result
  | None => (false, priceHistory)
  end.

(** [history.slice(-count)]: the last [count] entries, and the whole
    history when [count] is 0, since [-0] is 0. *)
Definition getRecentPrices (priceHistory : gmap string (list Entry))
  (exchange : string) (count : nat) : list Js.value :=
  let history := default [] (priceHistory !! exchange) in
  map entry_price
      (match count with
       | O => history
       | _ => skipn (length history - count) history
       end).

(** [clearHistory(exchange)]: every venue when the argument is falsy. *)
Definition clearHistory (exchange : option string)
  (priceHistory : gmap string (list Entry)) : gmap string (list Entry) :=
  match exchange with
  | None => ∅
  | Some ""%string => ∅
  | Some exchange => delete exchange priceHistory
  end.

End WithParser.

End PriceValidator.

(** ** [ExchangeHealthMonitor] (src/utils/price-validator.js, second class) *)

Module ExchangeHealthMonitor.

Inductive State : Type := healthy | degraded.

Definition State_eqb (a b : State) : bool :=
  match a, b with
  | healthy, healthy | degraded, degraded => true
  | _, _ => false
  end.

(** A value of the [health] map.  [responseTime] is created empty and never
    written; it is left out. *)
Record Status : Type := mkStatus {
  state : State;
  successCount : Z;
  errorCount : Z;
  lastSuccess : option Z;
  lastError : option Js.value;
  lastErrorTime : option Z
}.

(** A value of the [metrics] map as [_updateMetrics] leaves it; the rates
    are plain JavaScript numbers. *)
Record Metrics : Type := mkMetrics {
  totalRequests : Z;
  metrics_successCount : Z;
  metrics_errorCount : Z;
  successRate : Decimal.t;
  errorRate : Decimal.t
}.

(** The payload of [this.emit('stateChange', ...)]. *)
Inductive Event : Type :=
| StateChange (exchange : string) (oldState newState : State) (timestamp : Z).

(** The second argument of [_updateMetrics]: ['success'] or anything else. *)
Inductive RequestType : Type := success | error.

Record t : Type := mkHealthMonitor {
  health : gmap string Status;
  metrics : gmap string Metrics;
  emitted : list Event
}.

Definition errorThreshold : Z := 5.
Definition recoveryThreshold : Z := 3.

Definition new : t := mkHealthMonitor ∅ ∅ [].

Definition fresh_status : Status := mkStatus healthy 0 0 None None None.

(** [_getStatus] creates the status on first use; the callers mutate the
    returned object, which [put] writes back. *)
Definition _getStatus (exchange : string) (hm : t) : Status * t :=
  match health hm !! exchange with
  | Some status => (status, hm)
  | None =>
      (fresh_status,
       mkHealthMonitor (<[exchange := fresh_status]> (health hm)) (metrics hm) (emitted hm))
  end.

Definition put (exchange : string) (status : Status) (hm : t) : t :=
  mkHealthMonitor (<[exchange := status]> (health hm)) (metrics hm) (emitted hm).

Definition emit (e : Event) (hm : t) : t :=
  mkHealthMonitor (health hm) (metrics hm) (emitted hm ++ [e]).

Definition _updateState (exchange : string) (newState : State) (now : Z) (hm : t) : t :=
  let '(status, hm) := _getStatus exchange hm in
  let oldState := state status in
  let status := mkStatus newState (successCount status) (errorCount status)
                         (lastSuccess status) (lastError status) (lastErrorTime status) in
  let hm := put exchange status hm in
  if State_eqb oldState newState then hm
  else emit (StateChange exchange oldState newState now) hm.

Definition _updateMetrics (exchange : string) (type : RequestType) (hm : t) : t :=
  let '(total, successes, errors) :=
    match metrics hm !! exchange with
    | Some m => (totalRequests m, metrics_successCount m, metrics_errorCount m)
    | None => (0, 0, 0)
    end in
  let total := total + 1 in
  let successes := match type with success => successes + 1 | error => successes end in
  let errors := match type with success => errors | error => errors + 1 end in
  let rate (count : Z) :=
    Decimal.mul (Decimal.div (Decimal.of_Z count) (Decimal.of_Z total))
                (Decimal.of_Z 100) in
  mkHealthMonitor (health hm)
    (<[exchange := mkMetrics total successes errors (rate successes) (rate errors)]>
       (metrics hm))
    (emitted hm).

Definition recordSuccess (exchange : string) (now : Z) (hm : t) : t :=
  let '(status, hm) := _getStatus exchange hm in
  let status := mkStatus (state status) (successCount status + 1) 0 (Some now)
                         (lastError status) (lastErrorTime status) in
  let hm := put exchange status hm in
  let hm :=
    if State_eqb (state status) degraded && (recoveryThreshold <=? successCount status)
    then _updateState exchange healthy now hm
    else hm in
  _updateMetrics exchange success hm.

Definition recordError (exchange : string) (err : Js.value) (now : Z) (hm : t) : t :=
  let '(status, hm) := _getStatus exchange hm in
  let status := mkStatus (state status) (successCount status) (errorCount status + 1)
                         (lastSuccess status) (Some err) (Some now) in
  let hm := put exchange status hm in
  let hm :=
    if errorThreshold <=? errorCount status
    then _updateState exchange degraded now hm
    else hm in
  _updateMetrics exchange error hm.

Definition isHealthy (exchange : string) (hm : t) : bool * t :=
  let '(status, hm) := _getStatus exchange hm in
  (State_eqb (state status) healthy, hm).

Definition getStatus (exchange : string) (hm : t) : Status * t :=
  _getStatus exchange hm.

(** The calls that record an outcome, and the monitor after a sequence of
    them. *)
Inductive Call : Type :=
| CallRecordSuccess (exchange : string) (now : Z)
| CallRecordError (exchange : string) (err : Js.value) (now : Z).

Definition perform (c : Call) (hm : t) : t :=
  match c with
  | CallRecordSuccess exchange now => recordSuccess exchange now hm
  | CallRecordError exchange err now => recordError exchange err now hm
  end.

Definition run (calls : list Call) (hm : t) : t :=
  fold_left (fun hm c => perform c hm) calls hm.

End ExchangeHealthMonitor.

(** ** [ArbitrageDetector] (src/arbitrage/opportunityValidator.js) *)

Module ArbitrageDetector.

(** The effective [this.config] (defaults, then the caller's properties). *)
Record Config : Type := mkConfig {
  minSpreadPercent : Decimal.t;
  minVolumeUSD : Decimal.t;
  maxSlippage : Decimal.t;
  minProfitUSD : Decimal.t
}.

Record UserConfig : Type := mkUserConfig {
  user_minSpreadPercent : option Decimal.t;
  user_minVolumeUSD : option Decimal.t;
  user_maxSlippage : option Decimal.t;
  user_minProfitUSD : option Decimal.t
}.

Definition no_config : UserConfig := mkUserConfig None None None None.

Definition makeConfig (config : UserConfig) : Config :=
  {| minSpreadPercent := default (Decimal.Fin (5 # 10)) (user_minSpreadPercent config);
     minVolumeUSD := default (Decimal.Fin 1000) (user_minVolumeUSD config);
     maxSlippage := default (Decimal.Fin (3 # 10)) (user_maxSlippage config);
     minProfitUSD := default (Decimal.Fin 1) (user_minProfitUSD config) |}.

(** A value of the [prices] map: one venue's latest price. *)
Record Price : Type := mkPrice {
  exchange : string;
  price : Js.value;
  volume : Js.value;
  timestamp : Z
}.

Record Opportunity : Type := mkOpportunity {
  buyExchange : string;
  sellExchange : string;
  buyPrice : Js.value;
  sellPrice : Js.value;
  spread : Decimal.t;
  opp_volume : Decimal.t;
  profit : Decimal.t;
  opp_timestamp : Z
}.

(** Truthiness, for [v || 0]. *)
Definition truthy (v : Js.value) : bool :=
  match v with
  | Js.Undefined | Js.Null => false
  | Js.Boolean b => b
  | Js.Number d => Decimal.truthy d
  | Js.String s => negb (String.eqb s "")
  | Js.Object => true
  end.

Definition or_zero (v : Js.value) : Js.value :=
  if truthy v then v else Js.Number Decimal.zero.

Section WithParser.

Variable parse : string -> option Decimal.t.
Variable config : Config.

Definition _validatePrices (now : Z) (buyPrice sellPrice : option Price) : bool :=
  match buyPrice, sellPrice with
  | Some buyPrice, Some sellPrice =>
      let maxAge := 5000 in
      negb ((maxAge <? now - timestamp buyPrice) || (maxAge <? now - timestamp sellPrice))
  | _, _ => false
  end.

(** [new Decimal(sellPrice).minus(buyPrice).div(buyPrice).mul(100)] *)
Definition _calculateSpread (buyPrice sellPrice : Js.value) : option Decimal.t :=
  match Js.toDecimal parse sellPrice, Js.toDecimal parse buyPrice with
  | Some sell, Some buy =>
      Some (Decimal.mul (Decimal.div (Decimal.minus sell buy) buy) (Decimal.of_Z 100))
  | _, _ => None
  end.

Definition _calculateProfit (buyPrice sellPrice : Js.value) (volume : Decimal.t)
  : option Decimal.t :=
  match Js.toDecimal parse buyPrice, Js.toDecimal parse sellPrice with
  | Some buy, Some sell =>
      let cost := Decimal.mul buy volume in
      let revenue := Decimal.mul sell volume in
      let totalFees := Decimal.mul cost (Decimal.Fin (2 # 1000)) in
      let slippage :=
        Decimal.mul cost (Decimal.div (maxSlippage config) (Decimal.of_Z 100)) in
      Some (Decimal.minus (Decimal.minus (Decimal.minus revenue cost) totalFees) slippage)
  | _, _ => None
  end.

(** [_checkPair]: the outer [option] is an exception, the inner one the
    [null] of a rejected pair. *)
Definition _checkPair (now : Z) (buyPrice sellPrice : option Price)
  : option (option Opportunity) :=
  if negb (_validatePrices now buyPrice sellPrice) then Some None
  else
    match buyPrice, sellPrice with
    | Some buyPrice, Some sellPrice =>
        match _calculateSpread (price buyPrice) (price sellPrice) with
        | None => None
        | Some spread =>
            if Decimal.lessThan spread
                 (Decimal.div (minSpreadPercent config) (Decimal.of_Z 100))
            then Some None
            else
              match Js.toDecimal parse (or_zero (volume buyPrice)),
                    Js.toDecimal parse (or_zero (volume sellPrice)) with
              | Some vb, Some vs =>
                  let volume := Decimal.min vb vs in
                  if Decimal.lessThan volume (minVolumeUSD config) then Some None
                  else
                    match _calculateProfit (price buyPrice) (price sellPrice) volume with
                    | None => None
                    | Some profit =>
                        if Decimal.lessThan profit (minProfitUSD config) then Some None
                        else Some (Some
                               {| buyExchange := exchange buyPrice;
                                  sellExchange := exchange sellPrice;
                                  buyPrice := price buyPrice;
                                  sellPrice := price sellPrice;
                                  spread := spread;
                                  opp_volume := volume;
                                  profit := profit;
                                  opp_timestamp := now |})
                    end
              | _, _ => None
              end
        end
    | _, _ => Some None
    end.

(** [prices] is a [Map] whose iteration order shapes the result: it is a
    list of bindings in insertion order, with one binding per key. *)
Definition get (prices : list (string * Price)) (key : string) : option Price :=
  snd <$> List.find (fun kv => String.eqb (fst kv) key) prices.

Definition _getUniqueExchanges (prices : list (string * Price)) : list string :=
  remove_dups (map fst prices).

(** [sort] with the comparator [new Decimal(b.profit).minus(a.profit)]: a
    stable sort, [b] moving ahead of [a] when the difference is positive. *)
Definition moves_ahead (a b : Opportunity) : bool :=
  Decimal.greaterThan (profit b) (profit a).

Fixpoint insert_sorted (x : Opportunity) (sorted : list Opportunity) : list Opportunity :=
  match sorted with
  | [] => [x]
  | y :: rest => if moves_ahead y x then x :: y :: rest else y :: insert_sorted x rest
  end.

Definition sort_by_profit (l : list Opportunity) : list Opportunity :=
  fold_left (fun sorted x => insert_sorted x sorted) l [].

Definition _filterBestOpportunities (opportunities : list Opportunity)
  : list Opportunity :=
  take 5 (sort_by_profit opportunities).

(** The two nested loops; [None] when a pair throws. *)
Fixpoint check_sells (now : Z) (prices : list (string * Price)) (buyExchange : string)
  (sells : list string) (opportunities : list Opportunity) : option (list Opportunity) :=
  match sells with
  | [] => Some opportunities
  | sellExchange :: rest =>
      if String.eqb buyExchange sellExchange
      then check_sells now prices buyExchange rest opportunities
      else
        match _checkPair now (get prices buyExchange) (get prices sellExchange) with
        | None => None
        | Some None => check_sells now prices buyExchange rest opportunities
        | Some (Some opportunity) =>
            check_sells now prices buyExchange rest (opportunities ++ [opportunity])
        end
  end.

Fixpoint check_buys (now : Z) (prices : list (string * Price)) (exchanges : list string)
  (buys : list string) (opportunities : list Opportunity) : option (list Opportunity) :=
  match buys with
  | [] => Some opportunities
  | buyExchange :: rest =>
      match check_sells now prices buyExchange exchanges opportunities with
      | None => None
      | Some opportunities => check_buys now prices exchanges rest opportunities
      end
  end.

(** [detectArbitrage]: the [catch] answers the empty list. *)
Definition detectArbitrage (now : Z) (prices : list (string * Price))
  : list Opportunity :=
  let exchanges := _getUniqueExchanges prices in
  match check_buys now prices exchanges exchanges [] with
  | Some opportunities => _filterBestOpportunities opportunities
  | None => []
  end.

End WithParser.

End ArbitrageDetector.

(** ** [OpportunityValidator] (src/arbitrage/opportunityValidator.js, first class) *)

Module OpportunityValidator.

Record Config : Type := mkConfig {
  maxAge : Z;
  minVolume : Decimal.t;
  maxSlippage : Decimal.t;
  minProfit : Decimal.t
}.

Record UserConfig : Type := mkUserConfig {
  user_maxAge : option Z;
  user_minVolume : option Decimal.t;
  user_maxSlippage : option Decimal.t;
  user_minProfit : option Decimal.t
}.

Definition no_config : UserConfig := mkUserConfig None None None None.

Definition makeConfig (config : UserConfig) : Config :=
  {| maxAge := default 5000 (user_maxAge config);
     minVolume := default (Decimal.Fin 1000) (user_minVolume config);
     maxSlippage := default (Decimal.Fin (3 # 10)) (user_maxSlippage config);
     minProfit := default (Decimal.Fin 1) (user_minProfit config) |}.

(** The properties of an opportunity that the checks read. *)
Record Opportunity : Type := mkOpportunity {
  timestamp : Z;
  volume : Js.value;
  buyPrice : Js.value;
  sellPrice : Js.value;
  profit : Js.value
}.

(** [marketData.depth] and [marketData.currentPrices]: [{ buy, sell }]. *)
Record Sides : Type := mkSides {
  side_buy : Js.value;
  side_sell : Js.value
}.

(** The second argument; [None] is a missing (or falsy) object or property. *)
Record MarketData : Type := mkMarketData {
  depth : option Sides;
  currentPrices : option Sides
}.

(** What a check returns: [{ isValid: true }] or [{ isValid: false, reason }]. *)
Inductive Check : Type :=
| Valid
| Invalid (reason : string).

Definition check_isValid (c : Check) : bool :=
  match c with Valid => true | Invalid _ => false end.

(** An entry of [errors]: the reason of a failed check, or the message of
    the exception the [catch] caught. *)
Inductive Error : Type :=
| Reason (reason : string)
| Thrown.

(** [check.reason]; a check that passed has none, and none is ever asked
    for its reason. *)
Definition check_reason (c : Check) : Error :=
  match c with
  | Invalid reason => Reason reason
  | Valid => Reason ""
  end.

Record Result : Type := mkResult {
  isValid : bool;
  errors : list Error
}.

Section WithParser.

Variable parse : string -> option Decimal.t.
Variable config : Config.

Definition _validateTiming (now : Z) (opportunity : Opportunity) : Check :=
  let age := now - timestamp opportunity in
  if maxAge config <? age then Invalid "Opportunity too old" else Valid.

(** [None] when a [new Decimal] throws. *)
Definition _validateVolume (opportunity : Opportunity) (marketData : option MarketData)
  : option Check :=
  match Js.toDecimal parse (volume opportunity) with
  | None => None
  | Some volume =>
      if Decimal.lessThan volume (minVolume config)
      then Some (Invalid "Insufficient volume")
      else
        match marketData ≫= depth with
        | None => Some Valid
        | Some depth =>
            match Js.toDecimal parse (ArbitrageDetector.or_zero (side_buy depth)),
                  Js.toDecimal parse (ArbitrageDetector.or_zero (side_sell depth)) with
            | Some buyDepth, Some sellDepth =>
                if Decimal.greaterThan volume buyDepth
                   || Decimal.greaterThan volume sellDepth
                then Some (Invalid "Insufficient market depth")
                else Some Valid
            | _, _ => None
            end
        end
  end.

Definition _validatePrices (opportunity : Opportunity) (marketData : option MarketData)
  : option Check :=
  match marketData ≫= currentPrices with
  | None => Some Valid
  | Some current =>
      match Js.toDecimal parse (buyPrice opportunity),
            Js.toDecimal parse (sellPrice opportunity),
            Js.toDecimal parse (side_buy current),
            Js.toDecimal parse (side_sell current) with
      | Some buyPrice, Some sellPrice, Some currentBuyPrice, Some currentSellPrice =>
          let buySlippage :=
            Decimal.abs (Decimal.div (Decimal.minus buyPrice currentBuyPrice)
                                     currentBuyPrice) in
          let sellSlippage :=
            Decimal.abs (Decimal.div (Decimal.minus sellPrice currentSellPrice)
                                     currentSellPrice) in
          if Decimal.greaterThan buySlippage (maxSlippage config)
             || Decimal.greaterThan sellSlippage (maxSlippage config)
          then Some (Invalid "Price slippage too high")
          else Some Valid
      | _, _, _, _ => None
      end
  end.

Definition _validateProfitability (opportunity : Opportunity) : option Check :=
  match Js.toDecimal parse (profit opportunity) with
  | None => None
  | Some profit =>
      if Decimal.lessThan profit (minProfit config)
      then Some (Invalid "Insufficient profit")
      else Some Valid
  end.

(** [validateOpportunity]: the four checks are all evaluated; an exception
    in one of them is the single error of the [catch]. *)
Definition validateOpportunity (now : Z) (opportunity : Opportunity)
  (marketData : option MarketData) : Result :=
  match _validateVolume opportunity marketData,
        _validatePrices opportunity marketData,
        _validateProfitability opportunity with
  | Some volumeCheck, Some pricesCheck, Some profitCheck =>
      let checks := [_validateTiming now opportunity; volumeCheck; pricesCheck;
                     profitCheck] in
      let failures := List.filter (fun check => negb (check_isValid check)) checks in
      {| isValid := (length failures =? 0)%nat;
         errors := map check_reason failures |}
  | _, _, _ => {| isValid := false; errors := [Thrown] |}
  end.

End WithParser.

End OpportunityValidator.

(** ** [MarketDepthAnalyzer] (src/arbitrage/marketDepthAnalyzer.js) *)

Module MarketDepthAnalyzer.

Record Config : Type := mkConfig {
  maxSlippage : Decimal.t;
  minLiquidity : Decimal.t;
  maxImpact : Decimal.t
}.

Record UserConfig : Type := mkUserConfig {
  user_maxSlippage : option Decimal.t;
  user_minLiquidity : option Decimal.t;
  user_maxImpact : option Decimal.t
}.

Definition no_config : UserConfig := mkUserConfig None None None.

Definition makeConfig (config : UserConfig) : Config :=
  {| maxSlippage := default (Decimal.Fin (3 # 1000)) (user_maxSlippage config);
     minLiquidity := default (Decimal.Fin 1000) (user_minLiquidity config);
     maxImpact := default (Decimal.Fin (1 # 10)) (user_maxImpact config) |}.

Inductive Side : Type := buy | sell.

(** One side of the book: the levels [[price, amount]], best first. *)
Definition Orders : Type := list (Js.value * Js.value).

Record OrderBook : Type := mkOrderBook {
  bids : Orders;
  asks : Orders
}.

(** The result of [_analyzeSide]; its fields are printed with [toString()]
    and read back by [_isExecutable], which the model elides. *)
Record SideAnalysis : Type := mkSideAnalysis {
  filledAmount : Decimal.t;
  remainingAmount : Decimal.t;
  averagePrice : Decimal.t;
  slippagePercent : Decimal.t;
  totalCost : Decimal.t
}.

Record Analysis : Type := mkAnalysis {
  buyAnalysis : SideAnalysis;
  sellAnalysis : SideAnalysis;
  analysis_timestamp : Z;
  isExecutable : bool
}.

(** The variables of the loop of [_analyzeSide]. *)
Record Walk : Type := mkWalk {
  walk_remainingAmount : Decimal.t;
  walk_totalCost : Decimal.t;
  walk_weightedPrice : Decimal.t;
  walk_filledAmount : Decimal.t
}.

Section WithParser.

Variable parse : string -> option Decimal.t.
Variable config : Config.

(** The loop over the levels, with its [break]; [None] when a level does
    not read as two Decimals. *)
Fixpoint walk (orders : Orders) (w : Walk) : option Walk :=
  match orders with
  | [] => Some w
  | (price, amount) :: rest =>
      match Js.toDecimal parse price, Js.toDecimal parse amount with
      | Some orderPrice, Some orderAmount =>
          let fillAmount := Decimal.min (walk_remainingAmount w) orderAmount in
          let orderCost := Decimal.mul fillAmount orderPrice in
          let w' :=
            {| walk_remainingAmount := Decimal.minus (walk_remainingAmount w) fillAmount;
               walk_totalCost := Decimal.plus (walk_totalCost w) orderCost;
               walk_weightedPrice :=
                 Decimal.plus (walk_weightedPrice w) (Decimal.mul orderPrice fillAmount);
               walk_filledAmount := Decimal.plus (walk_filledAmount w) fillAmount |} in
          if Decimal.isZero (walk_remainingAmount w') then Some w' else walk rest w'
      | _, _ => None
      end
  end.

Definition _analyzeSide (orders : Orders) (targetAmount : Js.value) (side : Side)
  : option SideAnalysis :=
  match Js.toDecimal parse targetAmount with
  | None => None
  | Some target =>
      match walk orders (mkWalk target Decimal.zero Decimal.zero Decimal.zero) with
      | None => None
      | Some w =>
          let weightedPrice :=
            if negb (Decimal.isZero (walk_filledAmount w))
            then Decimal.div (walk_weightedPrice w) (walk_filledAmount w)
            else walk_weightedPrice w in
          match orders with
          | [] => None
          | (price0, _) :: _ =>
              match Js.toDecimal parse price0 with
              | None => None
              | Some basePrice =>
                  let slippage :=
                    match side with
                    | buy => Decimal.div (Decimal.minus weightedPrice basePrice) basePrice
                    | sell => Decimal.div (Decimal.minus basePrice weightedPrice) basePrice
                    end in
                  Some {| filledAmount := walk_filledAmount w;
                          remainingAmount := walk_remainingAmount w;
                          averagePrice := weightedPrice;
                          slippagePercent := Decimal.mul slippage (Decimal.of_Z 100);
                          totalCost := walk_totalCost w |}
              end
          end
      end
  end.

Definition _isExecutable (buyAnalysis sellAnalysis : SideAnalysis)
  (targetAmount : Js.value) : option bool :=
  match Js.toDecimal parse targetAmount with
  | None => None
  | Some targetDecimal =>
      if Decimal.greaterThan (remainingAmount buyAnalysis) Decimal.zero
         || Decimal.greaterThan (remainingAmount sellAnalysis) Decimal.zero
      then Some false
      else if Decimal.greaterThan (slippagePercent buyAnalysis) (maxSlippage config)
              || Decimal.greaterThan (slippagePercent sellAnalysis) (maxSlippage config)
      then Some false
      else
        let buyImpact := Decimal.div (totalCost buyAnalysis) targetDecimal in
        let sellImpact := Decimal.div (totalCost sellAnalysis) targetDecimal in
        if Decimal.greaterThan buyImpact (maxImpact config)
           || Decimal.greaterThan sellImpact (maxImpact config)
        then Some false
        else Some true
  end.

(** [analyzeDepth]: [None] is the [null] the [catch] returns. *)
Definition analyzeDepth (now : Z) (orderbook : OrderBook) (targetAmount : Js.value)
  : option Analysis :=
  match _analyzeSide (bids orderbook) targetAmount buy,
        _analyzeSide (asks orderbook) targetAmount sell with
  | Some buyAnalysis, Some sellAnalysis =>
      match _isExecutable buyAnalysis sellAnalysis targetAmount with
      | Some executable =>
          Some {| buyAnalysis := buyAnalysis;
                  sellAnalysis := sellAnalysis;
                  analysis_timestamp := now;
                  isExecutable := executable |}
      | None => None
      end
  | _, _ => None
  end.

(** The test amounts of [calculateOptimalSize], in USD. *)
Definition sizes : list Z := [1000; 5000; 10000; 50000].

(** The loop of [calculateOptimalSize]: [results] maps each size whose
    analysis is executable to that analysis, in the order the sizes are
    tried. *)
Definition executable_results (now : Z) (orderbook : OrderBook)
  : list (Z * Analysis) :=
  omap (fun size =>
          match analyzeDepth now orderbook (Js.Number (Decimal.of_Z size)) with
          | Some analysis =>
              if isExecutable analysis then Some (size, analysis) else None
          | None => None
          end)
       sizes.

(** [sort((a, b) => b - a)] on numbers: largest first. *)
Fixpoint insert_descending (x : Z) (sorted : list Z) : list Z :=
  match sorted with
  | [] => [x]
  | y :: rest => if y <? x then x :: y :: rest else y :: insert_descending x rest
  end.

Definition sort_descending (l : list Z) : list Z :=
  fold_left (fun sorted x => insert_descending x sorted) l [].

(** [results.get(size)] *)
Definition results_get (results : list (Z * Analysis)) (size : Z) : option Analysis :=
  snd <$> List.find (fun kv => fst kv =? size) results.

(** The loop of [_findOptimalSize]; the outer [None] is the [TypeError] of
    reading a property of an analysis that [results] does not hold. *)
Fixpoint first_within_slippage (results : list (Z * Analysis)) (sortedSizes : list Z)
  : option (option (Z * Analysis)) :=
  match sortedSizes with
  | [] => Some None
  | size :: rest =>
      match results_get results size with
      | None => None
      | Some analysis =>
          let totalSlippage :=
            Decimal.plus (slippagePercent (buyAnalysis analysis))
                         (slippagePercent (sellAnalysis analysis)) in
          if Decimal.lte totalSlippage (Decimal.mul (maxSlippage config) (Decimal.of_Z 2))
          then Some (Some (size, analysis))
          else first_within_slippage results rest
      end
  end.

Definition _findOptimalSize (results : list (Z * Analysis))
  : option (option (Z * Analysis)) :=
  match results with
  | [] => Some None
  | _ => first_within_slippage results (sort_descending (map fst results))
  end.

Definition calculateOptimalSize (now : Z) (orderbook : OrderBook)
  : option (option (Z * Analysis)) :=
  _findOptimalSize (executable_results now orderbook).

End WithParser.

End MarketDepthAnalyzer.

(** ** [OrderManager] (unnamed/part_005)

    Its three [async] methods hold no [await]: each runs to its end when
    it is called. *)

Module OrderManager.

Record Config : Type := mkConfig {
  maxOrderSize : Decimal.t;
  minOrderSize : Decimal.t;
  orderTimeout : Z;
  maxRetries : Z
}.

Record UserConfig : Type := mkUserConfig {
  user_maxOrderSize : option Decimal.t;
  user_minOrderSize : option Decimal.t;
  user_orderTimeout : option Z;
  user_maxRetries : option Z
}.

Definition no_config : UserConfig := mkUserConfig None None None None.

(** [config.x || d]: the default also replaces a falsy value. *)
Definition or_decimal (o : option Decimal.t) (d : Decimal.t) : Decimal.t :=
  match o with
  | Some v => if Decimal.truthy v then v else d
  | None => d
  end.

Definition or_number (o : option Z) (d : Z) : Z :=
  match o with
  | Some v => if v =? 0 then d else v
  | None => d
  end.

Definition makeConfig (config : UserConfig) : Config :=
  {| maxOrderSize := or_decimal (user_maxOrderSize config) (Decimal.Fin 1000);
     minOrderSize := or_decimal (user_minOrderSize config) (Decimal.Fin 10);
     orderTimeout := or_number (user_orderTimeout config) 30000;
     maxRetries := or_number (user_maxRetries config) 3 |}.

(** The argument of [createOrder]. *)
Record Params : Type := mkParams {
  param_exchange : Js.value;
  param_symbol : Js.value;
  param_side : Js.value;
  param_amount : Js.value;
  param_price : Js.value
}.

(** An entry of [order.fills]: the fill details with a timestamp. *)
Record Fill : Type := mkFill {
  fill_details : Js.value;
  fill_timestamp : Z
}.

(** An order as [createOrder] builds it; [amount] and [price] are kept as
    the strings [toString()] prints, for which the model keeps the Decimal.
    [lastUpdated] is absent until the first update. *)
Record Order : Type := mkOrder {
  id : string;
  exchange : Js.value;
  symbol : Js.value;
  side : Js.value;
  amount : Decimal.t;
  price : Decimal.t;
  status : string;
  timestamp : Z;
  fills : list Fill;
  lastUpdated : option Z
}.

Inductive Event : Type :=
| OrderCreated (order : Order)
| OrderUpdated (order : Order)
| OrderCancelled (order : Order)
| OrderTimeout (order : Order).

(** A pending [setTimeout] of [_setOrderTimeout]. *)
Record Timer : Type := mkTimer {
  due : Z;
  timer_orderId : string
}.

Record t : Type := mkManager {
  config : Config;
  orders : gmap string Order;
  timers : list Timer;
  emitted : list Event
}.

Definition new (config : UserConfig) : t :=
  mkManager (makeConfig config) ∅ [] [].

Definition with_orders (os : gmap string Order) (st : t) : t :=
  mkManager (config st) os (timers st) (emitted st).

Definition emit (e : Event) (st : t) : t :=
  mkManager (config st) (orders st) (timers st) (emitted st ++ [e]).

Definition with_status (status : string) (now : Z) (order : Order) : Order :=
  mkOrder (id order) (exchange order) (symbol order) (side order) (amount order)
          (price order) status (timestamp order) (fills order) (Some now).

Definition with_fill (fill : Fill) (order : Order) : Order :=
  mkOrder (id order) (exchange order) (symbol order) (side order) (amount order)
          (price order) (status order) (timestamp order) (fills order ++ [fill])
          (lastUpdated order).

Inductive Validation : Type :=
| IsValid
| NotValid (reason : string).

(** [`order_${Date.now()}_${Math.random().toString(36).substr(2, 9)}`]: the
    random suffix is an argument. *)
Definition _generateOrderId (now : Z) (random : string) : string :=
  ("order_" ++ NilZero.string_of_int (Z.to_int now) ++ "_" ++ random)%string.

Definition getOrder (st : t) (orderId : string) : option Order :=
  orders st !! orderId.

(** [cancelOrder] asks for no status: it cancels whatever order it finds. *)
Definition cancelOrder (orderId : string) (now : Z) (st : t) : bool * t :=
  match orders st !! orderId with
  | None => (false, st)
  | Some order =>
      let order := with_status "cancelled" now order in
      let st := with_orders (<[orderId := order]> (orders st)) st in
      (true, emit (OrderCancelled order) st)
  end.

(** [fillDetails] is [None] when it is [null], omitted or otherwise falsy. *)
Definition updateOrderStatus (orderId : string) (status : string)
  (fillDetails : option Js.value) (now : Z) (st : t) : bool * t :=
  match orders st !! orderId with
  | None => (false, st)
  | Some order =>
      let order := with_status status now order in
      let order :=
        match fillDetails with
        | Some details => with_fill (mkFill details now) order
        | None => order
        end in
      let st := with_orders (<[orderId := order]> (orders st)) st in
      (true, emit (OrderUpdated order) st)
  end.

Definition _setOrderTimeout (orderId : string) (now : Z) (st : t) : t :=
  mkManager (config st) (orders st)
            (timers st ++ [mkTimer (now + orderTimeout (config st)) orderId])
            (emitted st).

(** The callback of [_setOrderTimeout]; the [orderTimeout] event carries
    the order object, which [cancelOrder] has just changed. *)
Definition orderTimeoutElapsed (orderId : string) (now : Z) (st : t) : t :=
  match orders st !! orderId with
  | None => st
  | Some order =>
      if String.eqb (status order) "pending"
      then
        let st := snd (cancelOrder orderId now st) in
        match orders st !! orderId with
        | Some order => emit (OrderTimeout order) st
        | None => st
        end
      else st
  end.

(** The event loop at time [now]: every timer that is due runs its
    callback, in the order the timers were set. *)
Definition runTimers (now : Z) (st : t) : t :=
  let '(ready, waiting) := List.partition (fun tm => due tm <=? now) (timers st) in
  fold_left (fun acc tm => orderTimeoutElapsed (timer_orderId tm) now acc)
            ready
            (mkManager (config st) (orders st) waiting (emitted st)).

(** [getActiveOrders], as the orders it selects; the model does not keep
    the order in which the [Map] lists them. *)
Definition getActiveOrders (st : t) : gmap string Order :=
  filter (fun kv => status (snd kv) = "pending"%string \/ status (snd kv) = "partial"%string)
         (orders st).

Section WithParser.

Variable parse : string -> option Decimal.t.

Definition _validateOrderParams (st : t) (params : Params) : Validation :=
  match Js.toDecimal parse (param_amount params),
        Js.toDecimal parse (param_price params) with
  | Some amount, Some price =>
      let orderValue := Decimal.mul amount price in
      if Decimal.lessThan orderValue (minOrderSize (config st))
      then NotValid "Order size too small"
      else if Decimal.greaterThan orderValue (maxOrderSize (config st))
      then NotValid "Order size too large"
      else IsValid
  | _, _ => NotValid "Invalid numeric values"
  end.

(** [createOrder]: [None] is the [null] it returns for parameters that do
    not validate, and from its [catch]. *)
Definition createOrder (params : Params) (now : Z) (random : string) (st : t)
  : option Order * t :=
  match _validateOrderParams st params with
  | NotValid _ => (None, st)
  | IsValid =>
      match Js.toDecimal parse (param_amount params),
            Js.toDecimal parse (param_price params) with
      | Some amount, Some price =>
          let order :=
            {| id := _generateOrderId now random;
               exchange := param_exchange params;
               symbol := param_symbol params;
               side := param_side params;
               amount := amount;
               price := price;
               status := "pending";
               timestamp := now;
               fills := [];
               lastUpdated := None |} in
          let st := with_orders (<[id order := order]> (orders st)) st in
          let st := _setOrderTimeout (id order) now st in
          (Some order, emit (OrderCreated order) st)
      | _, _ => (None, st)
      end
  end.

End WithParser.

End OrderManager.

(** ** [TradeExecutor] (src/trading/tradeExecutor.js)

    [executeArbitrage] is an [async] method.  The model is the coroutine
    written out: a [Stage] is a point where the method is suspended at an
    [await], with the local variables it still needs; [executeArbitrage]
    runs the method from the call to its first [await], and [resume] runs it from
    the settlement of the awaited promise to the next [await] or to the
    [return].  What the method does in between is a list of [Effect]s: the
    calls it places on its collaborators and its log lines.

    [_getCurrentPrice] is a stub in the source ("would depend on your price
    feed system", it returns [null]); here it is a call on the price feed
    like the others, and [stub_price] is the stub's answer. *)

Module TradeExecutor.

Record Opportunity : Type := mkOpportunity {
  buyExchange : string;
  sellExchange : string;
  buyPrice : Decimal.t;
  sellPrice : Decimal.t;
  usdtAmount : Js.value;        (* opportunity.position.usdtAmount *)
  vrscAmount : Js.value         (* opportunity.position.vrscAmount *)
}.

(** What [orderManager.createOrder] resolves to. *)
Record Order : Type := mkOrder {
  id : string;
  price : Js.value;
  totalCost : Js.value;
  totalFilled : Js.value
}.

(** What [orderManager.getOrder] resolves to. *)
Record OrderStatus : Type := mkOrderStatus {
  status_id : string;
  status : string;
  filled : bool
}.

Inductive Side : Type := buy | sell.

(** The calls [TradeExecutor] places on its collaborators. *)
Inductive Request : Type :=
| GetCurrentPrice (exchange : string)
| GetAvailableBalance (exchange currency : string)
| CreateOrder (exchange : string) (side : Side) (amount : Js.value) (price : Decimal.t)
| GetOrder (id : string)
| CancelOrder (id : string)
| Sleep (ms : Z).

Inductive Level : Type := info | warn | error.

Inductive Effect : Type :=
| Call (request : Request)
| Log (level : Level) (message : string).

(** How an awaited promise settles. *)
Inductive Response : Type :=
| CurrentPrice (price : option Decimal.t)     (* a number, or null *)
| AvailableBalance (balance : Decimal.t)
| OrderCreated (order : option Order)         (* an order, or a falsy value *)
| OrderFetched (status : OrderStatus)
| Done                                        (* resolved, value unused *)
| Failed.                                     (* rejected *)

Inductive Stage : Type :=
(* _validatePrices *)
| AwaitBuyPrice (opportunity : Opportunity) (startTime : Z)
| AwaitSellPrice (opportunity : Opportunity) (startTime : Z)
                 (currentBuyPrice : option Decimal.t)
| AfterValidatePrices (opportunity : Opportunity) (startTime : Z) (valid : bool)
(* _checkBalances; [None] is an exception *)
| AwaitBalance (opportunity : Opportunity) (startTime : Z)
| AfterCheckBalances (opportunity : Opportunity) (startTime : Z)
                     (sufficient : option bool)
(* _executeBuyOrder, _executeSellOrder *)
| AwaitBuyOrder (opportunity : Opportunity) (startTime : Z)
| AfterBuyOrder (opportunity : Opportunity) (startTime : Z) (buyOrder : option Order)
| AwaitSellOrder (opportunity : Opportunity) (startTime : Z) (buyOrder : Order)
| AfterSellOrder (opportunity : Opportunity) (startTime : Z) (buyOrder : Order)
                 (sellOrder : option Order)
(* _handleFailedSell *)
| AwaitCancelAfterFailedSell
| AfterFailedSell
(* _monitorExecution *)
| AwaitBuyStatus (buyOrder sellOrder : Order) (startTime monitorStart : Z)
| AwaitSellStatus (buyOrder sellOrder : Order) (startTime monitorStart : Z)
                  (buyStatus : OrderStatus)
| AwaitSleep (buyOrder sellOrder : Order) (startTime monitorStart : Z)
(* _handleCancellation *)
| AwaitCancelBuy (buyOrder sellOrder : Order) (startTime : Z) (sellStatus : OrderStatus)
| AwaitCancelSell (buyOrder sellOrder : Order) (startTime : Z)
| AfterHandleCancellation (buyOrder sellOrder : Order) (startTime : Z)
(* _handleTimeout *)
| AwaitTimeoutCancels (buyOrder sellOrder : Order) (startTime : Z)
| AfterHandleTimeout (buyOrder sellOrder : Order) (startTime : Z)
(* back in executeArbitrage *)
| AfterMonitor (buyOrder sellOrder : Order) (startTime : Z) (success : bool)
| AfterPostTradeAnalysis (completed : bool)
| Finished (result : bool).

Definition executionTimeout : Z := 45000.
Definition maxSlippagePercent : Decimal.t := Decimal.Fin (3 # 10).
Definition minProfitPercent : Decimal.t := Decimal.Fin (5 # 10).

(** [!v] for a price that is a number or null. *)
Definition missing (v : option Decimal.t) : bool :=
  match v with
  | Some d => negb (Decimal.truthy d)
  | None => true
  end.

(** [_validatePrices], from the second of its two awaits on: the awaited
    prices are arguments. *)
Definition _validatePrices (opportunity : Opportunity)
  (currentBuyPrice currentSellPrice : option Decimal.t) : list Effect * bool :=
  match currentBuyPrice, currentSellPrice with
  | Some currentBuy, Some currentSell =>
      if missing currentBuyPrice || missing currentSellPrice
      then ([Log warn "Unable to validate current prices"], false)
      else
        let buyPriceChange :=
          Decimal.div (Decimal.abs (Decimal.minus currentBuy (buyPrice opportunity)))
                      (buyPrice opportunity) in
        let sellPriceChange :=
          Decimal.div (Decimal.abs (Decimal.minus currentSell (sellPrice opportunity)))
                      (sellPrice opportunity) in
        if Decimal.greaterThan buyPriceChange maxSlippagePercent
           || Decimal.greaterThan sellPriceChange maxSlippagePercent
        then ([Log warn "Prices have moved beyond slippage tolerance"], false)
        else
          let spread := Decimal.div (Decimal.minus currentSell currentBuy) currentBuy in
          if Decimal.lessThan spread minProfitPercent
          then ([Log warn "Profit opportunity no longer viable"], false)
          else ([], true)
  | _, _ => ([Log warn "Unable to validate current prices"], false)
  end.

Definition stub_price : Response := CurrentPrice None.

Section WithParser.

Variable parse : string -> option Decimal.t.

(** [_checkBalances], from its await on: the awaited balance is an
    argument; [None] when [new Decimal(usdtAmount)] throws. *)
Definition _checkBalances (opportunity : Opportunity) (balance : Decimal.t)
  : list Effect * option bool :=
  match Js.toDecimal parse (usdtAmount opportunity) with
  | None => ([], None)
  | Some amount =>
      let requiredAmount := Decimal.mul amount (Decimal.Fin (101 # 100)) in
      if Decimal.lessThan balance requiredAmount
      then ([Log warn "Insufficient balance for buy order"], Some false)
      else ([], Some true)
  end.

Record FillMetrics : Type := mkFillMetrics {
  avgPrice : Decimal.t;
  metrics_totalFilled : Js.value;
  metrics_totalCost : Js.value;
  slippage : Decimal.t
}.

(** [None] when one of the three Decimals cannot be built. *)
Definition _calculateFillMetrics (order : Order) : option FillMetrics :=
  match Js.toDecimal parse (totalCost order), Js.toDecimal parse (totalFilled order),
        Js.toDecimal parse (price order) with
  | Some cost, Some filled, Some expectedPrice =>
      let avgPrice := Decimal.div cost filled in
      Some {| avgPrice := avgPrice;
              metrics_totalFilled := totalFilled order;
              metrics_totalCost := totalCost order;
              slippage :=
                Decimal.mul
                  (Decimal.div (Decimal.minus avgPrice expectedPrice) expectedPrice)
                  (Decimal.of_Z 100) |}
  | _, _, _ => None
  end.

Definition _calculateNetProfit (buyFill sellFill : FillMetrics) : option Decimal.t :=
  match Js.toDecimal parse (metrics_totalCost buyFill),
        Js.toDecimal parse (metrics_totalCost sellFill) with
  | Some buyTotal, Some sellTotal => Some (Decimal.minus sellTotal buyTotal)
  | _, _ => None
  end.

(** [_performPostTradeAnalysis]: its log line, or [None] when it throws. *)
Definition _performPostTradeAnalysis (buyOrder sellOrder : Order)
  : option (list Effect) :=
  match _calculateFillMetrics buyOrder, _calculateFillMetrics sellOrder with
  | Some buyFill, Some sellFill =>
      match _calculateNetProfit buyFill sellFill with
      | Some _ => Some [Log info "Trade Analysis:"]
      | None => None
      end
  | _, _ => None
  end.

Definition buy_request (opportunity : Opportunity) : Request :=
  CreateOrder (buyExchange opportunity) buy (vrscAmount opportunity)
              (buyPrice opportunity).

Definition sell_request (opportunity : Opportunity) : Request :=
  CreateOrder (sellExchange opportunity) sell (vrscAmount opportunity)
              (sellPrice opportunity).

(** [_monitorExecution] at the head of its [while] loop. *)
Definition _monitorExecution (buyOrder sellOrder : Order) (startTime monitorStart now : Z)
  : list Effect * Stage :=
  if now - monitorStart <? executionTimeout
  then ([Call (GetOrder (id buyOrder))],
        AwaitBuyStatus buyOrder sellOrder startTime monitorStart)
  else ([Log error "Execution timeout reached";
         Call (CancelOrder (id buyOrder)); Call (CancelOrder (id sellOrder))],
        AwaitTimeoutCancels buyOrder sellOrder startTime).

(** [executeArbitrage] from the call to the first [await]; the rest of the
    method is [resume].  The flag [isExecuting] is read and, unless it is
    set, set. *)
Definition executeArbitrage (opportunity : Opportunity) (now : Z) (isExecuting : bool)
  : list Effect * Stage * bool :=
  if isExecuting
  then ([Log info "Starting arbitrage execution";
         Log warn "Trade execution already in progress"],
        Finished false, isExecuting)
  else ([Log info "Starting arbitrage execution";
         Call (GetCurrentPrice (buyExchange opportunity))],
        AwaitBuyPrice opportunity now, true).
(** [resume stage response now]: the method continues from [stage] when the
    promise it awaits settles as [response]; [None] when [stage] awaits no
    promise that settles so. *)
Definition resume (stage : Stage) (response : Response) (now : Z)
  : option (list Effect * Stage) :=
  match stage, response with
  | AwaitBuyPrice opportunity startTime, CurrentPrice currentBuyPrice =>
      Some ([Call (GetCurrentPrice (sellExchange opportunity))],
            AwaitSellPrice opportunity startTime currentBuyPrice)
  | AwaitSellPrice opportunity startTime currentBuyPrice, CurrentPrice currentSellPrice =>
      let '(logs, valid) :=
        _validatePrices opportunity currentBuyPrice currentSellPrice in
      Some (logs, AfterValidatePrices opportunity startTime valid)
  | AfterValidatePrices opportunity startTime valid, Done =>
      if valid
      then Some ([Call (GetAvailableBalance (buyExchange opportunity) "USDT")],
                 AwaitBalance opportunity startTime)
      else Some ([], Finished false)
  | AwaitBalance opportunity startTime, AvailableBalance balance =>
      let '(logs, sufficient) := _checkBalances opportunity balance in
      Some (logs, AfterCheckBalances opportunity startTime sufficient)
  | AwaitBalance opportunity startTime, Failed =>
      Some ([], AfterCheckBalances opportunity startTime None)
  | AfterCheckBalances opportunity startTime sufficient, Done =>
      match sufficient with
      | None => Some ([Log error "Critical error in arbitrage execution:"],
                      Finished false)
      | Some false => Some ([], Finished false)
      | Some true => Some ([Call (buy_request opportunity)],
                           AwaitBuyOrder opportunity startTime)
      end
  | AwaitBuyOrder opportunity startTime, OrderCreated None =>
      Some ([Log error "Failed to create buy order"],
            AfterBuyOrder opportunity startTime None)
  | AwaitBuyOrder opportunity startTime, OrderCreated (Some order) =>
      Some ([Log info "Buy order created:"],
            AfterBuyOrder opportunity startTime (Some order))
  | AwaitBuyOrder opportunity startTime, Failed =>
      Some ([Log error "Error executing buy order:"],
            AfterBuyOrder opportunity startTime None)
  | AfterBuyOrder opportunity startTime buyOrder, Done =>
      match buyOrder with
      | None => Some ([], Finished false)
      | Some buyOrder => Some ([Call (sell_request opportunity)],
                               AwaitSellOrder opportunity startTime buyOrder)
      end
  | AwaitSellOrder opportunity startTime buyOrder, OrderCreated None =>
      Some ([Log error "Failed to create sell order"],
            AfterSellOrder opportunity startTime buyOrder None)
  | AwaitSellOrder opportunity startTime buyOrder, OrderCreated (Some order) =>
      Some ([Log info "Sell order created:"],
            AfterSellOrder opportunity startTime buyOrder (Some order))
  | AwaitSellOrder opportunity startTime buyOrder, Failed =>
      Some ([Log error "Error executing sell order:"],
            AfterSellOrder opportunity startTime buyOrder None)
  | AfterSellOrder opportunity startTime buyOrder sellOrder, Done =>
      match sellOrder with
      | None => Some ([Call (CancelOrder (id buyOrder))], AwaitCancelAfterFailedSell)
      | Some sellOrder => Some (_monitorExecution buyOrder sellOrder startTime now now)
      end
  | AwaitCancelAfterFailedSell, Done =>
      Some ([Log info "Buy order cancelled after failed sell"], AfterFailedSell)
  | AwaitCancelAfterFailedSell, Failed =>
      Some ([Log error "Error handling failed sell:"], AfterFailedSell)
  | AfterFailedSell, Done => Some ([], Finished false)
  | AwaitBuyStatus buyOrder sellOrder startTime monitorStart, OrderFetched buyStatus =>
      Some ([Call (GetOrder (id sellOrder))],
            AwaitSellStatus buyOrder sellOrder startTime monitorStart buyStatus)
  | AwaitBuyStatus buyOrder sellOrder startTime monitorStart, Failed =>
      let '(effects, next) := _monitorExecution buyOrder sellOrder startTime monitorStart now in
      Some (Log error "Error monitoring execution:" :: effects, next)
  | AwaitSellStatus buyOrder sellOrder startTime monitorStart buyStatus,
    OrderFetched sellStatus =>
      let buyFilled := String.eqb (status buyStatus) "filled" in
      let sellFilled := String.eqb (status sellStatus) "filled" in
      if buyFilled && sellFilled
      then Some ([Log info "Both orders successfully filled"],
                 AfterMonitor buyOrder sellOrder startTime true)
      else if String.eqb (status buyStatus) "cancelled"
              || String.eqb (status sellStatus) "cancelled"
      then
        if negb (filled buyStatus)
        then Some ([Log warn "Order cancelled, initiating recovery";
                    Call (CancelOrder (status_id buyStatus))],
                   AwaitCancelBuy buyOrder sellOrder startTime sellStatus)
        else if negb (filled sellStatus)
        then Some ([Log warn "Order cancelled, initiating recovery";
                    Call (CancelOrder (status_id sellStatus))],
                   AwaitCancelSell buyOrder sellOrder startTime)
        else Some ([Log warn "Order cancelled, initiating recovery"],
                   AfterHandleCancellation buyOrder sellOrder startTime)
      else Some ([Call (Sleep 1000)],
                 AwaitSleep buyOrder sellOrder startTime monitorStart)
  | AwaitSellStatus buyOrder sellOrder startTime monitorStart _, Failed =>
      let '(effects, next) := _monitorExecution buyOrder sellOrder startTime monitorStart now in
      Some (Log error "Error monitoring execution:" :: effects, next)
  | AwaitSleep buyOrder sellOrder startTime monitorStart, Done =>
      Some (_monitorExecution buyOrder sellOrder startTime monitorStart now)
  | AwaitCancelBuy buyOrder sellOrder startTime sellStatus, Done =>
      if negb (filled sellStatus)
      then Some ([Call (CancelOrder (status_id sellStatus))],
                 AwaitCancelSell buyOrder sellOrder startTime)
      else Some ([], AfterHandleCancellation buyOrder sellOrder startTime)
  | AwaitCancelBuy buyOrder sellOrder startTime _, Failed =>
      Some ([Log error "Error handling cancellation:"],
            AfterHandleCancellation buyOrder sellOrder startTime)
  | AwaitCancelSell buyOrder sellOrder startTime, Done =>
      Some ([], AfterHandleCancellation buyOrder sellOrder startTime)
  | AwaitCancelSell buyOrder sellOrder startTime, Failed =>
      Some ([Log error "Error handling cancellation:"],
            AfterHandleCancellation buyOrder sellOrder startTime)
  | AfterHandleCancellation buyOrder sellOrder startTime, Done =>
      Some ([], AfterMonitor buyOrder sellOrder startTime false)
  | AwaitTimeoutCancels buyOrder sellOrder startTime, Done =>
      Some ([Log info "Orders cancelled due to timeout"],
            AfterHandleTimeout buyOrder sellOrder startTime)
  | AwaitTimeoutCancels buyOrder sellOrder startTime, Failed =>
      Some ([Log error "Error handling timeout:"],
            AfterHandleTimeout buyOrder sellOrder startTime)
  | AfterHandleTimeout buyOrder sellOrder startTime, Done =>
      Some ([], AfterMonitor buyOrder sellOrder startTime false)
  | AfterMonitor buyOrder sellOrder startTime success, Done =>
      if success
      then
        match _performPostTradeAnalysis buyOrder sellOrder with
        | Some logs => Some (logs, AfterPostTradeAnalysis true)
        | None => Some ([], AfterPostTradeAnalysis false)
        end
      else Some ([], Finished false)
  | AfterPostTradeAnalysis completed, Done =>
      if completed
      then Some ([], Finished true)
      else Some ([Log error "Critical error in arbitrage execution:"], Finished false)
  | _, _ => None
  end.

Definition in_progress (stage : Stage) : bool :=
  match stage with
  | Finished _ => false
  | _ => true
  end.

(** One executor and the calls made on it.  [tasks] holds every call of
    [executeArbitrage] so far, by order of call; [trace] what each did. *)
Record System : Type := mkSystem {
  isExecuting : bool;
  tasks : list Stage;
  trace : list (nat * Effect)
}.

Definition initial : System := mkSystem false [] [].

Inductive Action : Type :=
| Invoke (opportunity : Opportunity) (now : Z)
| Deliver (task : nat) (response : Response) (now : Z).

(** [finally { this.isExecuting = false }] runs when a call that entered
    the [try] block returns. *)
Definition act (a : Action) (s : System) : System :=
  match a with
  | Invoke opportunity now =>
      let '(effects, stage, flag) := executeArbitrage opportunity now (isExecuting s) in
      let task := length (tasks s) in
      mkSystem flag (tasks s ++ [stage])
               (trace s ++ map (fun e => (task, e)) effects)
  | Deliver task response now =>
      match tasks s !! task with
      | None => s
      | Some stage =>
          match resume stage response now with
          | None => s
          | Some (effects, stage') =>
              mkSystem (if in_progress stage' then isExecuting s else false)
                       (<[task := stage']> (tasks s))
                       (trace s ++ map (fun e => (task, e)) effects)
          end
      end
  end.

Definition run (actions : list Action) (s : System) : System :=
  fold_left (fun s a => act a s) actions s.

(** The calls on collaborators in a trace. *)
Definition requests (effects : list Effect) : list Request :=
  omap (fun e => match e with Call r => Some r | Log _ _ => None end) effects.

(** One call resumed with a sequence of settlements, while they fit. *)
Fixpoint continue (stage : Stage) (settlements : list (Response * Z))
  : list Effect * Stage :=
  match settlements with
  | [] => ([], stage)
  | (response, now) :: rest =>
      match resume stage response now with
      | None => ([], stage)
      | Some (effects, stage') =>
          let '(more, final) := continue stage' rest in
          (effects ++ more, final)
      end
  end.

End WithParser.

End TradeExecutor.

(** ** [BaseExchange] (src/exchanges/baseConnector.js): the price fetch

    [fetchPrice] runs without suspension up to the request it hands to the
    rate limiter; [fetchPrice] below is that part, and [settle] is what
    the method does with the breaker and the cache once the request has
    settled.  The request itself ([_fetchPriceImpl], the retries) is the
    venue's. *)

Module BaseExchange.

(** What [_fetchPriceWithRetry] resolves to. *)
Record PriceData : Type := mkPriceData {
  price : Js.value;
  timestamp : Z;
  success : bool
}.

(** An entry of [priceCache]: the price data with [cacheTimestamp]. *)
Record Cached : Type := mkCached {
  cached : PriceData;
  cacheTimestamp : Z
}.

Record t : Type := mkExchange {
  name : string;
  circuitBreaker : CircuitBreaker.t;
  priceCache : gmap string Cached
}.

Definition new (name : string) : t :=
  mkExchange name (CircuitBreaker.new CircuitBreaker.no_options) ∅.

Definition with_circuitBreaker (cb : CircuitBreaker.t) (ex : t) : t :=
  mkExchange (name ex) cb (priceCache ex).

(** How [fetchPrice] leaves its first part: with the failure record of its
    [catch], with the cached price, or suspended on the request. *)
Inductive Begun : Type :=
| Refused
| FromCache (c : Cached)
| Enqueued.

(** How the request settles. *)
Inductive Outcome : Type :=
| Resolved (result : PriceData)
| Rejected.

Definition _getCachedPrice (now : Z) (ex : t) : option Cached :=
  match priceCache ex !! name ex with
  | Some c => if now - timestamp (cached c) <? 5000 then Some c else None
  | None => None
  end.

Definition _updatePriceCache (priceData : PriceData) (now : Z) (ex : t) : t :=
  mkExchange (name ex) (circuitBreaker ex)
             (<[name ex := mkCached priceData now]> (priceCache ex)).

(** An open breaker makes [fetchPrice] throw inside its own [try]: the
    [catch] records the refusal as one more error of the venue. *)
Definition fetchPrice (now : Z) (ex : t) : Begun * t :=
  let '(open, cb) := CircuitBreaker.isOpen (name ex) now (circuitBreaker ex) in
  let ex := with_circuitBreaker cb ex in
  if open
  then (Refused,
        with_circuitBreaker (CircuitBreaker.onError (name ex) now (circuitBreaker ex)) ex)
  else
    match _getCachedPrice now ex with
    | Some c => (FromCache c, ex)
    | None => (Enqueued, ex)
    end.

Definition settle (outcome : Outcome) (now : Z) (ex : t) : t :=
  match outcome with
  | Resolved result =>
      if success result
      then
        let ex := with_circuitBreaker
                    (CircuitBreaker.onSuccess (name ex) now (circuitBreaker ex)) ex in
        _updatePriceCache result now ex
      else
        with_circuitBreaker (CircuitBreaker.onError (name ex) now (circuitBreaker ex)) ex
  | Rejected =>
      with_circuitBreaker (CircuitBreaker.onError (name ex) now (circuitBreaker ex)) ex
  end.

End BaseExchange.

(* ===================================================================== *)
(** * Part II: the vocabulary of the properties and sample inputs        *)
(* ===================================================================== *)

(** ** Circuit breaker *)

(** [linked R l]: every two neighbours of [l] are related by [R]. *)
Fixpoint linked (R : CircuitBreaker.State -> CircuitBreaker.State -> Prop)
  (l : list CircuitBreaker.State) : Prop :=
  match l with
  | a :: (b :: _) as rest => R a b /\ linked R rest
  | _ => True
  end.

Definition enters_from_open_or_stays (a b : CircuitBreaker.State) : Prop :=
  b = CircuitBreaker.HalfOpen ->
  a = CircuitBreaker.Open \/ a = CircuitBreaker.HalfOpen.

Definition enters_from_open (a b : CircuitBreaker.State) : Prop :=
  b = CircuitBreaker.HalfOpen -> a = CircuitBreaker.Open.

(** Five errors open the breaker of venue [v]; a poll after the reset
    timeout makes it half-open. *)
Definition trip_and_probe : list CircuitBreaker.Call :=
  [CircuitBreaker.CallOnError "v" 1000; CircuitBreaker.CallOnError "v" 2000;
   CircuitBreaker.CallOnError "v" 3000; CircuitBreaker.CallOnError "v" 4000;
   CircuitBreaker.CallOnError "v" 5000; CircuitBreaker.CallIsOpen "v" 70000].

(** The half-open breaker of venue [v] that [trip_and_probe] leaves. *)
Definition half_open_breaker : CircuitBreaker.t :=
  fold_left (fun cb c => CircuitBreaker.perform c cb) trip_and_probe
            (CircuitBreaker.new CircuitBreaker.no_options).

(** [onError] called on one venue at each of the given times. *)
Definition errors (venue : string) (times : list Z) (cb : CircuitBreaker.t)
  : CircuitBreaker.t :=
  fold_left (fun cb now => CircuitBreaker.onError venue now cb) times cb.

(** ** Decimal readers and balance ledgers *)

(** A reader of numeric strings for the examples: plain digit strings. *)
Fixpoint parse_digits (s : string) (acc : Z) : option Z :=
  match s with
  | EmptyString => Some acc
  | String.String c rest =>
      let n := Z.of_nat (nat_of_ascii c) in
      if (48 <=? n) && (n <=? 57) then parse_digits rest (10 * acc + (n - 48))
      else None
  end.

Definition parse_plain (s : string) : option Decimal.t :=
  match s with
  | EmptyString => None
  | _ => option_map Decimal.of_Z (parse_digits s 0)
  end.

(** The reserved total the specification describes for a pair: the amounts
    of the live reservations that [getReservedBalances] attributes to
    exactly that exchange and currency. *)
Definition exactReserved (st : BalanceManager.t) (exchange currency : string)
  : Decimal.t :=
  fold_left
    (fun total info =>
       if bool_decide (BalanceManager.info_exchange info = Some (Js.toLowerCase exchange))
          && bool_decide (BalanceManager.info_currency info = Some (Js.toUpperCase currency))
       then Decimal.plus total (BalanceManager.info_amount info)
       else total)
    (BalanceManager.getReservedBalances st None) Decimal.zero.

(** A ledger with 10 USD and 10 USDT on one venue, and 5 USDT reserved. *)
Definition ledger_usd_usdt : BalanceManager.t :=
  let st := BalanceManager.new None in
  let st := snd (BalanceManager.updateBalance parse_plain "safetrade" "USD"
                   (Js.String "10") st) in
  let st := snd (BalanceManager.updateBalance parse_plain "safetrade" "USDT"
                   (Js.String "10") st) in
  snd (BalanceManager.reserveBalance parse_plain "safetrade" "USDT"
         (Js.String "5") "order-1" 1000 st).

(** A ledger with 10 USDT of which 3 are reserved for [order-1]. *)
Definition ledger_one_reservation : BalanceManager.t :=
  let st := BalanceManager.new None in
  let st := snd (BalanceManager.updateBalance parse_plain "safetrade" "USDT"
                   (Js.String "10") st) in
  snd (BalanceManager.reserveBalance parse_plain "safetrade" "USDT"
         (Js.String "3") "order-1" 1000 st).

(** ** Price validation *)

Definition default_config : PriceValidator.Config :=
  PriceValidator.makeConfig PriceValidator.no_config.

(** ** Opportunity detection *)

(** A detector that expects 0.1% slippage, every other setting at its
    default (0.5% minimum spread), and two fresh prices 0.4% apart. *)
Definition low_slippage_config : ArbitrageDetector.Config :=
  ArbitrageDetector.makeConfig
    (ArbitrageDetector.mkUserConfig None None (Some (Decimal.Fin (1 # 10))) None).

Definition price_on_safetrade : ArbitrageDetector.Price :=
  ArbitrageDetector.mkPrice "safetrade" (Js.Number (Decimal.Fin 1))
    (Js.Number (Decimal.Fin 10000)) 1000.

Definition price_on_tradeogre : ArbitrageDetector.Price :=
  ArbitrageDetector.mkPrice "tradeogre" (Js.Number (Decimal.Fin (1004 # 1000)))
    (Js.Number (Decimal.Fin 10000)) 1200.

(** Two fresh prices one percent apart. *)
Definition price_one : ArbitrageDetector.Price :=
  ArbitrageDetector.mkPrice "safetrade" (Js.String "1")
    (Js.String "10000") 1000.

Definition price_one_percent_higher : ArbitrageDetector.Price :=
  ArbitrageDetector.mkPrice "tradeogre" (Js.Number (Decimal.Fin (101 # 100)))
    (Js.String "10000") 1200.

(** A ledger with 10 USDT and no reservation. *)
Definition ledger_without_reservation : BalanceManager.t :=
  snd (BalanceManager.updateBalance parse_plain "safetrade" "USDT"
         (Js.String "10") (BalanceManager.new None)).

(** ** Depth analysis *)


(** The size a side offers over all its levels. *)
Fixpoint depth (levels : list (Q * Q)) : Q :=
  match levels with
  | [] => 0
  | level :: rest => snd level + depth rest
  end.








(** ** Trade execution *)

(** The calls of [executeArbitrage] that have not returned. *)
Fixpoint active (stages : list TradeExecutor.Stage) : nat :=
  match stages with
  | [] => 0
  | stage :: rest => (if TradeExecutor.in_progress stage then 1 else 0) + active rest
  end.

(** The flag tells whether a call is in progress, and at most one is. *)
Definition serialized (s : TradeExecutor.System) : Prop :=
  (TradeExecutor.isExecuting s = true /\ active (TradeExecutor.tasks s) = 1%nat) \/
  (TradeExecutor.isExecuting s = false /\ active (TradeExecutor.tasks s) = 0%nat).

(** An opportunity to buy on one venue at 1 and sell on another at 1.6. *)
Definition sample_opportunity : TradeExecutor.Opportunity :=
  TradeExecutor.mkOpportunity "safetrade" "tradeogre"
    (Decimal.Fin 1) (Decimal.Fin (16 # 10)) (Js.String "100") (Js.String "100").

Definition sample_buy_order : TradeExecutor.Order :=
  TradeExecutor.mkOrder "buy-1" (Js.String "1") (Js.String "100") (Js.String "100").


(** ** Circuit breaker, continued *)

(** The venue a call names; [resetAll] names none. *)
Definition venue_of (c : CircuitBreaker.Call) : option string :=
  match c with
  | CircuitBreaker.CallIsOpen name _ => Some name
  | CircuitBreaker.CallOnSuccess name _ => Some name
  | CircuitBreaker.CallOnError name _ => Some name
  | CircuitBreaker.CallReset name _ => Some name
  | CircuitBreaker.CallResetAll _ => None
  end.

(** The outcomes reported for one venue, oldest first: [(true, now)] is a
    call of [onSuccess] at [now], [(false, now)] one of [onError]. *)
Definition reports (venue : string) (outcomes : list (bool * Z)) (cb : CircuitBreaker.t)
  : CircuitBreaker.t :=
  fold_left (fun cb (outcome : bool * Z) =>
               if fst outcome
               then CircuitBreaker.onSuccess venue (snd outcome) cb
               else CircuitBreaker.onError venue (snd outcome) cb)
            outcomes cb.

(** The longest run of errors in a row among the outcomes, given the run
    in progress and the longest so far. *)
Fixpoint longest_error_run (outcomes : list (bool * Z)) (current longest : Z) : Z :=
  match outcomes with
  | [] => longest
  | (true, _) :: rest => longest_error_run rest 0 longest
  | (false, _) :: rest =>
      longest_error_run rest (current + 1) (Z.max longest (current + 1))
  end.

(** The monitor a call works on: the venue's, or a fresh one. *)
Definition monitor_of (name : string) (cb : CircuitBreaker.t) : CircuitBreaker.Monitor :=
  default CircuitBreaker.fresh_monitor (CircuitBreaker.monitors cb !! name).

(** ** Price fetch, continued *)

(** [fetchPrice] called at each of the given times, with the answers,
    oldest first. *)
Fixpoint polls (times : list Z) (ex : BaseExchange.t)
  : list BaseExchange.Begun * BaseExchange.t :=
  match times with
  | [] => ([], ex)
  | now :: rest =>
      let '(answer, ex) := BaseExchange.fetchPrice now ex in
      let '(answers, ex) := polls rest ex in
      (answer :: answers, ex)
  end.

(** Times that follow [last] and one another by no more than [gap]. *)
Fixpoint paced (gap last : Z) (times : list Z) : Prop :=
  match times with
  | [] => True
  | now :: rest => now - last <= gap /\ paced gap now rest
  end.

(** A venue whose breaker five errors have opened, the last at 5000. *)
Definition tripped_exchange : BaseExchange.t :=
  BaseExchange.with_circuitBreaker
    (errors "SafeTrade" [1000; 2000; 3000; 4000; 5000]
       (CircuitBreaker.new CircuitBreaker.no_options))
    (BaseExchange.new "SafeTrade").

(** ** Balance ledger, continued *)

(** A string without an underscore. *)
Fixpoint underscore_free (s : string) : bool :=
  match s with
  | EmptyString => true
  | String.String c rest => negb (Ascii.eqb c "_") && underscore_free rest
  end.

(** ** Price validation, continued *)


Fixpoint total (values : list Q) : Q :=
  match values with
  | [] => 0
  | value :: rest => value + total rest
  end.


(** ** Exchange health, continued *)

(** How many of the calls record a success, and how many an error, of one
    venue. *)
Fixpoint successes_of (exchange : string) (calls : list ExchangeHealthMonitor.Call) : Z :=
  match calls with
  | [] => 0
  | ExchangeHealthMonitor.CallRecordSuccess e _ :: rest =>
      (if String.eqb e exchange then 1 else 0) + successes_of exchange rest
  | ExchangeHealthMonitor.CallRecordError _ _ _ :: rest => successes_of exchange rest
  end.

Fixpoint errors_of (exchange : string) (calls : list ExchangeHealthMonitor.Call) : Z :=
  match calls with
  | [] => 0
  | ExchangeHealthMonitor.CallRecordSuccess _ _ :: rest => errors_of exchange rest
  | ExchangeHealthMonitor.CallRecordError e _ _ :: rest =>
      (if String.eqb e exchange then 1 else 0) + errors_of exchange rest
  end.

(** Errors of one venue, one after the other. *)
Definition failures_of (exchange : string) (failures : list (Js.value * Z))
  : list ExchangeHealthMonitor.Call :=
  map (fun failure : Js.value * Z =>
         ExchangeHealthMonitor.CallRecordError exchange (fst failure) (snd failure))
      failures.

(** The status a call works on: the venue's, or a fresh one. *)
Definition status_of (exchange : string) (hm : ExchangeHealthMonitor.t)
  : ExchangeHealthMonitor.Status :=
  default ExchangeHealthMonitor.fresh_status (ExchangeHealthMonitor.health hm !! exchange).


(** ** Opportunity validation and ranking, continued *)

(** A detected opportunity as [OpportunityValidator] reads it.  The
    detector prints [volume] and [profit] with [toString()] and the
    validator reads them back with [new Decimal]; the model keeps the
    Decimal. *)
Definition detected (o : ArbitrageDetector.Opportunity) : OpportunityValidator.Opportunity :=
  OpportunityValidator.mkOpportunity
    (ArbitrageDetector.opp_timestamp o)
    (Js.Number (ArbitrageDetector.opp_volume o))
    (ArbitrageDetector.buyPrice o)
    (ArbitrageDetector.sellPrice o)
    (Js.Number (ArbitrageDetector.profit o)).




(** ** Depth analysis, continued *)






(** A test size qualifies when its analysis is executable and the two
    slippages together stay within twice [maxSlippage]. *)
Definition qualifies (parse : string -> option Decimal.t)
  (config : MarketDepthAnalyzer.Config) (now : Z)
  (orderbook : MarketDepthAnalyzer.OrderBook) (size : Z) : bool :=
  match MarketDepthAnalyzer.analyzeDepth parse config now orderbook
          (Js.Number (Decimal.of_Z size)) with
  | Some analysis =>
      MarketDepthAnalyzer.isExecutable analysis
      && Decimal.lte
           (Decimal.plus
              (MarketDepthAnalyzer.slippagePercent
                 (MarketDepthAnalyzer.buyAnalysis analysis))
              (MarketDepthAnalyzer.slippagePercent
                 (MarketDepthAnalyzer.sellAnalysis analysis)))
           (Decimal.mul (MarketDepthAnalyzer.maxSlippage config) (Decimal.of_Z 2))
  | None => false
  end.

(** ** Trade execution, continued *)

(** The order placements among the calls on collaborators. *)
Definition placements (requests : list TradeExecutor.Request) : list TradeExecutor.Request :=
  List.filter (fun r => match r with
                        | TradeExecutor.CreateOrder _ _ _ _ => true
                        | _ => false
                        end)
              requests.

(** The placements an execution suspended at a stage may still make. *)
Definition placements_ahead (stage : TradeExecutor.Stage) : list TradeExecutor.Request :=
  match stage with
  | TradeExecutor.AwaitBuyPrice o _
  | TradeExecutor.AwaitSellPrice o _ _
  | TradeExecutor.AfterValidatePrices o _ _
  | TradeExecutor.AwaitBalance o _
  | TradeExecutor.AfterCheckBalances o _ _ =>
      [TradeExecutor.buy_request o; TradeExecutor.sell_request o]
  | TradeExecutor.AwaitBuyOrder o _
  | TradeExecutor.AfterBuyOrder o _ _ => [TradeExecutor.sell_request o]
  | _ => []
  end.

(** The log lines an execution must have written to be at a stage. *)
Definition logged_by (stage : TradeExecutor.Stage) : list TradeExecutor.Effect :=
  match stage with
  | TradeExecutor.AfterMonitor _ _ _ true =>
      [TradeExecutor.Log TradeExecutor.info "Both orders successfully filled"]
  | TradeExecutor.AfterPostTradeAnalysis true
  | TradeExecutor.Finished true =>
      [TradeExecutor.Log TradeExecutor.info "Both orders successfully filled";
       TradeExecutor.Log TradeExecutor.info "Trade Analysis:"]
  | _ => []
  end.

(** An order of [OrderManager] as [TradeExecutor] holds it: the same
    object, which has an [id] and a [price] and neither [totalCost] nor
    [totalFilled]. *)
Definition held (order : OrderManager.Order) : TradeExecutor.Order :=
  TradeExecutor.mkOrder (OrderManager.id order) (Js.Number (OrderManager.price order))
                        Js.Undefined Js.Undefined.

(** How many orders an execution suspended at a stage has placed. *)
Definition placed_by (stage : TradeExecutor.Stage) : nat :=
  match stage with
  | TradeExecutor.AwaitBuyOrder _ _
  | TradeExecutor.AfterBuyOrder _ _ _ => 1
  | TradeExecutor.AwaitSellOrder _ _ _
  | TradeExecutor.AfterSellOrder _ _ _ _
  | TradeExecutor.AwaitBuyStatus _ _ _ _
  | TradeExecutor.AwaitSellStatus _ _ _ _ _
  | TradeExecutor.AwaitSleep _ _ _ _
  | TradeExecutor.AwaitCancelBuy _ _ _ _
  | TradeExecutor.AwaitCancelSell _ _ _
  | TradeExecutor.AfterHandleCancellation _ _ _
  | TradeExecutor.AwaitTimeoutCancels _ _ _
  | TradeExecutor.AfterHandleTimeout _ _ _
  | TradeExecutor.AfterMonitor _ _ _ _
  | TradeExecutor.AfterPostTradeAnalysis _
  | TradeExecutor.Finished true => 2
  | _ => 0
  end.

Definition sample_sell_order : TradeExecutor.Order :=
  TradeExecutor.mkOrder "sell-1" (Js.Number (Decimal.Fin (16 # 10)))
                        (Js.String "160") (Js.String "100").

(** The settlements of an execution whose two orders are placed and
    reported filled at the first poll. *)
Definition both_filled : list (TradeExecutor.Response * Z) :=
  [(TradeExecutor.CurrentPrice (Some (Decimal.Fin 1)), 1010);
   (TradeExecutor.CurrentPrice (Some (Decimal.Fin (16 # 10))), 1020);
   (TradeExecutor.Done, 1021);
   (TradeExecutor.AvailableBalance (Decimal.Fin 500), 1030);
   (TradeExecutor.Done, 1031);
   (TradeExecutor.OrderCreated (Some sample_buy_order), 1040);
   (TradeExecutor.Done, 1041);
   (TradeExecutor.OrderCreated (Some sample_sell_order), 1050);
   (TradeExecutor.Done, 1051);
   (TradeExecutor.OrderFetched (TradeExecutor.mkOrderStatus "buy-1" "filled" true), 1060);
   (TradeExecutor.OrderFetched (TradeExecutor.mkOrderStatus "sell-1" "filled" true), 1061);
   (TradeExecutor.Done, 1062);
   (TradeExecutor.Done, 1063)].

(** What a call of [executeArbitrage] has returned, if it has. *)
Definition returned (stage : TradeExecutor.Stage) : option bool :=
  match stage with
  | TradeExecutor.Finished result => Some result
  | _ => None
  end.

(** A settlement in which the order manager is [OrderManager]: an order
    it hands back is one of its own. *)
Definition from_order_manager (response : TradeExecutor.Response) : Prop :=
  match response with
  | TradeExecutor.OrderCreated (Some order) => exists created, order = held created
  | _ => True
  end.

(** An execution that cannot end well: the buy order it holds has no
    [totalCost], and it is not past the post-trade analysis. *)
Definition without_totals (stage : TradeExecutor.Stage) : Prop :=
  match stage with
  | TradeExecutor.AfterBuyOrder _ _ (Some buyOrder)
  | TradeExecutor.AwaitSellOrder _ _ buyOrder
  | TradeExecutor.AfterSellOrder _ _ buyOrder _
  | TradeExecutor.AwaitBuyStatus buyOrder _ _ _
  | TradeExecutor.AwaitSellStatus buyOrder _ _ _ _
  | TradeExecutor.AwaitSleep buyOrder _ _ _ =>
      TradeExecutor.totalCost buyOrder = Js.Undefined
  | TradeExecutor.AfterMonitor buyOrder _ _ success =>
      success = true -> TradeExecutor.totalCost buyOrder = Js.Undefined
  | TradeExecutor.AfterPostTradeAnalysis completed => completed = false
  | TradeExecutor.Finished result => result = false
  | _ => True
  end.

(** The settlements of an execution on two orders of [OrderManager] that
    a poll reports filled. *)
Definition managed_order (orderId : string) (price : Decimal.t) : OrderManager.Order :=
  OrderManager.mkOrder orderId (Js.String "safetrade") Js.Undefined (Js.String "buy")
    (Decimal.Fin 100) price "pending" 1040 [] None.

Definition managed_fills : list (TradeExecutor.Response * Z) :=
  [(TradeExecutor.CurrentPrice (Some (Decimal.Fin 1)), 1010);
   (TradeExecutor.CurrentPrice (Some (Decimal.Fin (16 # 10))), 1020);
   (TradeExecutor.Done, 1021);
   (TradeExecutor.AvailableBalance (Decimal.Fin 500), 1030);
   (TradeExecutor.Done, 1031);
   (TradeExecutor.OrderCreated (Some (held (managed_order "order_1040_a" (Decimal.Fin 1)))),
    1040);
   (TradeExecutor.Done, 1041);
   (TradeExecutor.OrderCreated
      (Some (held (managed_order "order_1050_b" (Decimal.Fin (16 # 10))))), 1050);
   (TradeExecutor.Done, 1051);
   (TradeExecutor.OrderFetched (TradeExecutor.mkOrderStatus "order_1040_a" "filled" false),
    1060);
   (TradeExecutor.OrderFetched (TradeExecutor.mkOrderStatus "order_1050_b" "filled" false),
    1061);
   (TradeExecutor.Done, 1062);
   (TradeExecutor.Done, 1063)].

(** A settlement in which the price feed is the stub of the source: a
    price it answers is [null]. *)
Definition from_stubbed_feed (response : TradeExecutor.Response) : Prop :=
  match response with
  | TradeExecutor.CurrentPrice price => price = None
  | _ => True
  end.

(** The stages an execution reaches on the stubbed feed. *)
Definition at_the_price_check (stage : TradeExecutor.Stage) : Prop :=
  match stage with
  | TradeExecutor.AwaitBuyPrice _ _ => True
  | TradeExecutor.AwaitSellPrice _ _ None => True
  | TradeExecutor.AfterValidatePrices _ _ false => True
  | TradeExecutor.Finished false => True
  | _ => False
  end.

(** ** Order management, continued *)

(** An order for 100 units at a price of 1. *)
Definition sample_params : OrderManager.Params :=
  OrderManager.mkParams (Js.String "safetrade") Js.Undefined (Js.String "buy")
                        (Js.String "100") (Js.Number (Decimal.Fin 1)).

(* ===================================================================== *)
(** * Part III: the properties                                            *)
(* ===================================================================== *)

(** ** Circuit breaker *)

Section BreakerFacts.

Import CircuitBreaker.

Implicit Types (cb : CircuitBreaker.t) (name venue : string) (now : Z).

Lemma getMonitor_state name cb :
  state (fst (_getMonitor name cb)) = stateOf name cb.
Proof.
  unfold _getMonitor, stateOf.
  destruct (monitors cb !! name); reflexivity.
Qed.

Lemma getMonitor_stateOf name venue cb :
  stateOf venue (snd (_getMonitor name cb)) = stateOf venue cb.
Proof.
  unfold _getMonitor, stateOf.
  destruct (monitors cb !! name) eqn:E; simpl; [reflexivity|].
  destruct (decide (name = venue)) as [->|Hne].
  - rewrite lookup_insert_eq, E. reflexivity.
  - rewrite lookup_insert_ne by assumption. reflexivity.
Qed.

Lemma put_stateOf name venue m cb :
  stateOf venue (put name m cb) =
  if decide (name = venue) then state m else stateOf venue cb.
Proof.
  unfold put, stateOf; simpl.
  destruct (decide (name = venue)) as [->|Hne].
  - rewrite lookup_insert_eq. reflexivity.
  - rewrite lookup_insert_ne by assumption. reflexivity.
Qed.

Lemma stateOf_frame venue cb l e :
  stateOf venue (emit e (with_lastStateChange l cb)) = stateOf venue cb.
Proof. reflexivity. Qed.

Lemma transitionToOpen_stateOf name venue now cb :
  stateOf venue (_transitionToOpen name now cb) =
  if decide (name = venue) then Open else stateOf venue cb.
Proof.
  unfold _transitionToOpen.
  destruct (_getMonitor name cb) as [m cb'] eqn:E.
  rewrite stateOf_frame, put_stateOf.
  change cb' with (snd (m, cb')). rewrite <- E, getMonitor_stateOf.
  reflexivity.
Qed.

Lemma transitionToHalfOpen_stateOf name venue now cb :
  stateOf venue (_transitionToHalfOpen name now cb) =
  if decide (name = venue) then HalfOpen else stateOf venue cb.
Proof.
  unfold _transitionToHalfOpen.
  destruct (_getMonitor name cb) as [m cb'] eqn:E.
  rewrite stateOf_frame, put_stateOf.
  change cb' with (snd (m, cb')). rewrite <- E, getMonitor_stateOf.
  reflexivity.
Qed.

Lemma transitionToClosed_stateOf name venue now cb :
  stateOf venue (_transitionToClosed name now cb) =
  if decide (name = venue) then Closed else stateOf venue cb.
Proof.
  unfold _transitionToClosed.
  destruct (_getMonitor name cb) as [m cb'] eqn:E.
  rewrite stateOf_frame, put_stateOf.
  change cb' with (snd (m, cb')). rewrite <- E, getMonitor_stateOf.
  reflexivity.
Qed.

Lemma State_eqb_eq (a b : State) : State_eqb a b = true <-> a = b.
Proof. destruct a, b; simpl; split; congruence. Qed.

(** [isOpen] moves a venue to half-open only from open, and touches no
    other venue's state. *)
Lemma isOpen_stateOf name venue now cb :
  stateOf venue (snd (isOpen name now cb)) = stateOf venue cb \/
  (name = venue /\ stateOf venue cb = Open /\
   stateOf venue (snd (isOpen name now cb)) = HalfOpen).
Proof.
  unfold isOpen.
  pose proof (getMonitor_state name cb) as Hs.
  pose proof (getMonitor_stateOf name venue cb) as Hf.
  destruct (_getMonitor name cb) as [m cb']; simpl in Hs, Hf.
  destruct (State_eqb (state m) Open) eqn:Eo; simpl.
  - apply State_eqb_eq in Eo.
    destruct (now - lastFailure m <=? resetTimeout cb'); simpl; [left; exact Hf|].
    destruct (resetTimeout cb' <? now - lastFailure m); simpl; [|left; exact Hf].
    rewrite transitionToHalfOpen_stateOf.
    destruct (decide (name = venue)) as [->|Hne].
    + right. rewrite <- Hs. auto.
    + left. exact Hf.
  - left. exact Hf.
Qed.

Lemma onSuccess_stateOf name venue now cb :
  stateOf venue (onSuccess name now cb) =
  if decide (name = venue)
  then (if State_eqb (stateOf venue cb) HalfOpen then Closed else stateOf venue cb)
  else stateOf venue cb.
Proof.
  unfold onSuccess.
  pose proof (getMonitor_state name cb) as Hs.
  pose proof (getMonitor_stateOf name venue cb) as Hf.
  destruct (_getMonitor name cb) as [m cb']; simpl in Hs, Hf. simpl.
  destruct (decide (name = venue)) as [->|Hne].
  - rewrite <- Hs.
    destruct (State_eqb (state m) HalfOpen).
    + rewrite transitionToClosed_stateOf. rewrite decide_True by reflexivity. reflexivity.
    + rewrite put_stateOf. rewrite decide_True by reflexivity. reflexivity.
  - destruct (State_eqb (state m) HalfOpen).
    + rewrite transitionToClosed_stateOf, decide_False by assumption.
      rewrite put_stateOf, decide_False by assumption. exact Hf.
    + rewrite put_stateOf, decide_False by assumption. exact Hf.
Qed.

Lemma onError_stateOf name venue now cb :
  stateOf venue (onError name now cb) = stateOf venue cb \/
  stateOf venue (onError name now cb) = Open.
Proof.
  unfold onError.
  pose proof (getMonitor_state name cb) as Hs.
  pose proof (getMonitor_stateOf name venue cb) as Hf.
  destruct (_getMonitor name cb) as [m cb']; simpl in Hs, Hf. simpl.
  destruct (failureThreshold cb' <=? failures m + 1).
  - rewrite transitionToOpen_stateOf.
    destruct (decide (name = venue)) as [->|Hne]; [right; reflexivity|].
    left. rewrite put_stateOf, decide_False by assumption. exact Hf.
  - left. rewrite put_stateOf.
    destruct (decide (name = venue)) as [->|Hne]; [|exact Hf].
    simpl. rewrite Hs. reflexivity.
Qed.

Lemma reset_stateOf name venue now cb :
  stateOf venue (reset name now cb) = stateOf venue cb \/
  stateOf venue (reset name now cb) = Closed.
Proof.
  unfold reset. destruct (monitors cb !! name); [|left; reflexivity].
  rewrite transitionToClosed_stateOf.
  destruct (decide (name = venue)); [right|left]; reflexivity.
Qed.

Lemma resetAll_stateOf venue now cb :
  stateOf venue (resetAll now cb) = stateOf venue cb \/
  stateOf venue (resetAll now cb) = Closed.
Proof.
  unfold resetAll.
  generalize (map fst (map_to_list (monitors cb))) as names.
  intros names. revert cb.
  induction names as [|n names IH]; intros cb; simpl; [left; reflexivity|].
  destruct (IH (reset n now cb)) as [H|H]; [|right; exact H].
  rewrite H. apply reset_stateOf.
Qed.

(** One public call never takes a venue into half-open from closed. *)
Lemma perform_into_half_open (c : Call) venue cb :
  stateOf venue (perform c cb) = HalfOpen ->
  stateOf venue cb = Open \/ stateOf venue cb = HalfOpen.
Proof.
  destruct c as [name now|name now|name now|name now|now]; simpl; intros H.
  - destruct (isOpen_stateOf name venue now cb) as [E|(_ & E & _)].
    + right. congruence.
    + left. exact E.
  - rewrite onSuccess_stateOf in H.
    destruct (decide (name = venue)); [|right; exact H].
    destruct (State_eqb (stateOf venue cb) HalfOpen); [discriminate|right; exact H].
  - destruct (onError_stateOf name venue now cb) as [E|E]; [right|]; congruence.
  - destruct (reset_stateOf name venue now cb) as [E|E]; [right|]; congruence.
  - destruct (resetAll_stateOf venue now cb) as [E|E]; [right|]; congruence.
Qed.

End BreakerFacts.

Section BreakerHistory.

Import CircuitBreaker.

Lemma history_head venue cb calls :
  head (history venue cb calls) = Some (stateOf venue cb).
Proof. destruct calls; reflexivity. Qed.

Lemma history_linked venue calls : forall cb,
  linked enters_from_open_or_stays (history venue cb calls).
Proof.
  induction calls as [|c rest IH]; intros cb; simpl; [exact I|].
  specialize (IH (perform c cb)).
  pose proof (history_head venue (perform c cb) rest) as Hh.
  destruct (history venue (perform c cb) rest) as [|b tl]; [exact I|].
  simpl in Hh. injection Hh as ->.
  split; [|exact IH].
  intros H. eapply perform_into_half_open; eassumption.
Qed.

Lemma changes_head (h : list State) : head (changes h) = head h.
Proof.
  induction h as [|a [|b tl] IH]; simpl; try reflexivity.
  destruct (State_eqb a b) eqn:E; [|reflexivity].
  apply State_eqb_eq in E. subst b. exact IH.
Qed.

Lemma changes_cons (a b : State) (tl : list State) :
  changes (a :: b :: tl) =
  if State_eqb a b then changes (b :: tl) else a :: changes (b :: tl).
Proof. reflexivity. Qed.

Lemma changes_linked (h : list State) :
  linked enters_from_open_or_stays h -> linked enters_from_open (changes h).
Proof.
  induction h as [|a [|b tl] IH]; try (simpl; tauto).
  intros [Hab Hrest].
  specialize (IH Hrest).
  rewrite changes_cons.
  destruct (State_eqb a b) eqn:E; [exact IH|].
  pose proof (changes_head (b :: tl)) as Hh.
  destruct (changes (b :: tl)) as [|b' tl']; [exact I|].
  simpl in Hh. injection Hh as ->.
  split; [|exact IH].
  intros ->. destruct (Hab eq_refl) as [->| ->]; [reflexivity|discriminate].
Qed.

Lemma linked_predecessor (l pre post : list State) :
  linked enters_from_open l ->
  l = pre ++ HalfOpen :: post ->
  pre <> [] ->
  exists pre', pre = pre' ++ [Open].
Proof.
  revert l. induction pre as [|a pre IH]; intros l Hl -> Hne; [congruence|].
  destruct pre as [|b pre].
  - simpl in Hl. destruct Hl as [Hab _].
    exists []. simpl. rewrite (Hab eq_refl). reflexivity.
  - destruct (IH ((b :: pre) ++ HalfOpen :: post)) as [pre' E].
    + simpl in Hl. simpl. tauto.
    + reflexivity.
    + discriminate.
    + exists (a :: pre'). rewrite E. reflexivity.
Qed.

End BreakerHistory.

(** C5.  A breaker never goes from closed to half-open directly.  Take any
    sequence of public calls ([isOpen], [onSuccess], [onError], [reset],
    [resetAll], on any venues and at any times) on a new breaker, and the
    sequence of state changes one venue goes through: wherever half-open
    occurs in it, the state just before it exists and is open. *)
Theorem half_open_is_preceded_by_open
  (options : CircuitBreaker.Options) (calls : list CircuitBreaker.Call)
  (venue : string) (pre post : list CircuitBreaker.State) :
  CircuitBreaker.changes
    (CircuitBreaker.history venue (CircuitBreaker.new options) calls)
  = pre ++ CircuitBreaker.HalfOpen :: post ->
  exists pre', pre = pre' ++ [CircuitBreaker.Open].
Proof.
  intros E.
  eapply linked_predecessor; [|exact E|].
  - apply changes_linked, history_linked.
  - intros ->. simpl in E.
    pose proof (changes_head
      (CircuitBreaker.history venue (CircuitBreaker.new options) calls)) as Hh.
    rewrite E, history_head in Hh. simpl in Hh.
    unfold CircuitBreaker.stateOf in Hh. simpl in Hh.
    rewrite lookup_empty in Hh. discriminate.
Qed.

Lemma half_open_is_preceded_by_open_witness :
  CircuitBreaker.changes
    (CircuitBreaker.history "v" (CircuitBreaker.new CircuitBreaker.no_options)
       trip_and_probe)
  = [CircuitBreaker.Closed; CircuitBreaker.Open] ++ CircuitBreaker.HalfOpen :: []
  /\ exists pre', [CircuitBreaker.Closed; CircuitBreaker.Open]
                  = pre' ++ [CircuitBreaker.Open].
Proof.
  assert (E : CircuitBreaker.changes
    (CircuitBreaker.history "v" (CircuitBreaker.new CircuitBreaker.no_options)
       trip_and_probe)
    = [CircuitBreaker.Closed; CircuitBreaker.Open] ++ CircuitBreaker.HalfOpen :: [])
    by (vm_compute; reflexivity).
  split; [exact E|].
  exact (half_open_is_preceded_by_open CircuitBreaker.no_options trip_and_probe
           "v" [CircuitBreaker.Closed; CircuitBreaker.Open] [] E).
Defined.

(** C1, as stated, fails: one success, fewer than the three the
    specification asks for, already closes a half-open breaker. *)
Lemma one_success_closes_half_open :
  CircuitBreaker.stateOf "v" half_open_breaker = CircuitBreaker.HalfOpen /\
  CircuitBreaker.stateOf "v"
    (CircuitBreaker.onSuccess "v" 71000 half_open_breaker)
  = CircuitBreaker.Closed /\
  (1 < 3)%nat.
Proof. split; [|split]; [vm_compute; reflexivity ..|lia]. Qed.

(** C1, amended.  A half-open breaker closes on the first successful call:
    [onSuccess] moves the venue to closed with [failures] and
    [consecutiveSuccesses] at zero, and leaves every other venue's state
    as it was.  No success count is kept and no threshold is consulted. *)
Theorem half_open_closes_on_first_success
  (name : string) (now : Z) (cb : CircuitBreaker.t) :
  CircuitBreaker.stateOf name cb = CircuitBreaker.HalfOpen ->
  (exists m,
     CircuitBreaker.monitors (CircuitBreaker.onSuccess name now cb) !! name = Some m /\
     CircuitBreaker.state m = CircuitBreaker.Closed /\
     CircuitBreaker.failures m = 0 /\
     CircuitBreaker.consecutiveSuccesses m = 0) /\
  (forall other, other <> name ->
     CircuitBreaker.stateOf other (CircuitBreaker.onSuccess name now cb)
     = CircuitBreaker.stateOf other cb).
Proof.
  intros H. split.
  - unfold CircuitBreaker.stateOf in H.
    unfold CircuitBreaker.onSuccess, CircuitBreaker._getMonitor.
    destruct (CircuitBreaker.monitors cb !! name) as [m|] eqn:E; [|discriminate].
    rewrite H. simpl.
    unfold CircuitBreaker._transitionToClosed, CircuitBreaker._getMonitor,
      CircuitBreaker.put. simpl.
    rewrite lookup_insert_eq. simpl.
    rewrite lookup_insert_eq. eexists. split; [reflexivity|]. simpl. auto.
  - intros other Hne. rewrite onSuccess_stateOf.
    rewrite decide_False by congruence. reflexivity.
Qed.

Lemma half_open_closes_on_first_success_witness :
  CircuitBreaker.stateOf "v" half_open_breaker = CircuitBreaker.HalfOpen /\
  CircuitBreaker.stateOf "v"
    (CircuitBreaker.onSuccess "v" 71000 half_open_breaker)
  = CircuitBreaker.Closed.
Proof.
  assert (H : CircuitBreaker.stateOf "v" half_open_breaker = CircuitBreaker.HalfOpen)
    by (vm_compute; reflexivity).
  split; [exact H|].
  destruct (half_open_closes_on_first_success "v" 71000 half_open_breaker H)
    as [(m & Hm & Hc & _) _].
  unfold CircuitBreaker.stateOf. rewrite Hm. exact Hc.
Defined.

(** ** Balance ledger *)

(** C4 fails on the code.  [getReservedBalance] matches reserve keys by
    [startsWith(key)], so a reservation of USDT is also counted against USD
    on the same venue: with 10 USD, no USD reservation and 5 USDT reserved,
    the available USD is 5 and not 10. *)
Theorem available_counts_reservations_of_a_longer_currency :
  BalanceManager.getBalance ledger_usd_usdt "safetrade" "USD" = Decimal.of_Z 10 /\
  exactReserved ledger_usd_usdt "safetrade" "USD" = Decimal.zero /\
  BalanceManager.getReservedBalance ledger_usd_usdt "safetrade" "USD" = Decimal.of_Z 5 /\
  BalanceManager.getAvailableBalance ledger_usd_usdt "safetrade" "USD" = Decimal.of_Z 5 /\
  Decimal.equals
    (BalanceManager.getAvailableBalance ledger_usd_usdt "safetrade" "USD")
    (Decimal.max
       (Decimal.minus (BalanceManager.getBalance ledger_usd_usdt "safetrade" "USD")
                      (exactReserved ledger_usd_usdt "safetrade" "USD"))
       Decimal.zero)
  = false.
Proof. repeat split; vm_compute; reflexivity. Qed.

Lemma getAvailableBalance_ext (st st' : BalanceManager.t) (exchange currency : string) :
  BalanceManager.balances st = BalanceManager.balances st' ->
  BalanceManager.reservedBalances st = BalanceManager.reservedBalances st' ->
  BalanceManager.getAvailableBalance st exchange currency
  = BalanceManager.getAvailableBalance st' exchange currency.
Proof.
  intros Hb Hr.
  unfold BalanceManager.getAvailableBalance, BalanceManager.getBalance,
    BalanceManager.getReservedBalance.
  rewrite Hb, Hr. reflexivity.
Qed.

(** C7, as stated, fails: a second reservation under an order id that
    already holds one replaces it, and the release then frees both. *)
Lemma reserve_release_of_a_reused_order_id :
  let before := ledger_one_reservation in
  let reserved := BalanceManager.reserveBalance parse_plain "safetrade" "USDT"
                    (Js.String "2") "order-1" 2000 before in
  let released := BalanceManager.releaseBalance "safetrade" "USDT" "order-1"
                    (snd reserved) in
  fst reserved = true /\
  fst released = true /\
  BalanceManager.getAvailableBalance before "safetrade" "USDT" = Decimal.of_Z 7 /\
  BalanceManager.getAvailableBalance (snd released) "safetrade" "USDT"
  = Decimal.of_Z 10.
Proof. repeat split; vm_compute; reflexivity. Qed.

(** C7, amended.  When no reservation is live under the same reserve key
    (venue, currency and order id), a successful [reserveBalance] followed
    by [releaseBalance] of that reservation succeeds and leaves totals and
    reservations as they were, so the available balance of every venue and
    currency is back at its value before the reserve. *)
Theorem reserve_then_release_restores_available
  (parse : string -> option Decimal.t) (exchange currency : string)
  (amount : Js.value) (orderId : string) (now : Z) (st st1 : BalanceManager.t) :
  BalanceManager.reservedBalances st
    !! BalanceManager.reserveKeyOf exchange currency orderId = None ->
  BalanceManager.reserveBalance parse exchange currency amount orderId now st
  = (true, st1) ->
  exists st2,
    BalanceManager.releaseBalance exchange currency orderId st1 = (true, st2) /\
    BalanceManager.balances st2 = BalanceManager.balances st /\
    BalanceManager.reservedBalances st2 = BalanceManager.reservedBalances st /\
    forall e c, BalanceManager.getAvailableBalance st2 e c
                = BalanceManager.getAvailableBalance st e c.
Proof.
  intros Hfresh Hres.
  unfold BalanceManager.reserveBalance in Hres.
  destruct (Js.toDecimal parse amount) as [reserveAmount|]; [|discriminate].
  destruct (Decimal.lessThan _ reserveAmount); [discriminate|].
  injection Hres as <-.
  unfold BalanceManager.releaseBalance. simpl.
  rewrite lookup_insert_eq.
  eexists. split; [reflexivity|]. simpl.
  rewrite delete_insert_id by exact Hfresh.
  split; [reflexivity|]. split; [reflexivity|].
  intros e c. apply getAvailableBalance_ext; reflexivity.
Qed.

Lemma reserve_then_release_restores_available_witness :
  BalanceManager.getAvailableBalance
    (snd (BalanceManager.releaseBalance "safetrade" "USDT" "order-2"
       (snd (BalanceManager.reserveBalance parse_plain "safetrade" "USDT"
               (Js.String "2") "order-2" 2000 ledger_one_reservation))))
    "safetrade" "USDT"
  = BalanceManager.getAvailableBalance ledger_one_reservation "safetrade" "USDT".
Proof.
  destruct (reserve_then_release_restores_available parse_plain "safetrade" "USDT"
              (Js.String "2") "order-2" 2000 ledger_one_reservation
              (snd (BalanceManager.reserveBalance parse_plain "safetrade" "USDT"
                      (Js.String "2") "order-2" 2000 ledger_one_reservation)))
    as (st2 & Hrel & _ & _ & Hav).
  - vm_compute. reflexivity.
  - vm_compute. reflexivity.
  - rewrite Hrel. apply Hav.
Defined.

(** ** Decimal comparisons *)

Section DecimalOrder.

Import Decimal.

Ltac compare_rationals :=
  repeat match goal with
         | |- context [(?a ?= ?b)%Q] => destruct (Qcompare_spec a b)
         | H : context [(?a ?= ?b)%Q] |- _ => destruct (Qcompare_spec a b)
         end;
  try discriminate; try reflexivity; try lra.

Ltac by_cases_on x := destruct x as [| [|] |?]; simpl in *; try discriminate.

Lemma equals_within_bounds (d lo hi : t) :
  lte lo hi = true -> equals d hi = true ->
  gte d lo = true /\ lte d hi = true.
Proof.
  unfold lte, gte, equals, cmp.
  by_cases_on d; by_cases_on lo; by_cases_on hi; intros; split;
    try reflexivity; try discriminate; compare_rationals.
Qed.

Lemma equals_lower_within_bounds (d lo hi : t) :
  lte lo hi = true -> equals d lo = true ->
  gte d lo = true /\ lte d hi = true.
Proof.
  unfold lte, gte, equals, cmp.
  by_cases_on d; by_cases_on lo; by_cases_on hi; intros; split;
    try reflexivity; try discriminate; compare_rationals.
Qed.

Lemma greaterThan_not_lte (d hi : t) :
  greaterThan d hi = true -> lte d hi = false.
Proof.
  unfold greaterThan, lte.
  destruct (cmp d hi) as [[| |]|]; intros; try discriminate; reflexivity.
Qed.

Lemma isZero_not_gte_positive (d lo : t) :
  isZero d = true -> greaterThan lo zero = true -> gte d lo = false.
Proof.
  unfold isZero, greaterThan, gte, zero, cmp, Qzero_b.
  by_cases_on d; by_cases_on lo; intros; try reflexivity; try discriminate;
    compare_rationals.
Qed.

Lemma lessThan_zero_not_positive (d : t) :
  lessThan d zero = true -> isPositive d = false.
Proof.
  unfold lessThan, isPositive, zero, cmp, Qneg_b.
  by_cases_on d; intros; try reflexivity; try discriminate; compare_rationals.
Qed.

End DecimalOrder.

(** ** Price validation *)

(** C9.  The price range is closed at both ends.  Take a price that reads
    as the Decimal [d] and passes the other checks (valid number, deviation
    against the recent prices, freshness), under a configuration with
    [minPrice <= maxPrice].  If [d] equals [maxPrice], or equals
    [minPrice], [validatePrice] returns [true]; if [d] is greater than
    [maxPrice] it returns [false]. *)
Theorem price_range_is_closed
  (parse : string -> option Decimal.t) (config : PriceValidator.Config)
  (now : Z) (price : Js.value) (d : Decimal.t)
  (context : PriceValidator.Context)
  (priceHistory : gmap string (list PriceValidator.Entry)) :
  Js.toDecimal parse price = Some d ->
  PriceValidator._isValidNumber parse price = true ->
  PriceValidator._isWithinDeviation parse config price
    (PriceValidator.recentPrices context) = Some true ->
  (forall ts, PriceValidator.timestamp context = Some ts -> ts <> 0 ->
              PriceValidator._isPriceFresh config now ts = true) ->
  Decimal.lte (PriceValidator.minPrice config) (PriceValidator.maxPrice config) = true ->
  (Decimal.equals d (PriceValidator.maxPrice config) = true ->
   fst (PriceValidator.validatePrice parse config now price (Some context) priceHistory)
   = true) /\
  (Decimal.equals d (PriceValidator.minPrice config) = true ->
   fst (PriceValidator.validatePrice parse config now price (Some context) priceHistory)
   = true) /\
  (Decimal.greaterThan d (PriceValidator.maxPrice config) = true ->
   fst (PriceValidator.validatePrice parse config now price (Some context) priceHistory)
   = false).
Proof.
  intros Hd Hvalid Hdev Hfresh Hrange.
  assert (Haccept :
    Decimal.gte d (PriceValidator.minPrice config) = true /\
    Decimal.lte d (PriceValidator.maxPrice config) = true ->
    fst (PriceValidator.validatePrice parse config now price (Some context) priceHistory)
    = true).
  { intros [Hlo Hhi].
    unfold PriceValidator.validatePrice, PriceValidator.validatePrice_try.
    rewrite Hvalid. simpl.
    unfold PriceValidator._isWithinRange. rewrite Hd, Hlo, Hhi. simpl.
    rewrite Hdev.
    destruct (PriceValidator.timestamp context) as [ts|] eqn:Ets; [|reflexivity].
    destruct (Z.eqb_spec ts 0) as [->|Hne]; [reflexivity|].
    rewrite (Hfresh ts eq_refl Hne). reflexivity. }
  split; [|split].
  - intros He. apply Haccept. eapply equals_within_bounds; eassumption.
  - intros He. apply Haccept. eapply equals_lower_within_bounds; eassumption.
  - intros Hgt.
    unfold PriceValidator.validatePrice, PriceValidator.validatePrice_try.
    rewrite Hvalid. simpl.
    unfold PriceValidator._isWithinRange.
    rewrite Hd, (greaterThan_not_lte _ _ Hgt), andb_false_r. reflexivity.
Qed.

Lemma price_range_is_closed_witness :
  fst (PriceValidator.validatePrice parse_plain default_config 5000
         (Js.String "1000000") (Some PriceValidator.empty_context) ∅) = true /\
  fst (PriceValidator.validatePrice parse_plain default_config 5000
         (Js.Number (Decimal.Fin (1 # 100000))) (Some PriceValidator.empty_context) ∅)
  = true /\
  fst (PriceValidator.validatePrice parse_plain default_config 5000
         (Js.String "1000001") (Some PriceValidator.empty_context) ∅) = false.
Proof.
  assert (Hfresh : forall ts,
            PriceValidator.timestamp PriceValidator.empty_context = Some ts ->
            ts <> 0 -> PriceValidator._isPriceFresh default_config 5000 ts = true)
    by (intros ts Hts; discriminate).
  split; [|split].
  - apply (proj1 (price_range_is_closed parse_plain default_config 5000
             (Js.String "1000000") (Decimal.of_Z 1000000)
             PriceValidator.empty_context ∅
             eq_refl eq_refl eq_refl Hfresh eq_refl)).
    reflexivity.
  - apply (proj1 (proj2 (price_range_is_closed parse_plain default_config 5000
             (Js.Number (Decimal.Fin (1 # 100000))) (Decimal.Fin (1 # 100000))
             PriceValidator.empty_context ∅
             eq_refl eq_refl eq_refl Hfresh eq_refl))).
    reflexivity.
  - apply (proj2 (proj2 (price_range_is_closed parse_plain default_config 5000
             (Js.String "1000001") (Decimal.of_Z 1000001)
             PriceValidator.empty_context ∅
             eq_refl eq_refl eq_refl Hfresh eq_refl))).
    reflexivity.
Defined.

Lemma validatePrice_false_keeps_history
  (parse : string -> option Decimal.t) (config : PriceValidator.Config)
  (now : Z) (price : Js.value) (context : option PriceValidator.Context)
  (priceHistory : gmap string (list PriceValidator.Entry)) :
  fst (PriceValidator.validatePrice parse config now price context priceHistory) = false ->
  snd (PriceValidator.validatePrice parse config now price context priceHistory)
  = priceHistory.
Proof.
  unfold PriceValidator.validatePrice, PriceValidator.validatePrice_try.
  destruct (PriceValidator._isValidNumber parse price); simpl; [|reflexivity].
  destruct (PriceValidator._isWithinRange parse config price) as [[|]|];
    simpl; try reflexivity.
  destruct context as [context|]; simpl; [|reflexivity].
  destruct (PriceValidator._isWithinDeviation parse config price _) as [[|]|];
    simpl; try reflexivity.
  destruct (PriceValidator.timestamp context) as [ts|]; simpl; [|discriminate].
  destruct (negb (ts =? 0) && negb (PriceValidator._isPriceFresh config now ts));
    simpl; [reflexivity|discriminate].
Qed.

Lemma invalid_number_is_rejected
  (parse : string -> option Decimal.t) (config : PriceValidator.Config)
  (now : Z) (price : Js.value) (context : option PriceValidator.Context)
  (priceHistory : gmap string (list PriceValidator.Entry)) :
  PriceValidator._isValidNumber parse price = false ->
  PriceValidator.validatePrice parse config now price context priceHistory
  = (false, priceHistory).
Proof.
  intros H. unfold PriceValidator.validatePrice, PriceValidator.validatePrice_try.
  rewrite H. reflexivity.
Qed.

(** C10.  [validatePrice] is total: on every price, context, clock and
    history it returns a boolean and a history, an exception of its body
    being caught and answered [false].  Whenever it returns [false] the
    history is the one it was given.  It returns [false] on a price that
    [new Decimal] refuses (a non-numeric string, [undefined], [null], an
    object), on NaN, on a negative number and on an infinity, whatever the
    configuration; and on zero whenever the configured [minPrice] is
    positive, as it is by default. *)
Theorem validatePrice_rejects_malformed_input
  (parse : string -> option Decimal.t) (config : PriceValidator.Config)
  (now : Z) (price : Js.value) (context : option PriceValidator.Context)
  (priceHistory : gmap string (list PriceValidator.Entry)) :
  let result :=
    PriceValidator.validatePrice parse config now price context priceHistory in
  (fst result = false -> snd result = priceHistory) /\
  (PriceValidator.validatePrice_try parse config now price context priceHistory = None ->
   result = (false, priceHistory)) /\
  (Js.toDecimal parse price = None -> result = (false, priceHistory)) /\
  (forall d, Js.toDecimal parse price = Some d ->
     Decimal.isNaN d = true \/ Decimal.lessThan d Decimal.zero = true \/
     Decimal.isFinite d = false ->
     result = (false, priceHistory)) /\
  (forall d, Js.toDecimal parse price = Some d ->
     Decimal.isZero d = true ->
     Decimal.greaterThan (PriceValidator.minPrice config) Decimal.zero = true ->
     result = (false, priceHistory)).
Proof.
  cbv zeta. split; [apply validatePrice_false_keeps_history|].
  split; [intros H; unfold PriceValidator.validatePrice; rewrite H; reflexivity|].
  split; [|split].
  - intros H. apply invalid_number_is_rejected.
    unfold PriceValidator._isValidNumber. rewrite H. reflexivity.
  - intros d Hd Hbad. apply invalid_number_is_rejected.
    unfold PriceValidator._isValidNumber. rewrite Hd.
    destruct Hbad as [H|[H|H]].
    + destruct d; try discriminate. reflexivity.
    + rewrite (lessThan_zero_not_positive _ H). reflexivity.
    + rewrite H. apply andb_false_r.
  - intros d Hd Hz Hmin.
    unfold PriceValidator.validatePrice, PriceValidator.validatePrice_try.
    destruct (PriceValidator._isValidNumber parse price); simpl; [|reflexivity].
    unfold PriceValidator._isWithinRange. rewrite Hd.
    rewrite (isZero_not_gte_positive _ _ Hz Hmin). reflexivity.
Qed.

Lemma validatePrice_rejects_malformed_input_witness :
  let reject price context :=
    PriceValidator.validatePrice parse_plain default_config 5000 price context ∅
    = (false, ∅) in
  reject (Js.String "abc") (Some PriceValidator.empty_context) /\
  reject Js.Undefined None /\
  reject (Js.Number Decimal.NaN) (Some PriceValidator.empty_context) /\
  reject (Js.Number (Decimal.Fin (-1))) (Some PriceValidator.empty_context) /\
  reject (Js.Number (Decimal.Inf false)) (Some PriceValidator.empty_context) /\
  reject (Js.String "0") (Some PriceValidator.empty_context).
Proof.
  cbv zeta.
  pose proof (fun price context =>
    validatePrice_rejects_malformed_input parse_plain default_config 5000
      price context ∅) as H.
  cbv zeta in H.
  refine (conj _ (conj _ (conj _ (conj _ (conj _ _))))).
  - destruct (H (Js.String "abc") (Some PriceValidator.empty_context))
      as (_ & _ & Hnone & _).
    apply Hnone. reflexivity.
  - destruct (H Js.Undefined None) as (_ & _ & Hnone & _).
    apply Hnone. reflexivity.
  - destruct (H (Js.Number Decimal.NaN) (Some PriceValidator.empty_context))
      as (_ & _ & _ & Hbad & _).
    apply (Hbad Decimal.NaN eq_refl). left. reflexivity.
  - destruct (H (Js.Number (Decimal.Fin (-1))) (Some PriceValidator.empty_context))
      as (_ & _ & _ & Hbad & _).
    apply (Hbad (Decimal.Fin (-1)) eq_refl). right. left. reflexivity.
  - destruct (H (Js.Number (Decimal.Inf false)) (Some PriceValidator.empty_context))
      as (_ & _ & _ & Hbad & _).
    apply (Hbad (Decimal.Inf false) eq_refl). right. right. reflexivity.
  - destruct (H (Js.String "0") (Some PriceValidator.empty_context))
      as (_ & _ & _ & _ & Hzero).
    apply (Hzero (Decimal.of_Z 0) eq_refl); reflexivity.
Defined.

(** ** Opportunity detection *)

(** C2 fails on the code.  [_calculateSpread] returns the spread in
    percent and [_checkPair] compares it with [minSpreadPercent / 100]: the
    gate is a hundred times too low.  With a relative spread of 0.4%, below
    the configured 0.5%, the pair passes the spread, volume and profit
    checks and [detectArbitrage] emits it, its [spread] field 0.4 being
    below [minSpreadPercent]. *)
Theorem opportunity_emitted_below_min_spread :
  let emitted :=
    ArbitrageDetector.detectArbitrage parse_plain low_slippage_config 2000
      [("safetrade"%string, price_on_safetrade);
       ("tradeogre"%string, price_on_tradeogre)] in
  ArbitrageDetector.minSpreadPercent low_slippage_config = Decimal.Fin (5 # 10) /\
  (exists o, emitted = [o] /\
     ArbitrageDetector.buyExchange o = "safetrade"%string /\
     ArbitrageDetector.sellExchange o = "tradeogre"%string /\
     Decimal.equals (ArbitrageDetector.spread o) (Decimal.Fin (4 # 10)) = true /\
     Decimal.lessThan (ArbitrageDetector.spread o)
       (ArbitrageDetector.minSpreadPercent low_slippage_config) = true).
Proof.
  cbv zeta. split; [reflexivity|].
  eexists. split; [vm_compute; reflexivity|].
  repeat split.
Qed.

(** ** Depth analysis *)

Section DepthFacts.

Import MarketDepthAnalyzer.

Variable parse : string -> option Decimal.t.







End DepthFacts.

Section DepthAnalysis.

Import MarketDepthAnalyzer.

Variable parse : string -> option Decimal.t.



End DepthAnalysis.


Section ExecutableFinite.

Import MarketDepthAnalyzer.


End ExecutableFinite.




(** ** Trade execution *)

Section ExecutorFacts.

Import TradeExecutor.

Variable parse : string -> option Decimal.t.

Lemma active_app (l1 l2 : list Stage) : active (l1 ++ l2) = (active l1 + active l2)%nat.
Proof. induction l1 as [|x l1 IH]; simpl; [reflexivity|]. rewrite IH. lia. Qed.

Lemma active_insert (l : list Stage) (i : nat) (old new : Stage) :
  l !! i = Some old ->
  (active (<[i := new]> l) + (if in_progress old then 1 else 0)
   = active l + (if in_progress new then 1 else 0))%nat.
Proof.
  revert i. induction l as [|x l IH]; intros [|i] H; simpl in *; try discriminate.
  - injection H as ->. lia.
  - specialize (IH i H). lia.
Qed.

Lemma active_lookup (l : list Stage) (i : nat) (stage : Stage) :
  l !! i = Some stage -> in_progress stage = true -> (1 <= active l)%nat.
Proof.
  revert i. induction l as [|x l IH]; intros [|i] H Hp; simpl in *; try discriminate.
  - injection H as ->. rewrite Hp. lia.
  - specialize (IH i H Hp). lia.
Qed.

Lemma resume_in_progress (stage : Stage) (response : Response) (now : Z) r :
  resume parse stage response now = Some r -> in_progress stage = true.
Proof. destruct stage; simpl; try reflexivity. destruct response; discriminate. Qed.

Lemma act_serialized (a : Action) (s : System) :
  serialized s -> serialized (act parse a s).
Proof.
  intros Hs. destruct a as [opportunity now|task response now]; simpl.
  - unfold executeArbitrage, serialized.
    destruct Hs as [[Hf Ha]|[Hf Ha]]; rewrite Hf; simpl; left;
      rewrite active_app, Ha; simpl; auto.
  - destruct (tasks s !! task) as [stage|] eqn:Et; [|exact Hs].
    destruct (resume parse stage response now) as [[effects stage']|] eqn:Er;
      [|exact Hs].
    pose proof (resume_in_progress _ _ _ _ Er) as Hp.
    pose proof (active_insert (tasks s) task stage stage' Et) as Hi.
    pose proof (active_lookup (tasks s) task stage Et Hp) as Hl.
    rewrite Hp in Hi.
    destruct Hs as [[Hf Ha]|[Hf Ha]]; [|lia].
    unfold serialized. simpl.
    destruct (in_progress stage'); [left|right]; split; auto; lia.
Qed.

Lemma run_serialized (actions : list Action) : forall s,
  serialized s -> serialized (run parse actions s).
Proof.
  induction actions as [|a rest IH]; intros s Hs; simpl; [exact Hs|].
  apply IH, act_serialized, Hs.
Qed.

End ExecutorFacts.

(** C8.  Executions are serialized.  After any sequence of calls of
    [executeArbitrage] and of settlements of the promises they await, at
    most one call is in progress; and while one is, a further call returns
    [false] at once: it logs that an execution is already in progress,
    places no call on the order manager or any other collaborator, and
    leaves the flag and the running execution as they are. *)
Theorem executions_are_serialized
  (parse : string -> option Decimal.t) (actions : list TradeExecutor.Action)
  (opportunity : TradeExecutor.Opportunity) (now : Z) :
  let s := TradeExecutor.run parse actions TradeExecutor.initial in
  let s' := TradeExecutor.act parse (TradeExecutor.Invoke opportunity now) s in
  let second := length (TradeExecutor.tasks s) in
  (active (TradeExecutor.tasks s) <= 1)%nat /\
  (active (TradeExecutor.tasks s) = 1%nat ->
   TradeExecutor.tasks s' = TradeExecutor.tasks s ++ [TradeExecutor.Finished false] /\
   TradeExecutor.trace s'
   = TradeExecutor.trace s ++
     [(second, TradeExecutor.Log TradeExecutor.info "Starting arbitrage execution");
      (second, TradeExecutor.Log TradeExecutor.warn
                 "Trade execution already in progress")] /\
   TradeExecutor.requests
     (map snd (drop (length (TradeExecutor.trace s)) (TradeExecutor.trace s'))) = [] /\
   TradeExecutor.isExecuting s' = TradeExecutor.isExecuting s /\
   active (TradeExecutor.tasks s') = 1%nat).
Proof.
  cbv zeta.
  assert (Hs : serialized (TradeExecutor.run parse actions TradeExecutor.initial)).
  { apply run_serialized. right. split; reflexivity. }
  set (s := TradeExecutor.run parse actions TradeExecutor.initial) in *.
  split; [destruct Hs as [[_ Ha]|[_ Ha]]; lia|].
  intros Hone.
  destruct Hs as [[Hf Ha]|[Hf Ha]]; [|lia].
  simpl. unfold TradeExecutor.executeArbitrage. rewrite Hf. simpl.
  split; [reflexivity|]. split; [reflexivity|].
  split; [rewrite drop_app_length; reflexivity|].
  split; [reflexivity|].
  rewrite active_app, Ha. reflexivity.
Qed.

Lemma executions_are_serialized_witness :
  let s := TradeExecutor.run parse_plain
             [TradeExecutor.Invoke sample_opportunity 1000;
              TradeExecutor.Deliver 0 (TradeExecutor.CurrentPrice (Some (Decimal.Fin 1)))
                1010]
             TradeExecutor.initial in
  let s' := TradeExecutor.act parse_plain
              (TradeExecutor.Invoke sample_opportunity 1020) s in
  active (TradeExecutor.tasks s) = 1%nat /\
  TradeExecutor.tasks s' = TradeExecutor.tasks s ++ [TradeExecutor.Finished false] /\
  TradeExecutor.isExecuting s' = true.
Proof.
  cbv zeta.
  pose proof (executions_are_serialized parse_plain
                [TradeExecutor.Invoke sample_opportunity 1000;
                 TradeExecutor.Deliver 0
                   (TradeExecutor.CurrentPrice (Some (Decimal.Fin 1))) 1010]
                sample_opportunity 1020) as H.
  cbv zeta in H. destruct H as [_ H].
  assert (Hone : active (TradeExecutor.tasks
            (TradeExecutor.run parse_plain
               [TradeExecutor.Invoke sample_opportunity 1000;
                TradeExecutor.Deliver 0
                  (TradeExecutor.CurrentPrice (Some (Decimal.Fin 1))) 1010]
               TradeExecutor.initial)) = 1%nat) by reflexivity.
  destruct (H Hone) as (Ht & _ & _ & Hf & _).
  split; [exact Hone|]. split; [exact Ht|]. rewrite Hf. reflexivity.
Defined.




(* ===================================================================== *)
(** * Part IV: further properties of the same components                  *)
(* ===================================================================== *)

Section BreakerThreshold.
Import CircuitBreaker.

Lemma onError_monitor venue now cb :
  let m := fst (_getMonitor venue cb) in
  failureThreshold (onError venue now cb) = failureThreshold cb /\
  exists m', monitors (onError venue now cb) !! venue = Some m' /\
    failures m' = failures m + 1 /\
    state m' = if failureThreshold cb <=? failures m + 1 then Open else state m.
Proof.
  cbv zeta. unfold onError, _getMonitor.
  destruct (monitors cb !! venue) as [m|] eqn:E; simpl.
  - destruct (failureThreshold cb <=? failures m + 1) eqn:Et.
    + unfold _transitionToOpen, _getMonitor, put. simpl.
      rewrite lookup_insert_eq. simpl. split; [reflexivity|].
      rewrite lookup_insert_eq. eexists. split; [reflexivity|]. simpl. auto.
    + unfold put. simpl. split; [reflexivity|].
      rewrite lookup_insert_eq. eexists. split; [reflexivity|]. simpl. auto.
  - destruct (failureThreshold cb <=? 0 + 1) eqn:Et.
    + unfold _transitionToOpen, _getMonitor, put. simpl.
      rewrite lookup_insert_eq. simpl. split; [reflexivity|].
      rewrite lookup_insert_eq. eexists. split; [reflexivity|]. simpl. auto.
    + unfold put. simpl. split; [reflexivity|].
      rewrite lookup_insert_eq. eexists. split; [reflexivity|]. simpl. auto.
Qed.

Lemma errors_count venue times : forall cb m,
  monitors cb !! venue = Some m ->
  1 <= failureThreshold cb ->
  state m = (if failureThreshold cb <=? failures m then Open else Closed) ->
  stateOf venue (errors venue times cb)
  = if failureThreshold cb <=? failures m + Z.of_nat (length times) then Open else Closed.
Proof.
  induction times as [|now times IH]; intros cb m Hm Hthr Hst.
  - simpl. unfold stateOf. rewrite Hm, Z.add_0_r. exact Hst.
  - simpl errors. unfold errors in *. simpl fold_left.
    destruct (onError_monitor venue now cb) as (Hthr' & m' & Hm' & Hf & Hs).
    unfold _getMonitor in Hf, Hs. rewrite Hm in Hf, Hs. simpl in Hf, Hs.
    rewrite (IH _ m' Hm'); rewrite ?Hthr'; try assumption.
    + rewrite Hf. replace (failures m + 1 + Z.of_nat (length times))
        with (failures m + Z.of_nat (length (now :: times))) by (simpl length; lia).
      reflexivity.
    + rewrite Hs, Hf, Hst.
      destruct (Z.leb_spec (failureThreshold cb) (failures m + 1));
      destruct (Z.leb_spec (failureThreshold cb) (failures m)); try reflexivity; lia.
Qed.
End BreakerThreshold.

(** X1 (boundary B2 of the specification).  On a new breaker whose
    threshold is at least one, a run of [onError] calls for one venue
    leaves it open exactly when the run is at least [failureThreshold]
    long: the threshold-th consecutive failure opens the breaker and one
    fewer keeps it closed. *)
Theorem breaker_opens_at_the_threshold
  (options : CircuitBreaker.Options) (venue : string) (times : list Z) :
  1 <= CircuitBreaker.failureThreshold (CircuitBreaker.new options) ->
  CircuitBreaker.stateOf venue (errors venue times (CircuitBreaker.new options))
  = if CircuitBreaker.failureThreshold (CircuitBreaker.new options)
       <=? Z.of_nat (length times)
    then CircuitBreaker.Open else CircuitBreaker.Closed.
Proof.
  intros Hthr.
  remember (CircuitBreaker.new options) as cb0 eqn:Ecb.
  assert (Hempty : CircuitBreaker.monitors cb0 !! venue = None)
    by (subst cb0; apply lookup_empty).
  destruct times as [|now times].
  - unfold errors, CircuitBreaker.stateOf. simpl. rewrite Hempty.
    destruct (Z.leb_spec (CircuitBreaker.failureThreshold cb0) (Z.of_nat 0));
      [simpl in *; lia|reflexivity].
  - unfold errors. simpl fold_left.
    destruct (onError_monitor venue now cb0) as (Hthr' & m' & Hm' & Hf & Hs).
    unfold CircuitBreaker._getMonitor in Hf, Hs. rewrite Hempty in Hf, Hs.
    simpl in Hf, Hs.
    fold (errors venue times (CircuitBreaker.onError venue now cb0)).
    rewrite (errors_count venue times _ m' Hm'); rewrite ?Hthr'; try assumption.
    + rewrite Hf.
      replace (0 + 1 + Z.of_nat (length times))
        with (Z.of_nat (length (now :: times))) by (simpl length; lia).
      reflexivity.
    + rewrite Hs, Hf. reflexivity.
Qed.

Lemma breaker_opens_at_the_threshold_witness :
  CircuitBreaker.stateOf "v"
    (errors "v" [1000; 2000; 3000; 4000; 5000]
       (CircuitBreaker.new CircuitBreaker.no_options)) = CircuitBreaker.Open /\
  CircuitBreaker.stateOf "v"
    (errors "v" [1000; 2000; 3000; 4000]
       (CircuitBreaker.new CircuitBreaker.no_options)) = CircuitBreaker.Closed.
Proof.
  split.
  - apply (breaker_opens_at_the_threshold CircuitBreaker.no_options "v"
             [1000; 2000; 3000; 4000; 5000]). simpl. lia.
  - apply (breaker_opens_at_the_threshold CircuitBreaker.no_options "v"
             [1000; 2000; 3000; 4000]). simpl. lia.
Defined.

(** X2 (scenario S6 of the specification).  A reservation made under a
    fresh key, with no other timer pending, is untouched by the event loop
    before its timeout; once [reserveTimeoutMs] has elapsed the timer
    removes it, emits [reserveTimeout] with the reserved amount, and every
    available balance is back at its value before the reserve. *)
Theorem reservation_expires_after_the_timeout
  (parse : string -> option Decimal.t) (exchange currency : string)
  (amount : Js.value) (orderId : string) (now later : Z)
  (st st1 : BalanceManager.t) :
  BalanceManager.timers st = [] ->
  BalanceManager.reservedBalances st
    !! BalanceManager.reserveKeyOf exchange currency orderId = None ->
  BalanceManager.reserveBalance parse exchange currency amount orderId now st
  = (true, st1) ->
  (later < now + BalanceManager.reserveTimeoutMs st ->
   BalanceManager.runTimers later st1 = st1) /\
  (now + BalanceManager.reserveTimeoutMs st <= later ->
   BalanceManager.reservedBalances (BalanceManager.runTimers later st1)
   = BalanceManager.reservedBalances st /\
   BalanceManager.balances (BalanceManager.runTimers later st1)
   = BalanceManager.balances st /\
   BalanceManager.timers (BalanceManager.runTimers later st1) = [] /\
   (forall e c,
      BalanceManager.getAvailableBalance (BalanceManager.runTimers later st1) e c
      = BalanceManager.getAvailableBalance st e c) /\
   exists reserved,
     Js.toDecimal parse amount = Some reserved /\
     BalanceManager.emitted (BalanceManager.runTimers later st1)
     = BalanceManager.emitted st1
       ++ [BalanceManager.ReserveTimeout exchange currency orderId reserved]).
Proof.
  intros Htimers Hfresh Hres.
  unfold BalanceManager.reserveBalance in Hres.
  destruct (Js.toDecimal parse amount) as [reserveAmount|]; [|discriminate].
  destruct (Decimal.lessThan _ reserveAmount); [discriminate|].
  injection Hres as <-.
  unfold BalanceManager.runTimers, BalanceManager._setReserveTimeout.
  cbn [BalanceManager.timers BalanceManager.emit BalanceManager.with_timers
       BalanceManager.with_reserved BalanceManager.reserveTimeoutMs].
  rewrite Htimers. cbn [app partition BalanceManager.due].
  split; intros Hcmp.
  - destruct (Z.leb_spec (now + BalanceManager.reserveTimeoutMs st) later); [lia|].
    simpl. unfold BalanceManager.with_timers. simpl. reflexivity.
  - destruct (Z.leb_spec (now + BalanceManager.reserveTimeoutMs st) later); [|lia].
    simpl. unfold BalanceManager.reserveTimeoutElapsed. simpl.
    rewrite lookup_insert_eq. simpl.
    rewrite delete_insert_id by exact Hfresh.
    split; [reflexivity|]. split; [reflexivity|]. split; [reflexivity|].
    split; [intros e c; apply getAvailableBalance_ext; reflexivity|].
    eexists. split; reflexivity.
Qed.

Lemma reservation_expires_after_the_timeout_witness :
  BalanceManager.getAvailableBalance
    (BalanceManager.runTimers 31000
       (snd (BalanceManager.reserveBalance parse_plain "safetrade" "USDT"
               (Js.String "3") "order-1" 1000 ledger_without_reservation)))
    "safetrade" "USDT"
  = BalanceManager.getAvailableBalance ledger_without_reservation "safetrade" "USDT".
Proof.
  refine (proj1 (proj2 (proj2 (proj2
    (proj2 (reservation_expires_after_the_timeout parse_plain "safetrade" "USDT"
              (Js.String "3") "order-1" 1000 31000 ledger_without_reservation
              (snd (BalanceManager.reserveBalance parse_plain "safetrade" "USDT"
                      (Js.String "3") "order-1" 1000 ledger_without_reservation))
              _ _ _) _)))) "safetrade" "USDT").
  - reflexivity.
  - vm_compute. reflexivity.
  - vm_compute. reflexivity.
  - vm_compute. discriminate.
Defined.





(** ** Circuit breaker *)

Section BreakerMonitors.
Import CircuitBreaker.

Implicit Types (cb : CircuitBreaker.t) (name venue other : string) (now : Z).

Lemma getMonitor_fst name cb : fst (_getMonitor name cb) = monitor_of name cb.
Proof. unfold _getMonitor, monitor_of. destruct (monitors cb !! name); reflexivity. Qed.

Lemma getMonitor_lookup name cb :
  monitors (snd (_getMonitor name cb)) !! name = Some (monitor_of name cb).
Proof.
  unfold _getMonitor, monitor_of.
  destruct (monitors cb !! name) eqn:E; simpl; [exact E|apply lookup_insert_eq].
Qed.

Lemma getMonitor_other name other cb :
  name <> other ->
  monitors (snd (_getMonitor name cb)) !! other = monitors cb !! other.
Proof.
  intros Hne. unfold _getMonitor.
  destruct (monitors cb !! name); simpl; [reflexivity|].
  apply lookup_insert_ne. exact Hne.
Qed.

Lemma getMonitor_settings name cb :
  failureThreshold (snd (_getMonitor name cb)) = failureThreshold cb /\
  resetTimeout (snd (_getMonitor name cb)) = resetTimeout cb /\
  lastStateChange (snd (_getMonitor name cb)) = lastStateChange cb /\
  emitted (snd (_getMonitor name cb)) = emitted cb.
Proof. unfold _getMonitor. destruct (monitors cb !! name); simpl; auto. Qed.

Lemma onError_lookup name now cb :
  monitors (onError name now cb) !! name
  = Some (mkMonitor (failures (monitor_of name cb) + 1)
            (if failureThreshold cb <=? failures (monitor_of name cb) + 1
             then Open else state (monitor_of name cb))
            now (consecutiveSuccesses (monitor_of name cb))).
Proof.
  unfold onError.
  pose proof (getMonitor_fst name cb) as Hm.
  destruct (getMonitor_settings name cb) as (Ht & _).
  destruct (_getMonitor name cb) as [m cb']. simpl in Hm, Ht. subst m.
  cbn [failures state lastFailure consecutiveSuccesses put failureThreshold with_monitors].
  rewrite Ht.
  destruct (failureThreshold cb <=? failures (monitor_of name cb) + 1).
  - unfold _transitionToOpen, _getMonitor, put. simpl.
    rewrite lookup_insert_eq. simpl. rewrite lookup_insert_eq. reflexivity.
  - simpl. rewrite lookup_insert_eq. reflexivity.
Qed.

Lemma onError_other name other now cb :
  name <> other ->
  monitors (onError name now cb) !! other = monitors cb !! other /\
  lastStateChange (onError name now cb) !! other = lastStateChange cb !! other.
Proof.
  intros Hne. unfold onError.
  pose proof (getMonitor_other name other cb Hne) as Ho.
  destruct (getMonitor_settings name cb) as (_ & _ & Hl & _).
  destruct (_getMonitor name cb) as [m cb']. simpl in Ho, Hl.
  cbn [failures state lastFailure consecutiveSuccesses put failureThreshold with_monitors].
  destruct (failureThreshold cb' <=? failures m + 1).
  - unfold _transitionToOpen, _getMonitor, put. simpl.
    rewrite lookup_insert_eq. simpl.
    rewrite !lookup_insert_ne by exact Hne. rewrite Hl. auto.
  - simpl. rewrite lookup_insert_ne by exact Hne. rewrite Hl. auto.
Qed.

Lemma onError_settings name now cb :
  failureThreshold (onError name now cb) = failureThreshold cb /\
  resetTimeout (onError name now cb) = resetTimeout cb.
Proof.
  unfold onError.
  destruct (getMonitor_settings name cb) as (Ht & Hr & _).
  destruct (_getMonitor name cb) as [m cb']. simpl in Ht, Hr.
  cbn [failures state lastFailure consecutiveSuccesses put failureThreshold with_monitors].
  destruct (failureThreshold cb' <=? failures m + 1).
  - unfold _transitionToOpen, _getMonitor, put. simpl.
    rewrite lookup_insert_eq. simpl. auto.
  - simpl. auto.
Qed.

Lemma onSuccess_lookup name now cb :
  monitors (onSuccess name now cb) !! name
  = Some (mkMonitor 0
            (if State_eqb (state (monitor_of name cb)) HalfOpen
             then Closed else state (monitor_of name cb))
            (lastFailure (monitor_of name cb))
            (if State_eqb (state (monitor_of name cb)) HalfOpen
             then 0 else consecutiveSuccesses (monitor_of name cb))).
Proof.
  unfold onSuccess.
  pose proof (getMonitor_fst name cb) as Hm.
  destruct (_getMonitor name cb) as [m cb']. simpl in Hm. subst m.
  cbn [failures state lastFailure consecutiveSuccesses put with_monitors].
  destruct (State_eqb (state (monitor_of name cb)) HalfOpen).
  - unfold _transitionToClosed, _getMonitor, put. simpl.
    rewrite lookup_insert_eq. simpl. rewrite lookup_insert_eq. reflexivity.
  - simpl. rewrite lookup_insert_eq. reflexivity.
Qed.

Lemma onSuccess_other name other now cb :
  name <> other ->
  monitors (onSuccess name now cb) !! other = monitors cb !! other /\
  lastStateChange (onSuccess name now cb) !! other = lastStateChange cb !! other.
Proof.
  intros Hne. unfold onSuccess.
  pose proof (getMonitor_other name other cb Hne) as Ho.
  destruct (getMonitor_settings name cb) as (_ & _ & Hl & _).
  destruct (_getMonitor name cb) as [m cb']. simpl in Ho, Hl.
  cbn [failures state lastFailure consecutiveSuccesses put with_monitors].
  destruct (State_eqb (state m) HalfOpen).
  - unfold _transitionToClosed, _getMonitor, put. simpl.
    rewrite lookup_insert_eq. simpl.
    rewrite !lookup_insert_ne by exact Hne. rewrite Hl. auto.
  - simpl. rewrite lookup_insert_ne by exact Hne. rewrite Hl. auto.
Qed.

Lemma onSuccess_settings name now cb :
  failureThreshold (onSuccess name now cb) = failureThreshold cb /\
  resetTimeout (onSuccess name now cb) = resetTimeout cb.
Proof.
  unfold onSuccess.
  destruct (getMonitor_settings name cb) as (Ht & Hr & _).
  destruct (_getMonitor name cb) as [m cb']. simpl in Ht, Hr.
  cbn [failures state lastFailure consecutiveSuccesses put with_monitors].
  destruct (State_eqb (state m) HalfOpen).
  - unfold _transitionToClosed, _getMonitor, put. simpl.
    rewrite lookup_insert_eq. simpl. auto.
  - simpl. auto.
Qed.

Lemma isOpen_other name other now cb :
  name <> other ->
  monitors (snd (isOpen name now cb)) !! other = monitors cb !! other /\
  lastStateChange (snd (isOpen name now cb)) !! other = lastStateChange cb !! other.
Proof.
  intros Hne. unfold isOpen.
  pose proof (getMonitor_other name other cb Hne) as Ho.
  destruct (getMonitor_settings name cb) as (_ & _ & Hl & _).
  destruct (_getMonitor name cb) as [m cb'] eqn:E. simpl in Ho, Hl.
  destruct (State_eqb (state m) Open && (now - lastFailure m <=? resetTimeout cb'));
    simpl; [rewrite Hl; auto|].
  destruct (State_eqb (state m) Open && (resetTimeout cb' <? now - lastFailure m));
    simpl; [|rewrite Hl; auto].
  unfold _transitionToHalfOpen.
  pose proof (getMonitor_other name other cb' Hne) as Ho'.
  destruct (getMonitor_settings name cb') as (_ & _ & Hl' & _).
  destruct (_getMonitor name cb') as [m' cb'']. simpl in Ho', Hl'.
  unfold put. simpl. rewrite !lookup_insert_ne by exact Hne.
  rewrite Ho', Ho, Hl', Hl. auto.
Qed.

Lemma reset_other name other now cb :
  name <> other ->
  monitors (reset name now cb) !! other = monitors cb !! other /\
  lastStateChange (reset name now cb) !! other = lastStateChange cb !! other.
Proof.
  intros Hne. unfold reset.
  destruct (monitors cb !! name) eqn:E; [|auto].
  unfold _transitionToClosed, _getMonitor. rewrite E. unfold put. simpl.
  rewrite !lookup_insert_ne by exact Hne. auto.
Qed.

Lemma reset_lookup name now cb m :
  monitors cb !! name = Some m ->
  monitors (reset name now cb) !! name = Some (mkMonitor 0 Closed (lastFailure m) 0).
Proof.
  intros E. unfold reset. rewrite E.
  unfold _transitionToClosed, _getMonitor. rewrite E. unfold put. simpl.
  apply lookup_insert_eq.
Qed.

End BreakerMonitors.

(** X5.  The breakers of the venues are independent: a call that names
    one venue ([isOpen], [onSuccess], [onError] or [reset]) leaves the
    monitor and the last state change of every other venue as they were. *)
Theorem a_call_on_one_venue_leaves_the_others
  (c : CircuitBreaker.Call) (name other : string) (cb : CircuitBreaker.t) :
  venue_of c = Some name ->
  name <> other ->
  CircuitBreaker.monitors (CircuitBreaker.perform c cb) !! other
  = CircuitBreaker.monitors cb !! other /\
  CircuitBreaker.lastStateChange (CircuitBreaker.perform c cb) !! other
  = CircuitBreaker.lastStateChange cb !! other.
Proof.
  intros Hc Hne.
  destruct c as [n now|n now|n now|n now|now]; simpl in Hc; try discriminate;
    injection Hc as ->; simpl.
  - apply isOpen_other; exact Hne.
  - apply onSuccess_other; exact Hne.
  - apply onError_other; exact Hne.
  - apply reset_other; exact Hne.
Qed.

Lemma a_call_on_one_venue_leaves_the_others_witness :
  CircuitBreaker.monitors
    (CircuitBreaker.perform (CircuitBreaker.CallOnError "tradeogre" 80000)
       half_open_breaker) !! "v"
  = CircuitBreaker.monitors half_open_breaker !! "v".
Proof.
  apply (a_call_on_one_venue_leaves_the_others
           (CircuitBreaker.CallOnError "tradeogre" 80000) "tradeogre" "v"
           half_open_breaker).
  - reflexivity.
  - discriminate.
Defined.

Section BreakerResetAll.
Import CircuitBreaker.

Lemma resets_close (venue : string) (now : Z) (names : list string) : forall cb,
  (venue ∈ names -> is_Some (monitors cb !! venue)) ->
  (venue ∈ names \/
   forall m, monitors cb !! venue = Some m -> state m = Closed /\ failures m = 0) ->
  forall m,
    monitors (fold_left (fun acc name => reset name now acc) names cb) !! venue = Some m ->
    state m = Closed /\ failures m = 0.
Proof.
  induction names as [|n names IH]; intros cb Hknown Hcase m Hm; simpl in Hm.
  - destruct Hcase as [Hin|Hclosed]; [inversion Hin|]. exact (Hclosed m Hm).
  - apply (IH (reset n now cb)); [| |exact Hm].
    + intros Hin. destruct (decide (n = venue)) as [->|Hne].
      * destruct Hknown as [m0 Hm0]; [left|].
        rewrite (reset_lookup _ _ _ _ Hm0). eauto.
      * rewrite (proj1 (reset_other _ _ now cb Hne)). apply Hknown. right. exact Hin.
    + destruct (decide (n = venue)) as [->|Hne].
      * right. intros m' Hm'. destruct Hknown as [m0 Hm0]; [left|].
        rewrite (reset_lookup _ _ _ _ Hm0) in Hm'. injection Hm' as <-. auto.
      * destruct Hcase as [Hin|Hclosed].
        -- left. apply elem_of_cons in Hin. destruct Hin as [->|Hin]; [congruence|exact Hin].
        -- right. intros m' Hm'.
           rewrite (proj1 (reset_other _ _ now cb Hne)) in Hm'. exact (Hclosed m' Hm').
Qed.

End BreakerResetAll.

(** X6.  [resetAll] closes every venue: afterwards each venue reports the
    closed state, and each monitor the breaker holds is closed with a
    failure count of zero. *)
Theorem resetAll_closes_every_venue
  (now : Z) (cb : CircuitBreaker.t) (venue : string) :
  CircuitBreaker.stateOf venue (CircuitBreaker.resetAll now cb) = CircuitBreaker.Closed /\
  (forall m,
     CircuitBreaker.monitors (CircuitBreaker.resetAll now cb) !! venue = Some m ->
     CircuitBreaker.state m = CircuitBreaker.Closed /\ CircuitBreaker.failures m = 0).
Proof.
  assert (H : forall m,
     CircuitBreaker.monitors (CircuitBreaker.resetAll now cb) !! venue = Some m ->
     CircuitBreaker.state m = CircuitBreaker.Closed /\ CircuitBreaker.failures m = 0).
  { unfold CircuitBreaker.resetAll. apply resets_close.
    - intros Hin. apply (list_elem_of_fmap fst) in Hin.
      destruct Hin as ([k m] & -> & Hin).
      apply elem_of_map_to_list in Hin. simpl. eauto.
    - destruct (CircuitBreaker.monitors cb !! venue) as [m|] eqn:E.
      + left. apply (list_elem_of_fmap fst). exists (venue, m). split; [reflexivity|].
        apply elem_of_map_to_list. exact E.
      + right. intros m Hm. discriminate. }
  split; [|exact H].
  unfold CircuitBreaker.stateOf.
  destruct (CircuitBreaker.monitors (CircuitBreaker.resetAll now cb) !! venue) as [m|] eqn:E;
    [|reflexivity].
  exact (proj1 (H m eq_refl)).
Qed.

Section BreakerRuns.
Import CircuitBreaker.

Lemma errors_settings venue times : forall cb,
  failureThreshold (errors venue times cb) = failureThreshold cb /\
  resetTimeout (errors venue times cb) = resetTimeout cb.
Proof.
  unfold errors.
  induction times as [|now times IH]; intros cb; simpl; [auto|].
  destruct (IH (onError venue now cb)) as [-> ->]. apply onError_settings.
Qed.

Lemma errors_monitor venue times : forall cb,
  1 <= failureThreshold cb ->
  state (monitor_of venue cb)
  = (if failureThreshold cb <=? failures (monitor_of venue cb) then Open else Closed) ->
  failures (monitor_of venue (errors venue times cb))
  = failures (monitor_of venue cb) + Z.of_nat (length times) /\
  state (monitor_of venue (errors venue times cb))
  = (if failureThreshold cb <=? failures (monitor_of venue cb) + Z.of_nat (length times)
     then Open else Closed).
Proof.
  unfold errors.
  induction times as [|now times IH]; intros cb Hthr Hst.
  - simpl. rewrite Z.add_0_r. auto.
  - simpl fold_left.
    pose proof (onError_lookup venue now cb) as Hm.
    destruct (onError_settings venue now cb) as [Ht _].
    assert (Hmo : monitor_of venue (onError venue now cb)
                  = mkMonitor (failures (monitor_of venue cb) + 1)
                      (if failureThreshold cb <=? failures (monitor_of venue cb) + 1
                       then Open else state (monitor_of venue cb))
                      now (consecutiveSuccesses (monitor_of venue cb))).
    { unfold monitor_of at 1. rewrite Hm. reflexivity. }
    destruct (IH (onError venue now cb)) as [Hf Hs].
    + rewrite Ht. exact Hthr.
    + rewrite Ht, Hmo. simpl. rewrite Hst.
      destruct (Z.leb_spec (failureThreshold cb) (failures (monitor_of venue cb) + 1));
      destruct (Z.leb_spec (failureThreshold cb) (failures (monitor_of venue cb)));
        try reflexivity; lia.
    + rewrite Hf, Hs, Ht, Hmo. simpl.
      replace (failures (monitor_of venue cb) + 1 + Z.of_nat (length times))
        with (failures (monitor_of venue cb) + Z.of_nat (length (now :: times)))
        by (simpl length; lia).
      auto.
Qed.

Lemma monitor_of_new options venue : monitor_of venue (new options) = fresh_monitor.
Proof. unfold monitor_of. simpl. rewrite lookup_empty. reflexivity. Qed.

(** After a run of errors that ends at [last] and reaches the threshold,
    the venue's monitor is open and dated [last]. *)
Lemma tripped_monitor options venue times last :
  1 <= failureThreshold (new options) ->
  failureThreshold (new options) <= Z.of_nat (length (times ++ [last])) ->
  exists m,
    monitors (errors venue (times ++ [last]) (new options)) !! venue = Some m /\
    state m = Open /\ lastFailure m = last.
Proof.
  intros Hthr Hlen.
  unfold errors. rewrite fold_left_app. simpl.
  fold (errors venue times (new options)).
  rewrite onError_lookup. eexists. split; [reflexivity|]. simpl.
  split; [|reflexivity].
  destruct (errors_settings venue times (new options)) as [-> _].
  destruct (errors_monitor venue times (new options) Hthr) as [Hf _].
  { rewrite monitor_of_new. cbn [fresh_monitor failures state].
    destruct (Z.leb_spec (failureThreshold (new options)) 0); [lia|reflexivity]. }
  rewrite Hf, monitor_of_new. cbn [fresh_monitor failures state].
  rewrite length_app in Hlen. cbn [length] in Hlen.
  destruct (Z.leb_spec (failureThreshold (new options)) (0 + Z.of_nat (length times) + 1));
    [reflexivity|lia].
Qed.

Lemma isOpen_of_open venue now cb m :
  monitors cb !! venue = Some m ->
  state m = Open ->
  fst (isOpen venue now cb) = (now - lastFailure m <=? resetTimeout cb) /\
  stateOf venue (snd (isOpen venue now cb))
  = (if now - lastFailure m <=? resetTimeout cb then Open else HalfOpen).
Proof.
  intros Hm Hs. unfold isOpen, _getMonitor. rewrite Hm, Hs. simpl.
  destruct (Z.leb_spec (now - lastFailure m) (resetTimeout cb)); simpl.
  - split; [reflexivity|]. unfold stateOf. rewrite Hm. exact Hs.
  - destruct (Z.ltb_spec (resetTimeout cb) (now - lastFailure m)); [|lia].
    simpl. split; [reflexivity|].
    rewrite transitionToHalfOpen_stateOf. rewrite decide_True by reflexivity.
    reflexivity.
Qed.

End BreakerRuns.

(** X7.  Once a run of consecutive errors has tripped a new breaker, the
    venue is refused exactly until [resetTimeout] milliseconds after the
    last error: up to then [isOpen] answers [true] and the venue stays
    open; the first poll after that answers [false] and leaves the venue
    half-open. *)
Theorem tripped_breaker_refuses_until_the_reset_timeout
  (options : CircuitBreaker.Options) (venue : string) (times : list Z) (last now : Z) :
  1 <= CircuitBreaker.failureThreshold (CircuitBreaker.new options) ->
  CircuitBreaker.failureThreshold (CircuitBreaker.new options)
    <= Z.of_nat (length (times ++ [last])) ->
  let cb := errors venue (times ++ [last]) (CircuitBreaker.new options) in
  fst (CircuitBreaker.isOpen venue now cb)
  = (now - last <=? CircuitBreaker.resetTimeout (CircuitBreaker.new options)) /\
  CircuitBreaker.stateOf venue (snd (CircuitBreaker.isOpen venue now cb))
  = (if now - last <=? CircuitBreaker.resetTimeout (CircuitBreaker.new options)
     then CircuitBreaker.Open else CircuitBreaker.HalfOpen).
Proof.
  intros Hthr Hlen cb.
  destruct (tripped_monitor options venue times last Hthr Hlen) as (m & Hm & Hs & Hl).
  destruct (isOpen_of_open venue now cb m Hm Hs) as [H1 H2].
  rewrite Hl in H1, H2.
  destruct (errors_settings venue (times ++ [last]) (CircuitBreaker.new options))
    as [_ Hr].
  fold cb in Hr. rewrite Hr in H1, H2. split; assumption.
Qed.

Lemma tripped_breaker_refuses_until_the_reset_timeout_witness :
  fst (CircuitBreaker.isOpen "v" 65000
         (errors "v" ([1000; 2000; 3000; 4000] ++ [5000])
            (CircuitBreaker.new CircuitBreaker.no_options))) = true /\
  fst (CircuitBreaker.isOpen "v" 65001
         (errors "v" ([1000; 2000; 3000; 4000] ++ [5000])
            (CircuitBreaker.new CircuitBreaker.no_options))) = false.
Proof.
  split.
  - apply (proj1 (tripped_breaker_refuses_until_the_reset_timeout
             CircuitBreaker.no_options "v" [1000; 2000; 3000; 4000] 5000 65000
             ltac:(simpl; lia) ltac:(simpl; lia))).
  - apply (proj1 (tripped_breaker_refuses_until_the_reset_timeout
             CircuitBreaker.no_options "v" [1000; 2000; 3000; 4000] 5000 65001
             ltac:(simpl; lia) ltac:(simpl; lia))).
Defined.

Section BreakerReports.
Import CircuitBreaker.

Lemma reports_settings venue outcomes : forall cb,
  failureThreshold (reports venue outcomes cb) = failureThreshold cb.
Proof.
  unfold reports.
  induction outcomes as [|[[|] now] outcomes IH]; intros cb; simpl; [reflexivity| |].
  - rewrite IH. apply onSuccess_settings.
  - rewrite IH. apply onError_settings.
Qed.

(** The invariant of a run of reports: the failure count is the length of
    the run of errors in progress, and the venue is open exactly when
    some run has reached the threshold. *)
Lemma reports_monitor venue outcomes : forall cb longest,
  1 <= failureThreshold cb ->
  0 <= failures (monitor_of venue cb) ->
  failures (monitor_of venue cb) <= longest ->
  state (monitor_of venue cb)
  = (if failureThreshold cb <=? longest then Open else Closed) ->
  state (monitor_of venue (reports venue outcomes cb))
  = (if failureThreshold cb
        <=? longest_error_run outcomes (failures (monitor_of venue cb)) longest
     then Open else Closed).
Proof.
  unfold reports.
  induction outcomes as [|[[|] now] outcomes IH]; intros cb longest Hthr Hpos Hle Hst.
  - simpl. exact Hst.
  - simpl fold_left. simpl longest_error_run.
    pose proof (onSuccess_lookup venue now cb) as Hm.
    destruct (onSuccess_settings venue now cb) as [Ht _].
    assert (Hnot : State_eqb (state (monitor_of venue cb)) HalfOpen = false).
    { rewrite Hst. destruct (failureThreshold cb <=? longest); reflexivity. }
    rewrite Hnot in Hm.
    assert (Hmo : monitor_of venue (onSuccess venue now cb)
                  = mkMonitor 0 (state (monitor_of venue cb))
                      (lastFailure (monitor_of venue cb))
                      (consecutiveSuccesses (monitor_of venue cb))).
    { unfold monitor_of at 1. rewrite Hm. reflexivity. }
    rewrite (IH (onSuccess venue now cb) longest); rewrite ?Ht, ?Hmo; simpl;
      try assumption; try lia.
    reflexivity.
  - simpl fold_left. simpl longest_error_run.
    pose proof (onError_lookup venue now cb) as Hm.
    destruct (onError_settings venue now cb) as [Ht _].
    assert (Hmo : monitor_of venue (onError venue now cb)
                  = mkMonitor (failures (monitor_of venue cb) + 1)
                      (if failureThreshold cb <=? failures (monitor_of venue cb) + 1
                       then Open else state (monitor_of venue cb))
                      now (consecutiveSuccesses (monitor_of venue cb))).
    { unfold monitor_of at 1. rewrite Hm. reflexivity. }
    rewrite (IH (onError venue now cb)
               (Z.max longest (failures (monitor_of venue cb) + 1)));
      rewrite ?Ht, ?Hmo; simpl; try assumption; try lia.
    + reflexivity.
    + rewrite Hst.
      destruct (Z.leb_spec (failureThreshold cb) (failures (monitor_of venue cb) + 1));
      destruct (Z.leb_spec (failureThreshold cb) longest);
      destruct (Z.leb_spec (failureThreshold cb)
                  (Z.max longest (failures (monitor_of venue cb) + 1)));
        try reflexivity; lia.
Qed.

End BreakerReports.

(** X8.  The failures that open a breaker are consecutive ones: each
    success sets the count back to zero.  After any sequence of successes
    and errors reported for a venue of a new breaker (threshold at least
    one), the venue is open exactly when some run of errors in a row was
    at least [failureThreshold] long; a success does not close it again. *)
Theorem breaker_counts_consecutive_failures
  (options : CircuitBreaker.Options) (venue : string) (outcomes : list (bool * Z)) :
  1 <= CircuitBreaker.failureThreshold (CircuitBreaker.new options) ->
  CircuitBreaker.stateOf venue (reports venue outcomes (CircuitBreaker.new options))
  = if CircuitBreaker.failureThreshold (CircuitBreaker.new options)
       <=? longest_error_run outcomes 0 0
    then CircuitBreaker.Open else CircuitBreaker.Closed.
Proof.
  intros Hthr.
  pose proof (reports_monitor venue outcomes (CircuitBreaker.new options) 0 Hthr) as H.
  rewrite monitor_of_new in H.
  cbn [CircuitBreaker.fresh_monitor CircuitBreaker.failures CircuitBreaker.state] in H.
  rewrite <- H; try lia.
  - unfold CircuitBreaker.stateOf, monitor_of.
    destruct (CircuitBreaker.monitors _ !! venue); reflexivity.
  - destruct (Z.leb_spec (CircuitBreaker.failureThreshold (CircuitBreaker.new options)) 0);
      [lia|reflexivity].
Qed.

Lemma breaker_counts_consecutive_failures_witness :
  CircuitBreaker.stateOf "v"
    (reports "v" [(false, 1000); (false, 2000); (false, 3000); (false, 4000);
                  (true, 5000);
                  (false, 6000); (false, 7000); (false, 8000); (false, 9000)]
       (CircuitBreaker.new CircuitBreaker.no_options))
  = CircuitBreaker.Closed.
Proof.
  apply (breaker_counts_consecutive_failures CircuitBreaker.no_options "v"
           [(false, 1000); (false, 2000); (false, 3000); (false, 4000);
            (true, 5000);
            (false, 6000); (false, 7000); (false, 8000); (false, 9000)]).
  simpl. lia.
Defined.

(** ** Price fetch *)

Section ExchangePolling.
Import CircuitBreaker.

Lemma refused_fetch (now : Z) (ex : BaseExchange.t) (m : Monitor) :
  monitors (BaseExchange.circuitBreaker ex) !! BaseExchange.name ex = Some m ->
  state m = Open ->
  now - lastFailure m <= resetTimeout (BaseExchange.circuitBreaker ex) ->
  fst (BaseExchange.fetchPrice now ex) = BaseExchange.Refused /\
  BaseExchange.name (snd (BaseExchange.fetchPrice now ex)) = BaseExchange.name ex /\
  resetTimeout (BaseExchange.circuitBreaker (snd (BaseExchange.fetchPrice now ex)))
  = resetTimeout (BaseExchange.circuitBreaker ex) /\
  exists m',
    monitors (BaseExchange.circuitBreaker (snd (BaseExchange.fetchPrice now ex)))
      !! BaseExchange.name ex = Some m' /\
    state m' = Open /\ lastFailure m' = now /\ failures m' = failures m + 1.
Proof.
  intros Hm Hs Hle.
  unfold BaseExchange.fetchPrice, isOpen, _getMonitor. rewrite Hm, Hs.
  destruct (Z.leb_spec (now - lastFailure m) (resetTimeout (BaseExchange.circuitBreaker ex)));
    [|lia].
  cbn [State_eqb andb fst snd BaseExchange.with_circuitBreaker BaseExchange.name
       BaseExchange.circuitBreaker].
  split; [reflexivity|]. split; [reflexivity|].
  split; [apply onError_settings|].
  rewrite onError_lookup. eexists. split; [reflexivity|].
  unfold monitor_of. rewrite Hm. simpl. rewrite Hs.
  split; [|auto].
  destruct (failureThreshold _ <=? _); reflexivity.
Qed.

End ExchangePolling.

(** X9.  [fetchPrice] counts its own refusal as an error of the venue, and
    [onError] dates the last failure anew.  So while an open venue is
    polled at intervals of at most [resetTimeout], every poll is refused
    and the venue stays open: the breaker only reaches half-open after a
    pause in the polling that is longer than the reset timeout. *)
Theorem steady_polling_keeps_the_breaker_open
  (times : list Z) (ex : BaseExchange.t) (m : CircuitBreaker.Monitor) :
  CircuitBreaker.monitors (BaseExchange.circuitBreaker ex) !! BaseExchange.name ex
  = Some m ->
  CircuitBreaker.state m = CircuitBreaker.Open ->
  paced (CircuitBreaker.resetTimeout (BaseExchange.circuitBreaker ex))
        (CircuitBreaker.lastFailure m) times ->
  fst (polls times ex) = map (fun _ => BaseExchange.Refused) times /\
  CircuitBreaker.stateOf (BaseExchange.name ex)
    (BaseExchange.circuitBreaker (snd (polls times ex)))
  = CircuitBreaker.Open.
Proof.
  revert ex m.
  induction times as [|now times IH]; intros ex m Hm Hs Hp.
  - simpl. split; [reflexivity|]. unfold CircuitBreaker.stateOf. rewrite Hm. exact Hs.
  - destruct Hp as [Hle Hp].
    destruct (refused_fetch now ex m Hm Hs Hle) as (Hr & Hn & Ht & m' & Hm' & Hs' & Hl' & _).
    simpl polls.
    destruct (BaseExchange.fetchPrice now ex) as [answer ex'].
    simpl in Hr, Hn, Ht, Hm'. subst answer.
    rewrite <- Hn in Hm'. rewrite <- Ht, <- Hl' in Hp.
    destruct (IH ex' m' Hm' Hs' Hp) as [Ha Hst].
    destruct (polls times ex') as [answers ex''].
    simpl in Ha, Hst. simpl. rewrite Ha, <- Hn. split; [reflexivity|exact Hst].
Qed.

Lemma steady_polling_keeps_the_breaker_open_witness :
  fst (polls [65000; 125000; 185000] tripped_exchange)
  = [BaseExchange.Refused; BaseExchange.Refused; BaseExchange.Refused] /\
  CircuitBreaker.stateOf "SafeTrade"
    (BaseExchange.circuitBreaker (snd (polls [65000; 125000; 185000] tripped_exchange)))
  = CircuitBreaker.Open.
Proof.
  apply (steady_polling_keeps_the_breaker_open [65000; 125000; 185000] tripped_exchange
           (CircuitBreaker.mkMonitor 5 CircuitBreaker.Open 5000 0)).
  - vm_compute. reflexivity.
  - reflexivity.
  - simpl. vm_compute. repeat split; discriminate.
Defined.

(** ** Balance ledger *)

Section ReservedTotals.
Import Decimal.



End ReservedTotals.

Section ReserveFacts.
Import BalanceManager.






End ReserveFacts.





Section ReserveKeys.

Lemma string_app_assoc (a b c : string) : ((a ++ b) ++ c = a ++ (b ++ c))%string.
Proof.
  induction a as [|x a IH]; [reflexivity|].
  change (String.String x ((a ++ b) ++ c) = String.String x (a ++ (b ++ c)))%string.
  rewrite IH. reflexivity.
Qed.

Lemma string_app_nil_r (a : string) : (a ++ "" = a)%string.
Proof.
  induction a as [|x a IH]; [reflexivity|].
  change (String.String x (a ++ "") = String.String x a)%string.
  rewrite IH. reflexivity.
Qed.

Lemma split_underscore_aux_app (s rest current : string) :
  underscore_free s = true ->
  Js.split_underscore_aux (s ++ "_" ++ rest) current
  = (current ++ s)%string :: Js.split_underscore_aux rest "".
Proof.
  revert current. induction s as [|c s IH]; intros current Hs.
  - simpl. rewrite string_app_nil_r. reflexivity.
  - simpl in Hs. apply andb_true_iff in Hs. destruct Hs as [Hc Hs].
    apply negb_true_iff in Hc.
    change (Js.split_underscore_aux (String.String c (s ++ "_" ++ rest)) current
            = (current ++ String.String c s)%string :: Js.split_underscore_aux rest "").
    cbn [Js.split_underscore_aux]. rewrite Hc.
    rewrite (IH _ Hs). rewrite string_app_assoc. reflexivity.
Qed.

Lemma lower_ascii_underscore (c : ascii) :
  Ascii.eqb (Js.lower_ascii c) "_" = Ascii.eqb c "_".
Proof. destruct c as [[] [] [] [] [] [] [] []]; vm_compute; reflexivity. Qed.

Lemma upper_ascii_underscore (c : ascii) :
  Ascii.eqb (Js.upper_ascii c) "_" = Ascii.eqb c "_".
Proof. destruct c as [[] [] [] [] [] [] [] []]; vm_compute; reflexivity. Qed.

Lemma toLowerCase_underscore_free (s : string) :
  underscore_free (Js.toLowerCase s) = underscore_free s.
Proof.
  unfold Js.toLowerCase.
  induction s as [|c s IH]; simpl; [reflexivity|].
  rewrite lower_ascii_underscore, IH. reflexivity.
Qed.

Lemma toUpperCase_underscore_free (s : string) :
  underscore_free (Js.toUpperCase s) = underscore_free s.
Proof.
  unfold Js.toUpperCase.
  induction s as [|c s IH]; simpl; [reflexivity|].
  rewrite upper_ascii_underscore, IH. reflexivity.
Qed.

(** The reserve key of an underscore-free venue and currency splits into
    the venue, the currency and the pieces of the order id. *)
Lemma split_reserve_key (exchange currency orderId : string) :
  underscore_free exchange = true ->
  underscore_free currency = true ->
  Js.split_underscore (BalanceManager.reserveKeyOf exchange currency orderId)
  = Js.toLowerCase exchange :: Js.toUpperCase currency :: Js.split_underscore orderId.
Proof.
  intros He Hc.
  unfold Js.split_underscore, BalanceManager.reserveKeyOf, BalanceManager._getKey.
  rewrite !string_app_assoc.
  rewrite split_underscore_aux_app by (rewrite toLowerCase_underscore_free; exact He).
  rewrite split_underscore_aux_app by (rewrite toUpperCase_underscore_free; exact Hc).
  reflexivity.
Qed.

Lemma split_underscore_free (s current : string) :
  underscore_free s = true ->
  Js.split_underscore_aux s current = [(current ++ s)%string].
Proof.
  revert current. induction s as [|c s IH]; intros current Hs.
  - simpl. rewrite string_app_nil_r. reflexivity.
  - simpl in Hs. apply andb_true_iff in Hs. destruct Hs as [Hc Hs].
    apply negb_true_iff in Hc.
    cbn [Js.split_underscore_aux]. rewrite Hc. rewrite (IH _ Hs).
    rewrite string_app_assoc. reflexivity.
Qed.

End ReserveKeys.

(** X12.  [getReservedBalances] recovers the venue, the currency and the
    order id of a reservation by splitting its key at the underscores.
    For a venue and a currency without underscore, it lists a live
    reservation under the lower-cased venue and the upper-cased currency,
    but with the order id cut at its first underscore: the id is reported
    whole only when it holds no underscore. *)
Theorem reserved_listing_cuts_the_order_id
  (st : BalanceManager.t) (exchange currency orderId : string)
  (r : BalanceManager.Reserve) :
  underscore_free exchange = true ->
  underscore_free currency = true ->
  BalanceManager.reservedBalances st
    !! BalanceManager.reserveKeyOf exchange currency orderId = Some r ->
  BalanceManager.mkReserveInfo
    (Some (Js.toLowerCase exchange)) (Some (Js.toUpperCase currency))
    (head (Js.split_underscore orderId))
    (BalanceManager.amount r) (BalanceManager.timestamp r)
  ∈ BalanceManager.getReservedBalances st None /\
  (underscore_free orderId = true ->
   head (Js.split_underscore orderId) = Some orderId).
Proof.
  intros He Hc Hr. split.
  - unfold BalanceManager.getReservedBalances.
    apply list_elem_of_omap.
    exists (BalanceManager.reserveKeyOf exchange currency orderId, r).
    split; [apply elem_of_map_to_list; exact Hr|].
    rewrite (split_reserve_key _ _ _ He Hc). simpl.
    destruct (Js.split_underscore orderId); reflexivity.
  - intros Ho. unfold Js.split_underscore.
    rewrite (split_underscore_free orderId "" Ho). reflexivity.
Qed.

Lemma reserved_listing_cuts_the_order_id_witness :
  BalanceManager.mkReserveInfo (Some "safetrade"%string) (Some "USDT"%string)
    (Some "order"%string) (Decimal.of_Z 3) 1000
  ∈ BalanceManager.getReservedBalances
      (snd (BalanceManager.reserveBalance parse_plain "SafeTrade" "usdt"
              (Js.String "3") "order_1700_k3x" 1000 ledger_without_reservation))
      None.
Proof.
  apply (proj1 (reserved_listing_cuts_the_order_id
           (snd (BalanceManager.reserveBalance parse_plain "SafeTrade" "usdt"
                   (Js.String "3") "order_1700_k3x" 1000 ledger_without_reservation))
           "SafeTrade" "usdt" "order_1700_k3x"
           (BalanceManager.mkReserve (Decimal.of_Z 3) 1000)
           eq_refl eq_refl ltac:(vm_compute; reflexivity))).
Defined.

(** ** Price validation *)

Section ValidatorHistory.
Import PriceValidator.

Variable parse : string -> option Decimal.t.
Variable config : Config.

Lemma validatePrice_true (now : Z) (price : Js.value) (context : option Context)
  (priceHistory history' : gmap string (list Entry)) :
  validatePrice parse config now price context priceHistory = (true, history') ->
  exists ctx, context = Some ctx /\
    history' = _updatePriceHistory config now (exchange ctx) price priceHistory.
Proof.
  unfold validatePrice, validatePrice_try.
  destruct (_isValidNumber parse price); simpl; [|discriminate].
  destruct (_isWithinRange parse config price) as [[|]|]; simpl; try discriminate.
  destruct context as [ctx|]; simpl; [|discriminate].
  destruct (_isWithinDeviation parse config price _) as [[|]|]; simpl; try discriminate.
  destruct (timestamp ctx) as [ts|]; simpl.
  - destruct (negb (ts =? 0) && negb (_isPriceFresh config now ts)); simpl;
      [discriminate|].
    intros H. injection H as <-. eauto.
  - intros H. injection H as <-. eauto.
Qed.

Lemma updatePriceHistory_lookup (now : Z) (venue : string) (price : Js.value)
  (priceHistory : gmap string (list Entry)) :
  venue <> ""%string ->
  _updatePriceHistory config now (Some venue) price priceHistory !! venue
  = Some (filter (fun entry => now - priceValidityMs config < entry_timestamp entry)
                 (default [] (priceHistory !! venue) ++ [mkEntry price now])) /\
  forall other, other <> venue ->
    _updatePriceHistory config now (Some venue) price priceHistory !! other
    = priceHistory !! other.
Proof.
  intros Hne. unfold _updatePriceHistory.
  destruct venue as [|c venue]; [congruence|].
  split; [apply lookup_insert_eq|].
  intros other Ho. apply lookup_insert_ne. congruence.
Qed.

End ValidatorHistory.

(** X13.  A price that [validatePrice] accepts for a named venue is
    recorded: with a positive [priceValidityMs], the venue's history then
    ends with that price, dated [now], so [getRecentPrices(venue, 1)]
    returns it; every entry the venue keeps is younger than
    [priceValidityMs]; and the histories of the other venues are as they
    were. *)
Theorem accepted_price_joins_the_history
  (parse : string -> option Decimal.t) (config : PriceValidator.Config)
  (now : Z) (price : Js.value) (context : PriceValidator.Context) (venue : string)
  (priceHistory history' : gmap string (list PriceValidator.Entry)) :
  0 < PriceValidator.priceValidityMs config ->
  PriceValidator.exchange context = Some venue ->
  venue <> ""%string ->
  PriceValidator.validatePrice parse config now price (Some context) priceHistory
  = (true, history') ->
  PriceValidator.getRecentPrices history' venue 1 = [price] /\
  (exists older, history' !! venue = Some (older ++ [PriceValidator.mkEntry price now])) /\
  (forall entries entry,
     history' !! venue = Some entries -> entry ∈ entries ->
     now - PriceValidator.entry_timestamp entry < PriceValidator.priceValidityMs config) /\
  (forall other, other <> venue -> history' !! other = priceHistory !! other).
Proof.
  intros Hvalidity Hvenue Hne Hok.
  destruct (validatePrice_true _ _ _ _ _ _ _ Hok) as (ctx & Hctx & ->).
  injection Hctx as <-. rewrite Hvenue.
  destruct (updatePriceHistory_lookup config now venue price priceHistory Hne)
    as [Hlookup Hother].
  assert (Hshape :
    filter (fun entry => now - PriceValidator.priceValidityMs config
                         < PriceValidator.entry_timestamp entry)
           (default [] (priceHistory !! venue) ++ [PriceValidator.mkEntry price now])
    = filter (fun entry => now - PriceValidator.priceValidityMs config
                           < PriceValidator.entry_timestamp entry)
             (default [] (priceHistory !! venue))
      ++ [PriceValidator.mkEntry price now]).
  { rewrite filter_app. f_equal.
    rewrite filter_cons_True by (simpl; lia). reflexivity. }
  rewrite Hshape in Hlookup.
  split; [|split; [|split]].
  - unfold PriceValidator.getRecentPrices. rewrite Hlookup. simpl default.
    rewrite length_app. simpl length.
    replace (length (filter _ (default [] (priceHistory !! venue))) + 1 - 1)%nat
      with (length (filter (fun entry => now - PriceValidator.priceValidityMs config
                                         < PriceValidator.entry_timestamp entry)
                      (default [] (priceHistory !! venue)))) by lia.
    rewrite drop_app_length. reflexivity.
  - eexists. exact Hlookup.
  - intros entries entry Hentries Hin.
    rewrite <- Hshape in Hlookup. rewrite Hlookup in Hentries.
    injection Hentries as <-.
    apply list_elem_of_filter in Hin. destruct Hin as [Hin _]. lia.
  - exact Hother.
Qed.

Lemma accepted_price_joins_the_history_witness :
  PriceValidator.getRecentPrices
    (snd (PriceValidator.validatePrice parse_plain default_config 1000 (Js.String "2")
            (Some (PriceValidator.mkContext None None (Some "safetrade"%string))) ∅))
    "safetrade" 1
  = [Js.String "2"].
Proof.
  refine (proj1 (accepted_price_joins_the_history parse_plain default_config 1000
            (Js.String "2")
            (PriceValidator.mkContext None None (Some "safetrade"%string))
            "safetrade" ∅ _ _ _ _ _)).
  - reflexivity.
  - reflexivity.
  - discriminate.
  - vm_compute. reflexivity.
Defined.

(** X14.  A dated price is fresh while it is strictly younger than
    [maxStalePrice]: for a price that passes the number and range checks,
    with no recent prices to compare with, [validatePrice] accepts it when
    [now - timestamp < maxStalePrice] and rejects it from an age of exactly
    [maxStalePrice] on.  A timestamp of 0 counts as no timestamp: the
    price is accepted whatever the clock. *)
Theorem price_is_fresh_strictly_within_max_stale
  (parse : string -> option Decimal.t) (config : PriceValidator.Config)
  (now ts : Z) (price : Js.value) (context : PriceValidator.Context)
  (priceHistory : gmap string (list PriceValidator.Entry)) :
  PriceValidator._isValidNumber parse price = true ->
  PriceValidator._isWithinRange parse config price = Some true ->
  PriceValidator.recentPrices context = None ->
  PriceValidator.timestamp context = Some ts ->
  fst (PriceValidator.validatePrice parse config now price (Some context) priceHistory)
  = if ts =? 0 then true else (now - ts <? PriceValidator.maxStalePrice config).
Proof.
  intros Hvalid Hrange Hrecent Hts.
  unfold PriceValidator.validatePrice, PriceValidator.validatePrice_try.
  rewrite Hvalid, Hrange. simpl.
  unfold PriceValidator._isWithinDeviation. rewrite Hrecent. simpl.
  rewrite Hts. unfold PriceValidator._isPriceFresh.
  destruct (ts =? 0); simpl; [reflexivity|].
  destruct (now - ts <? PriceValidator.maxStalePrice config); reflexivity.
Qed.

Lemma price_is_fresh_strictly_within_max_stale_witness :
  fst (PriceValidator.validatePrice parse_plain default_config 301000 (Js.String "2")
         (Some (PriceValidator.mkContext None (Some 1000) None)) ∅) = false /\
  fst (PriceValidator.validatePrice parse_plain default_config 300999 (Js.String "2")
         (Some (PriceValidator.mkContext None (Some 1000) None)) ∅) = true.
Proof.
  split.
  - apply (price_is_fresh_strictly_within_max_stale parse_plain default_config
             301000 1000 (Js.String "2") (PriceValidator.mkContext None (Some 1000) None) ∅);
      reflexivity.
  - apply (price_is_fresh_strictly_within_max_stale parse_plain default_config
             300999 1000 (Js.String "2") (PriceValidator.mkContext None (Some 1000) None) ∅);
      reflexivity.
Defined.

Section ValidatorDeviation.
Import PriceValidator.

Variable parse : string -> option Decimal.t.
Variable config : Config.




End ValidatorDeviation.



(** ** Exchange health *)

Section HealthFacts.
Import ExchangeHealthMonitor.

Implicit Types (hm : ExchangeHealthMonitor.t) (exchange other : string) (now : Z).

Lemma updateMetrics_health exchange type hm :
  health (_updateMetrics exchange type hm) = health hm.
Proof.
  unfold _updateMetrics.
  destruct (metrics hm !! exchange) as [m|]; reflexivity.
Qed.

Lemma updateState_health exchange newState now hm status :
  health hm !! exchange = Some status ->
  health (_updateState exchange newState now hm)
  = <[exchange := mkStatus newState (successCount status) (errorCount status)
                           (lastSuccess status) (lastError status)
                           (lastErrorTime status)]> (health hm).
Proof.
  intros H. unfold _updateState, _getStatus. rewrite H. unfold put. simpl.
  destruct (State_eqb (state status) newState); reflexivity.
Qed.

Lemma recordSuccess_health exchange now hm :
  health (recordSuccess exchange now hm)
  = <[exchange :=
        mkStatus (if State_eqb (state (status_of exchange hm)) degraded
                     && (recoveryThreshold <=? successCount (status_of exchange hm) + 1)
                  then healthy else state (status_of exchange hm))
                 (successCount (status_of exchange hm) + 1) 0 (Some now)
                 (lastError (status_of exchange hm))
                 (lastErrorTime (status_of exchange hm))]> (health hm).
Proof.
  unfold recordSuccess, _getStatus, status_of.
  destruct (health hm !! exchange) as [status|] eqn:E; simpl.
  - rewrite updateMetrics_health.
    destruct (State_eqb (state status) degraded && _).
    + erewrite updateState_health by (unfold put; simpl; apply lookup_insert_eq).
      unfold put. simpl. rewrite insert_insert_eq. reflexivity.
    + reflexivity.
  - rewrite updateMetrics_health. unfold put. simpl.
    rewrite insert_insert_eq. reflexivity.
Qed.

Lemma recordError_health exchange err now hm :
  health (recordError exchange err now hm)
  = <[exchange :=
        mkStatus (if errorThreshold <=? errorCount (status_of exchange hm) + 1
                  then degraded else state (status_of exchange hm))
                 (successCount (status_of exchange hm))
                 (errorCount (status_of exchange hm) + 1)
                 (lastSuccess (status_of exchange hm)) (Some err) (Some now)]>
      (health hm).
Proof.
  unfold recordError, _getStatus, status_of.
  destruct (health hm !! exchange) as [status|] eqn:E; simpl.
  - rewrite updateMetrics_health.
    destruct (errorThreshold <=? errorCount status + 1).
    + erewrite updateState_health by (unfold put; simpl; apply lookup_insert_eq).
      unfold put. simpl. rewrite insert_insert_eq. reflexivity.
    + reflexivity.
  - rewrite updateMetrics_health. unfold put. simpl.
    rewrite insert_insert_eq. reflexivity.
Qed.

Lemma status_of_insert exchange other status (h : gmap string Status) hm :
  health hm = <[exchange := status]> h ->
  status_of other hm
  = if decide (exchange = other) then status else default fresh_status (h !! other).
Proof.
  intros H. unfold status_of. rewrite H.
  destruct (decide (exchange = other)) as [->|Hne].
  - rewrite lookup_insert_eq. reflexivity.
  - rewrite lookup_insert_ne by exact Hne. reflexivity.
Qed.

Lemma isHealthy_status exchange hm :
  fst (isHealthy exchange hm) = State_eqb (state (status_of exchange hm)) healthy.
Proof.
  unfold isHealthy, _getStatus, status_of.
  destruct (health hm !! exchange); reflexivity.
Qed.

Lemma run_app (calls more : list Call) hm :
  run (calls ++ more) hm = run more (run calls hm).
Proof. unfold run. apply fold_left_app. Qed.

Lemma eqb_decide (a b : string) : String.eqb a b = bool_decide (a = b).
Proof.
  destruct (String.eqb_spec a b) as [->|Hne].
  - rewrite bool_decide_eq_true_2; reflexivity.
  - rewrite bool_decide_eq_false_2; [reflexivity|exact Hne].
Qed.

(** The counters of a venue's status along a run: every success is
    counted and the count is never set back; the error count is that of
    the errors since the last success. *)
Lemma run_cons (c : Call) (calls : list Call) hm :
  run (c :: calls) hm = run calls (perform c hm).
Proof. reflexivity. Qed.

Lemma run_counts (calls : list Call) exchange : forall hm,
  0 <= errorCount (status_of exchange hm) ->
  successCount (status_of exchange (run calls hm))
  = successCount (status_of exchange hm) + successes_of exchange calls /\
  0 <= errorCount (status_of exchange (run calls hm)).
Proof.
  induction calls as [|[e now|e err now] calls IH]; intros hm Hpos.
  - cbn [run fold_left successes_of]. split; [lia|exact Hpos].
  - rewrite run_cons. cbn [perform successes_of].
    pose proof (status_of_insert e exchange _ _ _ (recordSuccess_health e now hm)) as Hs.
    fold (status_of exchange hm) in Hs.
    destruct (IH (recordSuccess e now hm)) as [Hc Hp].
    + rewrite Hs. destruct (decide (e = exchange)); [cbn [errorCount]; lia|exact Hpos].
    + split; [|exact Hp]. rewrite Hc, Hs, eqb_decide.
      destruct (decide (e = exchange)) as [->|Hne].
      * rewrite bool_decide_eq_true_2 by reflexivity. cbn [successCount]. lia.
      * rewrite bool_decide_eq_false_2 by exact Hne. lia.
  - rewrite run_cons. cbn [perform successes_of].
    pose proof (status_of_insert e exchange _ _ _ (recordError_health e err now hm)) as Hs.
    fold (status_of exchange hm) in Hs.
    destruct (IH (recordError e err now hm)) as [Hc Hp].
    + rewrite Hs. destruct (decide (e = exchange)) as [->|Hne];
        [cbn [errorCount]; lia|exact Hpos].
    + split; [|exact Hp]. rewrite Hc, Hs.
      destruct (decide (e = exchange)) as [->|Hne]; reflexivity.
Qed.

Lemma status_of_new exchange : status_of exchange new = fresh_status.
Proof. unfold status_of. simpl. rewrite lookup_empty. reflexivity. Qed.

(** A run of errors of one venue, from a status whose error count is not
    negative. *)
Lemma failures_degrade exchange (failures : list (Js.value * Z)) : forall hm,
  0 <= errorCount (status_of exchange hm) ->
  errorCount (status_of exchange (run (failures_of exchange failures) hm))
  = errorCount (status_of exchange hm) + Z.of_nat (length failures) /\
  (failures <> [] ->
   errorThreshold <= errorCount (status_of exchange hm) + Z.of_nat (length failures) ->
   state (status_of exchange (run (failures_of exchange failures) hm)) = degraded).
Proof.
  induction failures as [|[err now] failures IH]; intros hm Hpos.
  - cbn [failures_of map run fold_left length]. split; [lia|congruence].
  - change (failures_of exchange ((err, now) :: failures))
      with (CallRecordError exchange err now :: failures_of exchange failures).
    rewrite run_cons. cbn [perform].
    pose proof (status_of_insert exchange exchange _ _ _
                  (recordError_health exchange err now hm)) as Hs.
    rewrite decide_True in Hs by reflexivity.
    destruct (IH (recordError exchange err now hm)) as [Hc Hd].
    { rewrite Hs. cbn [errorCount]. lia. }
    rewrite Hs in Hc, Hd. cbn [errorCount] in Hc, Hd.
    split.
    + rewrite Hc. cbn [length]. lia.
    + intros _ Hthr. cbn [length] in Hthr.
      destruct failures as [|failure failures].
      * cbn [failures_of map run fold_left]. rewrite Hs. cbn [state].
        destruct (Z.leb_spec errorThreshold (errorCount (status_of exchange hm) + 1));
          [reflexivity|cbn [length] in Hthr; lia].
      * apply Hd; [discriminate|].
        cbn [length]. cbn [length] in Hthr. lia.
Qed.

End HealthFacts.

(** X16.  Five errors in a row degrade a venue: whatever was recorded
    before, once [errorThreshold] (5) or more errors of a venue have been
    recorded one after the other, [isHealthy] answers [false] for it. *)
Theorem errors_in_a_row_degrade_the_venue
  (calls : list ExchangeHealthMonitor.Call) (exchange : string)
  (failures : list (Js.value * Z)) :
  ExchangeHealthMonitor.errorThreshold <= Z.of_nat (length failures) ->
  fst (ExchangeHealthMonitor.isHealthy exchange
         (ExchangeHealthMonitor.run (calls ++ failures_of exchange failures)
            ExchangeHealthMonitor.new))
  = false.
Proof.
  intros Hlen.
  rewrite run_app, isHealthy_status.
  destruct (run_counts calls exchange ExchangeHealthMonitor.new) as [_ Hpos].
  { rewrite status_of_new. simpl. lia. }
  destruct (failures_degrade exchange failures _ Hpos) as [_ Hd].
  rewrite Hd; [reflexivity| |lia].
  intros ->. unfold ExchangeHealthMonitor.errorThreshold in Hlen. simpl in Hlen. lia.
Qed.

Lemma errors_in_a_row_degrade_the_venue_witness :
  fst (ExchangeHealthMonitor.isHealthy "safetrade"
         (ExchangeHealthMonitor.run
            ([ExchangeHealthMonitor.CallRecordSuccess "safetrade" 500]
             ++ failures_of "safetrade"
                  [(Js.String "timeout", 1000); (Js.String "timeout", 2000);
                   (Js.String "timeout", 3000); (Js.String "timeout", 4000);
                   (Js.String "timeout", 5000)])
            ExchangeHealthMonitor.new))
  = false.
Proof.
  apply (errors_in_a_row_degrade_the_venue
           [ExchangeHealthMonitor.CallRecordSuccess "safetrade" 500] "safetrade"
           [(Js.String "timeout", 1000); (Js.String "timeout", 2000);
            (Js.String "timeout", 3000); (Js.String "timeout", 4000);
            (Js.String "timeout", 5000)]).
  vm_compute. discriminate.
Defined.

(** X17.  Recovery counts every success the venue ever had:
    [successCount] is never set back, so after any history a recorded
    success leaves the venue healthy exactly when it was healthy already
    or this success is at least its third ([recoveryThreshold]) in all.
    A degraded venue with two earlier successes recovers on the first
    success, however many errors came in between. *)
Theorem recovery_counts_every_success
  (calls : list ExchangeHealthMonitor.Call) (exchange : string) (now : Z) :
  fst (ExchangeHealthMonitor.isHealthy exchange
         (ExchangeHealthMonitor.recordSuccess exchange now
            (ExchangeHealthMonitor.run calls ExchangeHealthMonitor.new)))
  = fst (ExchangeHealthMonitor.isHealthy exchange
           (ExchangeHealthMonitor.run calls ExchangeHealthMonitor.new))
    || (ExchangeHealthMonitor.recoveryThreshold <=? successes_of exchange calls + 1).
Proof.
  rewrite !isHealthy_status.
  pose proof (status_of_insert exchange exchange _ _ _
                (recordSuccess_health exchange now
                   (ExchangeHealthMonitor.run calls ExchangeHealthMonitor.new))) as Hs.
  rewrite decide_True in Hs by reflexivity. rewrite Hs.
  cbn [ExchangeHealthMonitor.state].
  destruct (run_counts calls exchange ExchangeHealthMonitor.new) as [Hc _].
  { rewrite status_of_new. simpl. lia. }
  rewrite Hc, status_of_new.
  cbn [ExchangeHealthMonitor.fresh_status ExchangeHealthMonitor.successCount].
  rewrite Z.add_0_l.
  destruct (ExchangeHealthMonitor.state _),
    (ExchangeHealthMonitor.recoveryThreshold <=? successes_of exchange calls + 1);
    reflexivity.
Qed.

Section HealthMetrics.
Import ExchangeHealthMonitor.

Implicit Types (hm : ExchangeHealthMonitor.t) (exchange other : string) (now : Z).








Lemma successes_of_nonneg exchange (calls : list Call) : 0 <= successes_of exchange calls.
Proof.
  induction calls as [|[e now|e err now] calls IH]; simpl; try lia.
  destruct (String.eqb e exchange); lia.
Qed.

Lemma errors_of_nonneg exchange (calls : list Call) : 0 <= errors_of exchange calls.
Proof.
  induction calls as [|[e now|e err now] calls IH]; simpl; try lia.
  destruct (String.eqb e exchange); lia.
Qed.


End HealthMetrics.



(** ** Opportunity validation and ranking *)

Section DetectedOpportunity.
Import ArbitrageDetector.

Lemma checkPair_accepts (parse : string -> option Decimal.t) (config : Config)
  (now : Z) (buy sell : Price) (o : Opportunity) :
  _checkPair parse config now (Some buy) (Some sell) = Some (Some o) ->
  opp_timestamp o = now /\
  Decimal.lessThan (opp_volume o) (minVolumeUSD config) = false /\
  Decimal.lessThan (profit o) (minProfitUSD config) = false /\
  buyPrice o = price buy /\ sellPrice o = price sell /\
  buyExchange o = exchange buy /\ sellExchange o = exchange sell.
Proof.
  unfold _checkPair.
  destruct (negb _); [discriminate|].
  destruct (_calculateSpread parse _ _) as [spread|]; [|discriminate].
  destruct (Decimal.lessThan spread _); [discriminate|].
  destruct (Js.toDecimal parse (or_zero (volume buy))) as [vb|]; [|discriminate].
  destruct (Js.toDecimal parse (or_zero (volume sell))) as [vs|]; [|discriminate].
  destruct (Decimal.lessThan (Decimal.min vb vs) _) eqn:Ev; [discriminate|].
  destruct (_calculateProfit parse config _ _ _) as [p|]; [|discriminate].
  destruct (Decimal.lessThan p _) eqn:Ep; [discriminate|].
  intros H. injection H as <-. simpl. auto 10.
Qed.

End DetectedOpportunity.

(** X19.  The detector and the validator agree: an opportunity that
    [_checkPair] emits passes [validateOpportunity] (called without market
    data) with no error, as long as the validator's volume and profit
    thresholds are the detector's, as they are by default, and the
    opportunity is no older than [maxAge]. *)
Theorem detected_opportunity_passes_validation
  (parse : string -> option Decimal.t)
  (detector : ArbitrageDetector.Config) (validator : OpportunityValidator.Config)
  (now later : Z) (buy sell : ArbitrageDetector.Price)
  (o : ArbitrageDetector.Opportunity) :
  ArbitrageDetector._checkPair parse detector now (Some buy) (Some sell) = Some (Some o) ->
  OpportunityValidator.minVolume validator = ArbitrageDetector.minVolumeUSD detector ->
  OpportunityValidator.minProfit validator = ArbitrageDetector.minProfitUSD detector ->
  later - now <= OpportunityValidator.maxAge validator ->
  OpportunityValidator.validateOpportunity parse validator later (detected o) None
  = OpportunityValidator.mkResult true [].
Proof.
  intros Hcheck Hvolume Hprofit Hage.
  destruct (checkPair_accepts _ _ _ _ _ _ Hcheck) as (Hts & Hv & Hp & _).
  unfold OpportunityValidator.validateOpportunity, OpportunityValidator._validateVolume,
    OpportunityValidator._validatePrices, OpportunityValidator._validateProfitability,
    OpportunityValidator._validateTiming, detected.
  cbn [OpportunityValidator.volume OpportunityValidator.profit
       OpportunityValidator.timestamp Js.toDecimal mbind option_bind].
  rewrite Hvolume, Hv, Hprofit, Hp, Hts.
  destruct (Z.ltb_spec (OpportunityValidator.maxAge validator) (later - now)); [lia|].
  reflexivity.
Qed.

Lemma detected_opportunity_passes_validation_witness :
  exists o,
    ArbitrageDetector._checkPair parse_plain
      (ArbitrageDetector.makeConfig ArbitrageDetector.no_config) 2000
      (Some price_one) (Some price_one_percent_higher) = Some (Some o) /\
    OpportunityValidator.validateOpportunity parse_plain
      (OpportunityValidator.makeConfig OpportunityValidator.no_config) 7000
      (detected o) None
    = OpportunityValidator.mkResult true [].
Proof.
  eexists. split; [vm_compute; reflexivity|].
  eapply (detected_opportunity_passes_validation parse_plain
            (ArbitrageDetector.makeConfig ArbitrageDetector.no_config)
            (OpportunityValidator.makeConfig OpportunityValidator.no_config)
            2000 7000 price_one price_one_percent_higher).
  - vm_compute. reflexivity.
  - reflexivity.
  - reflexivity.
  - vm_compute. discriminate.
Defined.

Section BestOpportunities.
Import ArbitrageDetector.






Lemma insert_sorted_perm (x : Opportunity) (l : list Opportunity) :
  insert_sorted x l ≡ₚ x :: l.
Proof.
  induction l as [|y l IH]; simpl; [reflexivity|].
  destruct (moves_ahead y x); [reflexivity|].
  rewrite IH. apply Permutation_swap.
Qed.

Lemma sort_by_profit_perm (l : list Opportunity) : sort_by_profit l ≡ₚ l.
Proof.
  unfold sort_by_profit.
  assert (H : forall acc, fold_left (fun sorted x => insert_sorted x sorted) l acc
                          ≡ₚ acc ++ l).
  { induction l as [|x l IH]; intros acc; simpl.
    - rewrite app_nil_r. reflexivity.
    - rewrite IH, insert_sorted_perm. apply Permutation_middle. }
  apply (H []).
Qed.





End BestOpportunities.



(** ** Opportunity detection *)

Section DetectorLoops.
Import ArbitrageDetector.

Variable parse : string -> option Decimal.t.
Variable config : Config.

Lemma check_sells_sound (now : Z) (prices : list (string * Price)) (buyExchange : string)
  (sells : list string) : forall opportunities result,
  check_sells parse config now prices buyExchange sells opportunities = Some result ->
  exists found,
    result = opportunities ++ found /\
    forall o, o ∈ found ->
      exists sellExchange, sellExchange ∈ sells /\ buyExchange <> sellExchange /\
        _checkPair parse config now (get prices buyExchange) (get prices sellExchange)
        = Some (Some o).
Proof.
  induction sells as [|sellExchange sells IH]; intros opportunities result; simpl.
  - intros H. injection H as <-. exists []. rewrite app_nil_r.
    split; [reflexivity|]. intros o Ho. inversion Ho.
  - destruct (String.eqb_spec buyExchange sellExchange) as [->|Hne].
    + intros H. destruct (IH _ _ H) as (found & -> & Hfound).
      exists found. split; [reflexivity|].
      intros o Ho. destruct (Hfound o Ho) as (s & Hs & Hd & Hc).
      exists s. split; [right; exact Hs|]. auto.
    + destruct (_checkPair parse config now (get prices buyExchange)
                  (get prices sellExchange)) as [[opportunity|]|] eqn:E;
        [| |discriminate].
      * intros H. destruct (IH _ _ H) as (found & -> & Hfound).
        exists (opportunity :: found). rewrite <- app_assoc. split; [reflexivity|].
        intros o Ho. apply elem_of_cons in Ho. destruct Ho as [->|Ho].
        -- exists sellExchange. split; [left|]. auto.
        -- destruct (Hfound o Ho) as (s & Hs & Hd & Hc).
           exists s. split; [right; exact Hs|]. auto.
      * intros H. destruct (IH _ _ H) as (found & -> & Hfound).
        exists found. split; [reflexivity|].
        intros o Ho. destruct (Hfound o Ho) as (s & Hs & Hd & Hc).
        exists s. split; [right; exact Hs|]. auto.
Qed.

Lemma check_buys_sound (now : Z) (prices : list (string * Price)) (exchanges : list string)
  (buys : list string) : forall opportunities result,
  check_buys parse config now prices exchanges buys opportunities = Some result ->
  exists found,
    result = opportunities ++ found /\
    forall o, o ∈ found ->
      exists buyExchange sellExchange,
        buyExchange ∈ buys /\ sellExchange ∈ exchanges /\ buyExchange <> sellExchange /\
        _checkPair parse config now (get prices buyExchange) (get prices sellExchange)
        = Some (Some o).
Proof.
  induction buys as [|buyExchange buys IH]; intros opportunities result; simpl.
  - intros H. injection H as <-. exists []. rewrite app_nil_r.
    split; [reflexivity|]. intros o Ho. inversion Ho.
  - destruct (check_sells parse config now prices buyExchange exchanges opportunities)
      as [after|] eqn:E; [|discriminate].
    destruct (check_sells_sound _ _ _ _ _ _ E) as (first & -> & Hfirst).
    intros H. destruct (IH _ _ H) as (found & -> & Hfound).
    exists (first ++ found). rewrite app_assoc. split; [reflexivity|].
    intros o Ho. apply elem_of_app in Ho. destruct Ho as [Ho|Ho].
    + destruct (Hfirst o Ho) as (s & Hs & Hd & Hc).
      exists buyExchange, s. split; [left|]. auto.
    + destruct (Hfound o Ho) as (b & s & Hb & Hs & Hd & Hc).
      exists b, s. split; [right; exact Hb|]. auto.
Qed.

End DetectorLoops.

(** X29.  [detectArbitrage] returns at most five opportunities, and each
    of them is what [_checkPair] made of two different venues of the
    price map, one to buy on and one to sell on: no venue is paired with
    itself, and nothing is returned that [_checkPair] did not accept. *)
Theorem detected_opportunities_come_from_accepted_pairs
  (parse : string -> option Decimal.t) (config : ArbitrageDetector.Config) (now : Z)
  (prices : list (string * ArbitrageDetector.Price)) :
  (length (ArbitrageDetector.detectArbitrage parse config now prices) <= 5)%nat /\
  forall o, o ∈ ArbitrageDetector.detectArbitrage parse config now prices ->
    exists buyExchange sellExchange,
      buyExchange ∈ map fst prices /\ sellExchange ∈ map fst prices /\
      buyExchange <> sellExchange /\
      ArbitrageDetector._checkPair parse config now
        (ArbitrageDetector.get prices buyExchange)
        (ArbitrageDetector.get prices sellExchange)
      = Some (Some o).
Proof.
  unfold ArbitrageDetector.detectArbitrage.
  destruct (ArbitrageDetector.check_buys parse config now prices _ _ [])
    as [opportunities|] eqn:E.
  - split.
    + unfold ArbitrageDetector._filterBestOpportunities. rewrite length_take. lia.
    + intros o Ho.
      destruct (check_buys_sound _ _ _ _ _ _ _ _ E) as (found & -> & Hfound).
      unfold ArbitrageDetector._filterBestOpportunities in Ho.
      assert (Hin : o ∈ found).
      { rewrite <- (sort_by_profit_perm found).
        rewrite <- (take_drop 5 (ArbitrageDetector.sort_by_profit found)).
        apply elem_of_app. left. exact Ho. }
      destruct (Hfound o Hin) as (b & s & Hb & Hs & Hd & Hc).
      exists b, s.
      unfold ArbitrageDetector._getUniqueExchanges in Hb, Hs.
      rewrite elem_of_remove_dups in Hb. rewrite elem_of_remove_dups in Hs.
      split; [exact Hb|]. split; [exact Hs|]. split; [exact Hd|exact Hc].
  - split; [simpl; lia|]. intros o Ho. inversion Ho.
Qed.

(** ** Depth analysis *)

Section DepthFigures.
Import MarketDepthAnalyzer.

Variable parse : string -> option Decimal.t.


End DepthFigures.

Section DepthSides.
Import MarketDepthAnalyzer.

Variable parse : string -> option Decimal.t.



End DepthSides.





(** X23.  [calculateOptimalSize] returns the largest of its four test
    sizes (1000, 5000, 10000, 50000) that qualifies, with the analysis of
    that size, and [null] when none does; it never throws. *)
Theorem optimal_size_is_the_largest_that_qualifies
  (parse : string -> option Decimal.t) (config : MarketDepthAnalyzer.Config) (now : Z)
  (orderbook : MarketDepthAnalyzer.OrderBook) :
  MarketDepthAnalyzer.calculateOptimalSize parse config now orderbook
  = Some (match List.find (qualifies parse config now orderbook)
                          (rev MarketDepthAnalyzer.sizes) with
          | Some size =>
              option_map (pair size)
                (MarketDepthAnalyzer.analyzeDepth parse config now orderbook
                   (Js.Number (Decimal.of_Z size)))
          | None => None
          end).
Proof.
  unfold MarketDepthAnalyzer.calculateOptimalSize, MarketDepthAnalyzer.executable_results,
    MarketDepthAnalyzer.sizes, qualifies.
  cbn [omap list_omap List.find rev app].
  destruct (MarketDepthAnalyzer.analyzeDepth parse config now orderbook
              (Js.Number (Decimal.of_Z 1000))) as [a1|] eqn:E1;
    [destruct (MarketDepthAnalyzer.isExecutable a1)|];
  (destruct (MarketDepthAnalyzer.analyzeDepth parse config now orderbook
               (Js.Number (Decimal.of_Z 5000))) as [a2|] eqn:E2;
    [destruct (MarketDepthAnalyzer.isExecutable a2)|]);
  (destruct (MarketDepthAnalyzer.analyzeDepth parse config now orderbook
               (Js.Number (Decimal.of_Z 10000))) as [a3|] eqn:E3;
    [destruct (MarketDepthAnalyzer.isExecutable a3)|]);
  (destruct (MarketDepthAnalyzer.analyzeDepth parse config now orderbook
               (Js.Number (Decimal.of_Z 50000))) as [a4|] eqn:E4;
    [destruct (MarketDepthAnalyzer.isExecutable a4)|]);
  cbn [andb option_map];
  unfold MarketDepthAnalyzer._findOptimalSize;
  cbn - [Decimal.lte Decimal.plus Decimal.mul Decimal.of_Z];
  repeat match goal with
         | |- context [if ?c then _ else _] => destruct c
         end;
  rewrite ?E1, ?E2, ?E3, ?E4;
  reflexivity.
Qed.

(** ** Trade execution *)

Section ExecutorOrders.
Import TradeExecutor.

Variable parse : string -> option Decimal.t.

Lemma placements_app (l1 l2 : list Request) :
  placements (l1 ++ l2) = placements l1 ++ placements l2.
Proof. unfold placements. apply List.filter_app. Qed.

Lemma requests_app (l1 l2 : list Effect) :
  requests (l1 ++ l2) = requests l1 ++ requests l2.
Proof. unfold requests. apply omap_app. Qed.

Lemma validatePrices_logs (opportunity : Opportunity) (b s : option Decimal.t)
  (logs : list Effect) (valid : bool) :
  _validatePrices opportunity b s = (logs, valid) -> requests logs = [].
Proof.
  unfold _validatePrices.
  destruct b as [b|], s as [s|]; try (intros H; injection H as <- <-; reflexivity).
  destruct (missing (Some b) || missing (Some s));
    [intros H; injection H as <- <-; reflexivity|].
  destruct (_ || _); [intros H; injection H as <- <-; reflexivity|].
  destruct (Decimal.lessThan _ _); intros H; injection H as <- <-; reflexivity.
Qed.

Lemma checkBalances_logs (opportunity : Opportunity) (balance : Decimal.t)
  (logs : list Effect) (sufficient : option bool) :
  _checkBalances parse opportunity balance = (logs, sufficient) -> requests logs = [].
Proof.
  unfold _checkBalances.
  destruct (Js.toDecimal parse (usdtAmount opportunity));
    [|intros H; injection H as <- <-; reflexivity].
  destruct (Decimal.lessThan _ _); intros H; injection H as <- <-; reflexivity.
Qed.

Lemma monitorExecution_ahead (b s : Order) (t0 t1 now : Z)
  (effects : list Effect) (stage : Stage) :
  _monitorExecution b s t0 t1 now = (effects, stage) ->
  placements (requests effects) = [] /\
  placements_ahead stage = [] /\
  logged_by stage = [] /\
  (forall e, e ∈ effects ->
     e <> Log info "Both orders successfully filled" /\ e <> Log info "Trade Analysis:").
Proof.
  unfold _monitorExecution.
  destruct (now - t1 <? executionTimeout); intros H; injection H as <- <-;
    simpl; (split; [reflexivity|]); (split; [reflexivity|]); (split; [reflexivity|]);
    intros e He; repeat (apply elem_of_cons in He; destruct He as [->|He]);
    try (split; discriminate); inversion He.
Qed.

Lemma performPostTradeAnalysis_logs (b s : Order) (logs : list Effect) :
  _performPostTradeAnalysis parse b s = Some logs ->
  logs = [Log info "Trade Analysis:"].
Proof.
  unfold _performPostTradeAnalysis.
  destruct (_calculateFillMetrics parse b); [|discriminate].
  destruct (_calculateFillMetrics parse s); [|discriminate].
  destruct (_calculateNetProfit parse _ _); [|discriminate].
  congruence.
Qed.

(** One step makes at most the next placement that lies ahead, and
    leaves ahead what follows it, or nothing. *)
Lemma resume_placements (stage stage' : Stage) (response : Response) (now : Z)
  (effects : list Effect) :
  resume parse stage response now = Some (effects, stage') ->
  exists rest,
    placements_ahead stage = placements (requests effects) ++ rest /\
    (placements_ahead stage' = rest \/ placements_ahead stage' = []).
Proof.
  destruct stage, response; simpl; try discriminate;
    repeat match goal with
           | |- context [_validatePrices ?o ?b ?s] =>
               let E := fresh "E" in
               destruct (_validatePrices o b s) as [? ?] eqn:E;
               apply validatePrices_logs in E
           | |- context [_checkBalances parse ?o ?b] =>
               let E := fresh "E" in
               destruct (_checkBalances parse o b) as [? ?] eqn:E;
               apply checkBalances_logs in E
           | |- context [_monitorExecution ?b ?s ?t0 ?t1 ?n] =>
               let E := fresh "E" in
               destruct (_monitorExecution b s t0 t1 n) as [? ?] eqn:E;
               apply monitorExecution_ahead in E
           | |- context [_performPostTradeAnalysis parse ?b ?s] =>
               let E := fresh "E" in
               destruct (_performPostTradeAnalysis parse b s) as [?|] eqn:E;
               [apply performPostTradeAnalysis_logs in E; subst|]
           | |- context [match ?x with _ => _ end] => destruct x
           end;
    simpl in *; try discriminate;
    intros Hres; injection Hres as <- <-; simpl;
    destruct_and?; simpl in *;
    repeat match goal with
           | H : requests _ = [] |- _ => rewrite H
           | H : placements _ = [] |- _ => rewrite H
           | H : placements_ahead _ = [] |- _ => rewrite H
           end;
    simpl; eexists; (split; [reflexivity|]); simpl; auto.
Qed.

Lemma continue_placements (settlements : list (Response * Z)) : forall stage,
  placements (requests (fst (continue parse stage settlements)))
  `prefix_of` placements_ahead stage.
Proof.
  induction settlements as [|[response now] settlements IH]; intros stage; simpl.
  - apply prefix_nil.
  - destruct (resume parse stage response now) as [[effects stage']|] eqn:E;
      [|apply prefix_nil].
    destruct (resume_placements _ _ _ _ _ E) as (rest & Hahead & Hnext).
    specialize (IH stage').
    destruct (continue parse stage' settlements) as [more final]. simpl in *.
    rewrite requests_app, placements_app, Hahead.
    apply prefix_app.
    destruct Hnext as [Hn|Hn]; rewrite Hn in IH; [exact IH|].
    apply prefix_nil_inv in IH. rewrite IH. apply prefix_nil.
Qed.

End ExecutorOrders.

(** X24.  An execution places its orders once and in order: whatever the
    collaborators answer, and however long it goes on, the order
    placements among the requests of one call of [executeArbitrage] are
    an initial part of the buy order followed by the sell order, each
    with the amount and price of the opportunity. *)
Theorem orders_are_placed_once_buy_then_sell
  (parse : string -> option Decimal.t) (opportunity : TradeExecutor.Opportunity)
  (now : Z) (settlements : list (TradeExecutor.Response * Z)) :
  let begun := TradeExecutor.executeArbitrage opportunity now false in
  let rest := TradeExecutor.continue parse (snd (fst begun)) settlements in
  placements (TradeExecutor.requests (fst (fst begun) ++ fst rest))
  `prefix_of` [TradeExecutor.buy_request opportunity;
               TradeExecutor.sell_request opportunity].
Proof.
  cbv zeta. simpl TradeExecutor.executeArbitrage. cbn [fst snd].
  rewrite requests_app, placements_app. simpl.
  apply (continue_placements parse settlements
           (TradeExecutor.AwaitBuyPrice opportunity now)).
Qed.

Section ExecutorSuccess.
Import TradeExecutor.

Variable parse : string -> option Decimal.t.

Lemma placed_by_bound (stage : Stage) : (placed_by stage <= 2)%nat.
Proof.
  destruct stage; simpl; try lia.
  match goal with result : bool |- _ => destruct result end; lia.
Qed.

(** One step writes the log lines its next stage stands for, and makes
    the placements it stands for, unless the stage before did. *)
Lemma resume_progress (stage stage' : Stage) (response : Response) (now : Z)
  (effects : list Effect) :
  resume parse stage response now = Some (effects, stage') ->
  (forall e, e ∈ logged_by stage' -> e ∈ logged_by stage \/ e ∈ effects) /\
  (placed_by stage' <= placed_by stage + length (placements (requests effects)))%nat.
Proof.
  destruct stage, response; simpl; try discriminate;
    repeat match goal with
           | |- context [_validatePrices ?o ?b ?s] =>
               let E := fresh "E" in
               destruct (_validatePrices o b s) as [? ?] eqn:E;
               apply validatePrices_logs in E
           | |- context [_checkBalances parse ?o ?b] =>
               let E := fresh "E" in
               destruct (_checkBalances parse o b) as [? ?] eqn:E;
               apply checkBalances_logs in E
           | |- context [_monitorExecution ?b ?s ?t0 ?t1 ?n] =>
               let E := fresh "E" in
               destruct (_monitorExecution b s t0 t1 n) as [? ?] eqn:E;
               apply monitorExecution_ahead in E
           | |- context [_performPostTradeAnalysis parse ?b ?s] =>
               let E := fresh "E" in
               destruct (_performPostTradeAnalysis parse b s) as [?|] eqn:E;
               [apply performPostTradeAnalysis_logs in E; subst|]
           | |- context [match ?x with _ => _ end] => destruct x
           end;
    simpl in *; try discriminate;
    intros Hres; injection Hres as <- <-; simpl;
    destruct_and?; simpl in *;
    repeat match goal with
           | H : logged_by _ = [] |- _ => rewrite H
           end;
    (split;
     [intros e He; simpl in He;
      repeat (apply elem_of_cons in He; destruct He as [->|He]);
      try (inversion He; fail);
      try (left; repeat constructor; fail);
      try (right; repeat constructor; fail)
     |]).
  all: try lia.
  all: match goal with
       | s : Stage |- _ => pose proof (placed_by_bound s); lia
       end.
Qed.

Lemma continue_progress (settlements : list (Response * Z)) :
  forall stage effects final,
  continue parse stage settlements = (effects, final) ->
  (forall e, e ∈ logged_by final -> e ∈ logged_by stage \/ e ∈ effects) /\
  (placed_by final <= placed_by stage + length (placements (requests effects)))%nat.
Proof.
  induction settlements as [|[response now] settlements IH];
    intros stage effects final; simpl.
  - intros H. injection H as <- <-. split; [auto|simpl; lia].
  - destruct (resume parse stage response now) as [[first stage']|] eqn:E.
    + destruct (resume_progress _ _ _ _ _ E) as [Hlog Hplaced].
      destruct (continue parse stage' settlements) as [more final'] eqn:Ec.
      destruct (IH _ _ _ Ec) as [Hlog' Hplaced'].
      intros H. injection H as <- <-. split.
      * intros e He. destruct (Hlog' e He) as [Hs|Hm].
        -- destruct (Hlog e Hs) as [?|?]; [left; assumption|].
           right. apply elem_of_app. left. assumption.
        -- right. apply elem_of_app. right. assumption.
      * rewrite requests_app, placements_app, length_app. lia.
    + intros H. injection H as <- <-. split; [auto|simpl; lia].
Qed.

End ExecutorSuccess.

(** X25.  [executeArbitrage] returns [true] only at the end of a complete
    trade: if a call ends with [true], it has placed the buy order and
    the sell order of the opportunity and no other order, it has seen
    both reported filled in one poll, and the post-trade analysis has gone
    through. *)
Theorem success_means_a_complete_trade
  (parse : string -> option Decimal.t) (opportunity : TradeExecutor.Opportunity)
  (now : Z) (settlements : list (TradeExecutor.Response * Z))
  (effects : list TradeExecutor.Effect) :
  TradeExecutor.continue parse (TradeExecutor.AwaitBuyPrice opportunity now) settlements
  = (effects, TradeExecutor.Finished true) ->
  placements (TradeExecutor.requests effects)
  = [TradeExecutor.buy_request opportunity; TradeExecutor.sell_request opportunity] /\
  TradeExecutor.Log TradeExecutor.info "Both orders successfully filled" ∈ effects /\
  TradeExecutor.Log TradeExecutor.info "Trade Analysis:" ∈ effects.
Proof.
  intros Hrun.
  destruct (continue_progress parse settlements _ _ _ Hrun) as [Hlog Hplaced].
  pose proof (continue_placements parse settlements
                (TradeExecutor.AwaitBuyPrice opportunity now)) as Hprefix.
  rewrite Hrun in Hprefix. simpl in Hprefix, Hplaced.
  split; [|split].
  - destruct Hprefix as [rest Hrest].
    destruct (placements (TradeExecutor.requests effects)) as [|p1 [|p2 [|p3 more]]];
      simpl in Hplaced; try lia.
    + injection Hrest as <- <- _. reflexivity.
    + discriminate.
  - destruct (Hlog (TradeExecutor.Log TradeExecutor.info "Both orders successfully filled"))
      as [H|H]; [simpl; repeat constructor|inversion H|exact H].
  - destruct (Hlog (TradeExecutor.Log TradeExecutor.info "Trade Analysis:"))
      as [H|H]; [simpl; repeat constructor|inversion H|exact H].
Qed.

Lemma success_means_a_complete_trade_witness :
  exists effects,
    TradeExecutor.continue parse_plain (TradeExecutor.AwaitBuyPrice sample_opportunity 1000)
      both_filled = (effects, TradeExecutor.Finished true) /\
    placements (TradeExecutor.requests effects)
    = [TradeExecutor.buy_request sample_opportunity;
       TradeExecutor.sell_request sample_opportunity].
Proof.
  eexists. split; [vm_compute; reflexivity|].
  refine (proj1 (success_means_a_complete_trade parse_plain sample_opportunity 1000
                   both_filled _ _)).
  vm_compute. reflexivity.
Defined.

Section ExecutorTotals.
Import TradeExecutor.

Variable parse : string -> option Decimal.t.

Lemma analysis_needs_totals (buyOrder sellOrder : Order) :
  totalCost buyOrder = Js.Undefined ->
  _performPostTradeAnalysis parse buyOrder sellOrder = None.
Proof.
  intros H. unfold _performPostTradeAnalysis, _calculateFillMetrics. rewrite H.
  reflexivity.
Qed.

Lemma monitorExecution_without_totals (b s : Order) (t0 t1 now : Z) :
  totalCost b = Js.Undefined ->
  without_totals (snd (_monitorExecution b s t0 t1 now)).
Proof.
  intros H. unfold _monitorExecution.
  destruct (now - t1 <? executionTimeout); simpl; [exact H|exact I].
Qed.

Lemma resume_without_totals (stage stage' : Stage) (response : Response) (now : Z)
  (effects : list Effect) :
  from_order_manager response ->
  without_totals stage ->
  resume parse stage response now = Some (effects, stage') ->
  without_totals stage'.
Proof.
  intros Hmanaged Hstage.
  destruct stage, response; simpl; try discriminate;
    repeat match goal with
           | |- context [_validatePrices ?o ?b ?s] =>
               destruct (_validatePrices o b s) as [? ?]
           | |- context [_checkBalances parse ?o ?b] =>
               destruct (_checkBalances parse o b) as [? ?]
           | |- context [_monitorExecution ?b ?s ?t0 ?t1 ?n] =>
               let H := fresh "Hmonitor" in
               pose proof (monitorExecution_without_totals b s t0 t1 n) as H;
               destruct (_monitorExecution b s t0 t1 n) as [? ?]
           | |- context [_performPostTradeAnalysis parse ?b ?s] =>
               let H := fresh "Hanalysis" in
               pose proof (analysis_needs_totals b s) as H;
               destruct (_performPostTradeAnalysis parse b s) as [?|]
           | |- context [match ?x with _ => _ end] => destruct x
           end;
    simpl in *; try discriminate;
    intros Hres; injection Hres as <- <-; simpl; auto;
    try (match goal with Hm : exists _, _ |- _ => destruct Hm as [? ->]; reflexivity end);
    try (intros; discriminate);
    try (match goal with
         | H : _ -> Some _ = None |- _ => specialize (H (Hstage eq_refl)); discriminate
         end).
Qed.

Lemma continue_without_totals (settlements : list (Response * Z)) : forall stage,
  Forall (fun settlement => from_order_manager (fst settlement)) settlements ->
  without_totals stage ->
  without_totals (snd (continue parse stage settlements)).
Proof.
  induction settlements as [|[response now] settlements IH]; intros stage Hall Hstage;
    simpl; [exact Hstage|].
  apply Forall_cons in Hall. destruct Hall as [Hfirst Hall]. simpl in Hfirst.
  destruct (resume parse stage response now) as [[effects stage']|] eqn:E;
    [|exact Hstage].
  specialize (IH stage' Hall (resume_without_totals _ _ _ _ _ Hfirst Hstage E)).
  destruct (continue parse stage' settlements) as [more final]. exact IH.
Qed.

End ExecutorTotals.

(** X26.  The orders [OrderManager] creates carry no [totalCost] and no
    [totalFilled], which the post-trade analysis of [TradeExecutor]
    needs.  So with [OrderManager] as its order manager no call of
    [executeArbitrage] ever returns [true]: whatever the collaborators
    answer, the call is still running or has returned [false], also when
    both orders were filled. *)
Theorem order_manager_orders_never_complete
  (parse : string -> option Decimal.t) (opportunity : TradeExecutor.Opportunity)
  (now : Z) (settlements : list (TradeExecutor.Response * Z)) :
  Forall (fun settlement => from_order_manager (fst settlement)) settlements ->
  returned (snd (TradeExecutor.continue parse
                   (TradeExecutor.AwaitBuyPrice opportunity now) settlements)) = None \/
  returned (snd (TradeExecutor.continue parse
                   (TradeExecutor.AwaitBuyPrice opportunity now) settlements))
  = Some false.
Proof.
  intros Hall.
  pose proof (continue_without_totals parse settlements
                (TradeExecutor.AwaitBuyPrice opportunity now) Hall I) as H.
  destruct (snd (TradeExecutor.continue parse _ settlements)); simpl in *; auto.
  right. rewrite H. reflexivity.
Qed.

Lemma order_manager_orders_never_complete_witness :
  TradeExecutor.Log TradeExecutor.info "Both orders successfully filled"
  ∈ fst (TradeExecutor.continue parse_plain
           (TradeExecutor.AwaitBuyPrice sample_opportunity 1000) managed_fills) /\
  (returned (snd (TradeExecutor.continue parse_plain
                    (TradeExecutor.AwaitBuyPrice sample_opportunity 1000) managed_fills))
   = None \/
   returned (snd (TradeExecutor.continue parse_plain
                    (TradeExecutor.AwaitBuyPrice sample_opportunity 1000) managed_fills))
   = Some false).
Proof.
  split.
  - vm_compute. repeat constructor.
  - apply (order_manager_orders_never_complete parse_plain sample_opportunity 1000
             managed_fills).
    unfold managed_fills.
    repeat (constructor; [simpl; try exact I; eexists; reflexivity|]).
    constructor.
Defined.

(** X30.  The monitoring of the two orders ends with the execution
    timeout.  When the loop comes round after a sleep, it polls the buy
    order again while less than 45 seconds have passed since monitoring
    began; from 45 seconds on it asks for both orders to be cancelled
    and, whether that succeeds or fails, the call returns [false] with no
    further request. *)
Theorem monitoring_gives_up_at_the_execution_timeout
  (parse : string -> option Decimal.t) (buyOrder sellOrder : TradeExecutor.Order)
  (startTime monitorStart now t2 t3 t4 : Z) (cancelOutcome : TradeExecutor.Response) :
  cancelOutcome = TradeExecutor.Done \/ cancelOutcome = TradeExecutor.Failed ->
  (now - monitorStart < TradeExecutor.executionTimeout ->
   TradeExecutor.resume parse
     (TradeExecutor.AwaitSleep buyOrder sellOrder startTime monitorStart)
     TradeExecutor.Done now
   = Some ([TradeExecutor.Call (TradeExecutor.GetOrder (TradeExecutor.id buyOrder))],
           TradeExecutor.AwaitBuyStatus buyOrder sellOrder startTime monitorStart)) /\
  (TradeExecutor.executionTimeout <= now - monitorStart ->
   exists effects,
     TradeExecutor.continue parse
       (TradeExecutor.AwaitSleep buyOrder sellOrder startTime monitorStart)
       [(TradeExecutor.Done, now); (cancelOutcome, t2); (TradeExecutor.Done, t3);
        (TradeExecutor.Done, t4)]
     = (effects, TradeExecutor.Finished false) /\
     TradeExecutor.requests effects
     = [TradeExecutor.CancelOrder (TradeExecutor.id buyOrder);
        TradeExecutor.CancelOrder (TradeExecutor.id sellOrder)]).
Proof.
  intros Hcancel. split; intros Htime.
  - simpl. unfold TradeExecutor._monitorExecution.
    destruct (Z.ltb_spec (now - monitorStart) TradeExecutor.executionTimeout); [|lia].
    reflexivity.
  - simpl. unfold TradeExecutor._monitorExecution.
    destruct (Z.ltb_spec (now - monitorStart) TradeExecutor.executionTimeout); [lia|].
    destruct Hcancel as [-> | ->]; eexists; split; reflexivity.
Qed.

Lemma monitoring_gives_up_at_the_execution_timeout_witness :
  exists effects,
    TradeExecutor.continue parse_plain
      (TradeExecutor.AwaitSleep sample_buy_order sample_sell_order 1000 1051)
      [(TradeExecutor.Done, 46051); (TradeExecutor.Failed, 46060);
       (TradeExecutor.Done, 46061); (TradeExecutor.Done, 46062)]
    = (effects, TradeExecutor.Finished false) /\
    TradeExecutor.requests effects
    = [TradeExecutor.CancelOrder "buy-1"; TradeExecutor.CancelOrder "sell-1"].
Proof.
  refine (proj2 (monitoring_gives_up_at_the_execution_timeout parse_plain
                   sample_buy_order sample_sell_order 1000 1051 46051 46060 46061 46062
                   TradeExecutor.Failed (or_intror eq_refl)) _).
  vm_compute. discriminate.
Defined.

Section ExecutorStub.
Import TradeExecutor.

Variable parse : string -> option Decimal.t.

Lemma resume_at_the_price_check (stage stage' : Stage) (response : Response) (now : Z)
  (effects : list Effect) :
  from_stubbed_feed response ->
  at_the_price_check stage ->
  resume parse stage response now = Some (effects, stage') ->
  at_the_price_check stage' /\
  Forall (fun e => match e with
                   | Call (GetCurrentPrice _) => True
                   | Call _ => False
                   | Log _ _ => True
                   end) effects.
Proof.
  intros Hstub Hstage.
  destruct stage, response; simpl in *; try discriminate; try contradiction;
    repeat match goal with
           | x : option Decimal.t |- _ => destruct x; simpl in *;
                                          try discriminate; try contradiction
           | x : bool |- _ => destruct x; simpl in *;
                              try discriminate; try contradiction
           end;
    intros Hres; injection Hres as <- <-; simpl; split; auto; repeat constructor.
Qed.

Lemma continue_at_the_price_check (settlements : list (Response * Z)) : forall stage,
  Forall (fun settlement => from_stubbed_feed (fst settlement)) settlements ->
  at_the_price_check stage ->
  at_the_price_check (snd (continue parse stage settlements)) /\
  Forall (fun e => match e with
                   | Call (GetCurrentPrice _) => True
                   | Call _ => False
                   | Log _ _ => True
                   end) (fst (continue parse stage settlements)).
Proof.
  induction settlements as [|[response now] settlements IH]; intros stage Hall Hstage;
    simpl; [split; [exact Hstage|constructor]|].
  apply Forall_cons in Hall. destruct Hall as [Hfirst Hall]. simpl in Hfirst.
  destruct (resume parse stage response now) as [[effects stage']|] eqn:E;
    [|split; [exact Hstage|constructor]].
  destruct (resume_at_the_price_check _ _ _ _ _ Hfirst Hstage E) as [Hstage' Heffects].
  destruct (IH stage' Hall Hstage') as [Hfinal Hmore].
  destruct (continue parse stage' settlements) as [more final]. simpl in *.
  split; [exact Hfinal|]. apply Forall_app. split; assumption.
Qed.

End ExecutorStub.

(** X4.  With the price feed as the source stubs it ([_getCurrentPrice]
    returns [null]), an execution never gets past the price check:
    whatever else the collaborators answer, the only requests of a call of
    [executeArbitrage] are the two price requests, no order is placed, and
    the call is still at the price check or has returned [false]. *)
Theorem stubbed_price_feed_places_no_order
  (parse : string -> option Decimal.t) (opportunity : TradeExecutor.Opportunity)
  (now : Z) (settlements : list (TradeExecutor.Response * Z)) :
  Forall (fun settlement => from_stubbed_feed (fst settlement)) settlements ->
  let rest := TradeExecutor.continue parse
                (TradeExecutor.AwaitBuyPrice opportunity now) settlements in
  placements (TradeExecutor.requests (fst rest)) = [] /\
  (forall request, request ∈ TradeExecutor.requests (fst rest) ->
     exists exchange, request = TradeExecutor.GetCurrentPrice exchange) /\
  (returned (snd rest) = None \/ returned (snd rest) = Some false).
Proof.
  intros Hall rest.
  destruct (continue_at_the_price_check parse settlements
              (TradeExecutor.AwaitBuyPrice opportunity now) Hall I) as [Hfinal Heffects].
  fold rest in Hfinal, Heffects.
  assert (Hrequests : forall request, request ∈ TradeExecutor.requests (fst rest) ->
            exists exchange, request = TradeExecutor.GetCurrentPrice exchange).
  { intros request Hin. unfold TradeExecutor.requests in Hin.
    apply list_elem_of_omap in Hin. destruct Hin as (e & He & Hcall).
    rewrite Forall_forall in Heffects. specialize (Heffects e He).
    destruct e as [[exchange| | | | |]|]; try contradiction; try discriminate.
    injection Hcall as <-. eauto. }
  split; [|split].
  - unfold placements.
    induction (TradeExecutor.requests (fst rest)) as [|r l IH]; [reflexivity|].
    simpl. destruct (Hrequests r) as [exchange ->]; [left|].
    apply IH. intros request Hin. apply Hrequests. right. exact Hin.
  - exact Hrequests.
  - destruct (snd rest) as [| | | | | | | | | | | | | | | | | | | | |result];
      simpl in *; auto.
    destruct result; [contradiction|auto].
Qed.

Lemma stubbed_price_feed_places_no_order_witness :
  placements
    (TradeExecutor.requests
       (fst (TradeExecutor.continue parse_plain
               (TradeExecutor.AwaitBuyPrice sample_opportunity 1000)
               [(TradeExecutor.stub_price, 1010); (TradeExecutor.stub_price, 1020);
                (TradeExecutor.Done, 1021)]))) = [].
Proof.
  refine (proj1 (stubbed_price_feed_places_no_order parse_plain sample_opportunity 1000
                   [(TradeExecutor.stub_price, 1010); (TradeExecutor.stub_price, 1020);
                    (TradeExecutor.Done, 1021)] _)).
  repeat constructor.
Defined.

(** ** Order management *)

Section OrderFacts.
Import OrderManager.

Variable parse : string -> option Decimal.t.

Lemma createOrder_some (params : Params) (now : Z) (random : string) (st st1 : t)
  (order : Order) :
  createOrder parse params now random st = (Some order, st1) ->
  id order = _generateOrderId now random /\
  status order = "pending"%string /\
  config st1 = config st /\
  orders st1 = <[id order := order]> (orders st) /\
  timers st1 = timers st ++ [mkTimer (now + orderTimeout (config st)) (id order)] /\
  emitted st1 = emitted st ++ [OrderCreated order].
Proof.
  unfold createOrder.
  destruct (_validateOrderParams parse st params); [|discriminate].
  destruct (Js.toDecimal parse (param_amount params)); [|discriminate].
  destruct (Js.toDecimal parse (param_price params)); [|discriminate].
  intros H. injection H as <- <-. simpl. auto 10.
Qed.

Lemma orderTimeoutElapsed_pending (orderId : string) (now : Z) (st : t) (order : Order) :
  orders st !! orderId = Some order ->
  String.eqb (status order) "pending" = true ->
  orderTimeoutElapsed orderId now st
  = emit (OrderTimeout (with_status "cancelled" now order))
      (emit (OrderCancelled (with_status "cancelled" now order))
         (with_orders (<[orderId := with_status "cancelled" now order]> (orders st)) st)).
Proof.
  intros Hlookup Hpending.
  unfold orderTimeoutElapsed, cancelOrder. rewrite Hlookup, Hpending.
  cbn [snd]. unfold emit at 1 2, with_orders at 1 2. cbn [orders].
  rewrite lookup_insert_eq. reflexivity.
Qed.

Lemma orderTimeoutElapsed_settled (orderId : string) (now : Z) (st : t) (order : Order) :
  orders st !! orderId = Some order ->
  String.eqb (status order) "pending" = false ->
  orderTimeoutElapsed orderId now st = st.
Proof.
  intros Hlookup Hsettled.
  unfold orderTimeoutElapsed. rewrite Hlookup, Hsettled. reflexivity.
Qed.

End OrderFacts.



(** X28.  The order timeout cancels an order only while it is pending.
    A new order, its timer the only one, is left alone by the timers
    before [orderTimeout] has elapsed.  Once it has, an order whose status
    was meanwhile set to [status] is cancelled if that status is
    ['pending'], with an [orderCancelled] and an [orderTimeout] event, and
    otherwise keeps its status for good: a ['partial'] order never times
    out. *)
Theorem order_timeout_cancels_only_pending_orders
  (parse : string -> option Decimal.t) (params : OrderManager.Params)
  (now updated later : Z) (random status : string)
  (st st1 st2 : OrderManager.t) (order : OrderManager.Order) :
  OrderManager.timers st = [] ->
  OrderManager.createOrder parse params now random st = (Some order, st1) ->
  snd (OrderManager.updateOrderStatus (OrderManager.id order) status None updated st1)
  = st2 ->
  (later < now + OrderManager.orderTimeout (OrderManager.config st) ->
   OrderManager.runTimers later st1 = st1) /\
  (now + OrderManager.orderTimeout (OrderManager.config st) <= later ->
   OrderManager.status <$>
     OrderManager.getOrder (OrderManager.runTimers later st2) (OrderManager.id order)
   = Some (if String.eqb status "pending" then "cancelled"%string else status) /\
   OrderManager.timers (OrderManager.runTimers later st2) = [] /\
   (String.eqb status "pending" = true ->
    exists cancelled,
      OrderManager.getOrder (OrderManager.runTimers later st2) (OrderManager.id order)
      = Some cancelled /\
      OrderManager.emitted (OrderManager.runTimers later st2)
      = OrderManager.emitted st2
        ++ [OrderManager.OrderCancelled cancelled; OrderManager.OrderTimeout cancelled]) /\
   (String.eqb status "pending" = false ->
    OrderManager.orders (OrderManager.runTimers later st2) = OrderManager.orders st2 /\
    OrderManager.emitted (OrderManager.runTimers later st2) = OrderManager.emitted st2)).
Proof.
  intros Htimers Hcreate Hupdate.
  destruct (createOrder_some parse _ _ _ _ _ _ Hcreate)
    as (Hid & Hstatus & Hconfig & Horders & Htimers1 & Hemitted).
  rewrite Htimers in Htimers1. simpl in Htimers1.
  split.
  - intros Hbefore. unfold OrderManager.runTimers. rewrite Htimers1.
    cbn [partition OrderManager.due].
    destruct (Z.leb_spec (now + OrderManager.orderTimeout (OrderManager.config st)) later);
      [lia|].
    simpl. destruct st1; simpl in *. rewrite Htimers1. reflexivity.
  - intros Hafter.
    assert (Hlookup : OrderManager.orders st1 !! OrderManager.id order = Some order)
      by (rewrite Horders; apply lookup_insert_eq).
    unfold OrderManager.updateOrderStatus in Hupdate. rewrite Hlookup in Hupdate.
    simpl in Hupdate. subst st2.
    unfold OrderManager.runTimers.
    cbn [OrderManager.timers OrderManager.emit OrderManager.with_orders].
    rewrite Htimers1. cbn [partition OrderManager.due].
    destruct (Z.leb_spec (now + OrderManager.orderTimeout (OrderManager.config st)) later);
      [|lia].
    cbn [fold_left OrderManager.timer_orderId].
    destruct (String.eqb status "pending") eqn:Es.
    + erewrite orderTimeoutElapsed_pending;
        [|cbn [OrderManager.orders]; apply lookup_insert_eq|exact Es].
      unfold OrderManager.getOrder. simpl. rewrite lookup_insert_eq.
      split; [reflexivity|]. split; [reflexivity|].
      split; [|discriminate].
      intros _. eexists. split; [reflexivity|].
      rewrite <- app_assoc. reflexivity.
    + erewrite orderTimeoutElapsed_settled;
        [|cbn [OrderManager.orders]; apply lookup_insert_eq|exact Es].
      unfold OrderManager.getOrder. simpl. rewrite lookup_insert_eq.
      split; [reflexivity|]. split; [reflexivity|].
      split; [discriminate|]. intros _. split; reflexivity.
Qed.

Lemma order_timeout_cancels_only_pending_orders_witness :
  let created := OrderManager.createOrder parse_plain sample_params 1000 "k3x"
                   (OrderManager.new OrderManager.no_config) in
  let partial := snd (OrderManager.updateOrderStatus "order_1000_k3x" "partial" None 2000
                        (snd created)) in
  OrderManager.status <$>
    OrderManager.getOrder (OrderManager.runTimers 31000 partial) "order_1000_k3x"
  = Some "partial"%string.
Proof.
  cbv zeta.
  assert (Hcreated :
    exists order,
      OrderManager.createOrder parse_plain sample_params 1000 "k3x"
        (OrderManager.new OrderManager.no_config)
      = (Some order,
         snd (OrderManager.createOrder parse_plain sample_params 1000 "k3x"
                (OrderManager.new OrderManager.no_config))) /\
      OrderManager.id order = "order_1000_k3x"%string).
  { eexists. split; vm_compute; reflexivity. }
  destruct Hcreated as (order & Hcreate & Hid).
  destruct (order_timeout_cancels_only_pending_orders parse_plain sample_params
              1000 2000 31000 "k3x" "partial"
              (OrderManager.new OrderManager.no_config) _ _ order
              eq_refl Hcreate eq_refl) as [_ Hafter].
  rewrite Hid in Hafter.
  destruct Hafter as [Hstatus _]; [vm_compute; discriminate|].
  exact Hstatus.
Defined.
